(** * drawer-labs core: pointer tracking, spring animation, snap points

    A shallow embedding of the three engine classes of [@drawer-labs/core]
    ([PointerTracker], [SpringAnimation], [SnapPointCalculator]) and the
    properties their specification states about them.

    JavaScript numbers are IEEE-754 binary64 values.  They are modelled by
    [spec_float] at precision 53 and maximal exponent 1024 with the
    operations of the Standard Library's [SpecFloat], rounding to nearest
    even, so that every arithmetic step of the source is evaluated exactly as
    the engine evaluates it ([NaN], infinities and signed zeros included). *)

From Stdlib Require Import ZArith List String Ascii Bool Lia QArith.
From Stdlib Require Import DecimalString DecimalNat SpecFloat.
Import ListNotations.
Local Open Scope Z_scope.

(* ================================================================== *)
(** * Part I: the embedding *)
(* ================================================================== *)

(** ** JavaScript numbers *)

Module Num.

Definition prec : Z := 53.
Definition emax : Z := 1024.

Definition number : Set := spec_float.

Definition NaN : number := S754_nan.
Definition POSITIVE_INFINITY : number := S754_infinity false.

(** The literal [0]. *)
Definition zero : number := S754_zero false.

(** An integer literal, and an array position or length read as a number. *)
Definition of_Z (z : Z) : number := binary_normalize prec emax z 0 false.
Definition of_nat (n : nat) : number := of_Z (Z.of_nat n).

(** The representation of the integer [p] (negated when [s]) when [p] has at
    most 53 bits: [p] shifted to a mantissa of 53 bits. *)
Definition of_pos (s : bool) (p : positive) : number :=
  S754_finite s (Pos.shiftl p (Z.to_N (prec - Z.pos (digits2_pos p))))
    (Z.pos (digits2_pos p) - prec).

(** The number denoted by the decimal [m * 10^e] (sign [neg]), correctly
    rounded: decimal literals of the source and the digits read by
    [parseFloat] go through it. *)
Definition of_decimal (neg : bool) (m e : Z) : number :=
  match m with
  | Z0 => S754_zero neg
  | Zneg _ => S754_nan
  | Zpos p =>
      match e with
      | Z0 => binary_round prec emax neg p 0
      | Zpos k => binary_round prec emax neg (p * Pos.pow 10 k) 0
      | Zneg k =>
          let '(q, e', l) :=
            SFdiv_core_binary prec emax (Zpos p) 0 (Zpos (Pos.pow 10 k)) 0 in
          binary_round_aux prec emax neg q e' l
      end
  end.

Definition add : number -> number -> number := SFadd prec emax.
Definition sub : number -> number -> number := SFsub prec emax.
Definition mul : number -> number -> number := SFmul prec emax.
Definition div : number -> number -> number := SFdiv prec emax.
Definition neg : number -> number := SFopp.

(** [Math.abs]. *)
Definition abs : number -> number := SFabs.

(** [a < b], [a > b], [a <= b] and [a === b] on numbers. *)
Definition ltb (a b : number) : bool := SFltb a b.
Definition gtb (a b : number) : bool := SFltb b a.
Definition leb (a b : number) : bool := SFleb a b.
Definition strict_eq (a b : number) : bool := SFeqb a b.

Definition is_nan (a : number) : bool :=
  match a with S754_nan => true | _ => false end.

(** [Math.min(a, b)] and [Math.max(a, b)]: [NaN] when either argument is,
    and [-0] below [+0]. *)
Definition min (a b : number) : number :=
  match SFcompare a b with
  | None => NaN
  | Some Lt => a
  | Some Gt => b
  | Some Eq => match a with S754_zero true => a | _ => b end
  end.

Definition max (a b : number) : number :=
  match SFcompare a b with
  | None => NaN
  | Some Lt => b
  | Some Gt => a
  | Some Eq => match a with S754_zero false => a | _ => b end
  end.

(** A key whose lexicographic order is the order of the numbers that are not
    [NaN]: the class (negative infinity, negative, zero, positive, positive
    infinity), then the exponent and the mantissa, both negated below zero. *)
Definition order_key (a : number) : Z * Z * Z :=
  match a with
  | S754_infinity true => (-2, 0, 0)
  | S754_finite true m e => (-1, - e, Zneg m)
  | S754_zero _ | S754_nan => (0, 0, 0)
  | S754_finite false m e => (1, e, Zpos m)
  | S754_infinity false => (2, 0, 0)
  end.

Definition key_compare (k1 k2 : Z * Z * Z) : comparison :=
  let '(a1, b1, c1) := k1 in
  let '(a2, b2, c2) := k2 in
  match a1 ?= a2 with
  | Eq => match b1 ?= b2 with Eq => c1 ?= c2 | o => o end
  | o => o
  end.

(** The integer a number is equal to, when it is one. *)
Definition integer_value (a : number) : option Z :=
  match a with
  | S754_zero _ => Some 0
  | S754_finite s m (Zneg k) =>
      if Zpos m mod Zpos (Pos.pow 2 k) =? 0
      then Some (cond_Zopp s (Zpos m / Zpos (Pos.pow 2 k)))
      else None
  | S754_finite s m e => Some (cond_Zopp s (Zpos m * 2 ^ e))
  | _ => None
  end.

(** The rational a finite number stands for. *)
Definition value (a : number) : option Q :=
  match a with
  | S754_zero _ => Some (inject_Z 0)
  | S754_finite s m (Zneg k) => Some (Qmake (cond_Zopp s (Zpos m)) (Pos.pow 2 k))
  | S754_finite s m e => Some (inject_Z (cond_Zopp s (Zpos m * 2 ^ e)))
  | _ => None
  end.

(** [a] is the integer [z]. *)
Definition represents (a : number) (z : Z) : Prop :=
  match value a with
  | Some q => Qeq q (inject_Z z)
  | None => False
  end.

(** [arr[i]] for a number [i]: the element when [i] is an integer below the
    length ([-0] reads position 0), [undefined] otherwise. *)
Definition array_get {A : Type} (arr : list A) (i : number) : option A :=
  match integer_value i with
  | Some k =>
      if (0 <=? k) && (k <? Z.of_nat (List.length arr))
      then nth_error arr (Z.to_nat k)
      else None
  | None => None
  end.

End Num.

(** ** Strings

    The strings of the model are sequences of ASCII characters, which is
    what the snap descriptors of the source are made of. *)

Module Str.
Import Num.

(** [s.endsWith(suffix)]. *)
Definition endsWith (s suffix : string) : bool :=
  let n := String.length s in
  let k := String.length suffix in
  (k <=? n)%nat && String.eqb (substring (n - k) k s) suffix.

(** The decimal text of an array position, as a template literal prints it. *)
Definition string_of_index (n : nat) : string :=
  NilEmpty.string_of_uint (Nat.to_uint n).

(** The white space [Number.parseFloat] skips is [StrWhiteSpaceChar]: the
    code points 9 to 13, 32, U+00A0, U+1680, U+2000 to U+200A, U+2028,
    U+2029, U+202F, U+205F, U+3000 and U+FEFF.  A string holds text as its
    UTF-8 bytes, as a string literal does, so the ones above 127 are
    sequences of two or three bytes; the byte 160 on its own, which is how
    a one-byte encoding writes U+00A0, is read as that character too. *)
Definition is_whitespace (c : ascii) : bool :=
  match nat_of_ascii c with
  | 9%nat | 10%nat | 11%nat | 12%nat | 13%nat | 32%nat | 160%nat => true
  | _ => false
  end.

(** U+00A0 is the bytes [C2 A0]. *)
Definition is_whitespace2 (c1 c2 : ascii) : bool :=
  match nat_of_ascii c1, nat_of_ascii c2 with
  | 194%nat, 160%nat => true
  | _, _ => false
  end.

(** U+1680 is [E1 9A 80]; U+2000 to U+200A are [E2 80 80] to [E2 80 8A];
    U+2028, U+2029 and U+202F are [E2 80 A8], [E2 80 A9] and [E2 80 AF];
    U+205F is [E2 81 9F]; U+3000 is [E3 80 80]; U+FEFF is [EF BB BF]. *)
Definition is_whitespace3 (c1 c2 c3 : ascii) : bool :=
  let b1 := nat_of_ascii c1 in
  let b2 := nat_of_ascii c2 in
  let b3 := nat_of_ascii c3 in
  (Nat.eqb b1 225 && Nat.eqb b2 154 && Nat.eqb b3 128)
  || (Nat.eqb b1 226 && Nat.eqb b2 128
      && ((Nat.leb 128 b3 && Nat.leb b3 138)
          || Nat.eqb b3 168 || Nat.eqb b3 169 || Nat.eqb b3 175))
  || (Nat.eqb b1 226 && Nat.eqb b2 129 && Nat.eqb b3 159)
  || (Nat.eqb b1 227 && Nat.eqb b2 128 && Nat.eqb b3 128)
  || (Nat.eqb b1 239 && Nat.eqb b2 187 && Nat.eqb b3 191).

Fixpoint trim_start (s : string) : string :=
  match s with
  | String c1 r1 =>
      if is_whitespace c1 then trim_start r1
      else
        match r1 with
        | String c2 r2 =>
            if is_whitespace2 c1 c2 then trim_start r2
            else
              match r2 with
              | String c3 r3 =>
                  if is_whitespace3 c1 c2 c3 then trim_start r3 else s
              | EmptyString => s
              end
        | EmptyString => s
        end
  | EmptyString => s
  end.

Definition digit_of (c : ascii) : option Z :=
  let n := Z.of_nat (nat_of_ascii c) in
  if (48 <=? n) && (n <=? 57) then Some (n - 48) else None.

(** Reads a run of decimal digits: its value, its length and the rest. *)
Fixpoint read_digits (s : string) (acc count : Z) : Z * Z * string :=
  match s with
  | String c r =>
      match digit_of c with
      | Some d => read_digits r (10 * acc + d) (count + 1)
      | None => (acc, count, s)
      end
  | EmptyString => (acc, count, s)
  end.

Definition read_sign (s : string) : bool * string :=
  match s with
  | String "-"%char r => (true, r)
  | String "+"%char r => (false, r)
  | _ => (false, s)
  end.

(** An optional exponent part; 0 when it is absent or has no digit. *)
Definition read_exponent (s : string) : Z :=
  match s with
  | String c r =>
      if Ascii.eqb c "e"%char || Ascii.eqb c "E"%char then
        let (negative, r') := read_sign r in
        let '(v, n, _) := read_digits r' 0 0 in
        if n =? 0 then 0 else if negative then - v else v
      else 0
  | EmptyString => 0
  end.

(** [Number.parseFloat]: leading white space is skipped, the longest prefix
    that is a decimal literal is read, and [NaN] is the result when there is
    none. *)
Definition parseFloat (input : string) : number :=
  let (negative, s) := read_sign (trim_start input) in
  if prefix "Infinity"%string s then S754_infinity negative else
  let '(ip, ni, s1) := read_digits s 0 0 in
  let '(fp, nf, s2) :=
    match s1 with
    | String "."%char r => read_digits r 0 0
    | _ => (0, 0, s1)
    end in
  if ni + nf =? 0 then NaN
  else of_decimal negative (ip * 10 ^ nf + fp) (read_exponent s2 - nf).

End Str.

(** ** SnapPointCalculator (snap-points/snap-calculator.ts) *)

Module Snap.
Import Num Str.

(** [number | string], the type of a snap value. *)
Inductive SnapValue : Set :=
| VNumber (n : number)
| VString (s : string).

(** [SnapPoint = number | string | { value: number | string; id: string }]. *)
Inductive SnapPoint : Set :=
| PNumber (n : number)
| PString (s : string)
| PObject (value : SnapValue) (id : string).

Record SnapPointResolved : Set := {
  id : string;
  offset : number;
  relative : bool
}.

Inductive Axis : Set := horizontal | vertical.

(** [Omit<SnapConfig, 'activeIndex'>]. *)
Record SnapConfig : Set := {
  points : list SnapPoint;
  config_containerSize : number;
  direction : Axis
}.

(** The two properties of the global [window] the calculator reads. *)
Record Window : Set := {
  innerHeight : number;
  innerWidth : number
}.

Record SnapPointCalculator : Set := {
  resolvedPoints : list SnapPointResolved;
  containerSize : number
}.

(** The object returned by the two queries. *)
Record SnapQuery : Set := {
  q_index : number;
  q_offset : number;
  q_id : string
}.

Definition parseSnapValue (window : Window) (containerSize : number)
    (value : SnapValue) : number :=
  match value with
  | VNumber n => mul n containerSize
  | VString s =>
      if endsWith s "px" then parseFloat s
      else if endsWith s "%" then
        mul (div (parseFloat s) (of_Z 100)) containerSize
      else if endsWith s "vh" then
        mul (div (parseFloat s) (of_Z 100)) (innerHeight window)
      else if endsWith s "vw" then
        mul (div (parseFloat s) (of_Z 100)) (innerWidth window)
      else parseFloat s
  end.

(** The callback of [points.map((point, index) => ...)]. *)
Definition resolveSnapPoint (window : Window) (containerSize : number)
    (point : SnapPoint) (index : nat) : SnapPointResolved :=
  match point with
  | PObject value pid =>
      {| id := pid;
         offset := parseSnapValue window containerSize value;
         relative := match value with VNumber _ => true | VString _ => false end |}
  | PNumber n =>
      {| id := String.append "snap-" (string_of_index index);
         offset := parseSnapValue window containerSize (VNumber n);
         relative := true |}
  | PString s =>
      {| id := String.append "snap-" (string_of_index index);
         offset := parseSnapValue window containerSize (VString s);
         relative := false |}
  end.

(** [arr.map(f)] with the position passed to [f], from position [index]. *)
Fixpoint map_from {A B : Type} (f : A -> nat -> B) (index : nat) (arr : list A)
    : list B :=
  match arr with
  | [] => []
  | a :: rest => f a index :: map_from f (S index) rest
  end.

Definition resolveSnapPoints (window : Window) (containerSize : number)
    (points : list SnapPoint) : list SnapPointResolved :=
  map_from (resolveSnapPoint window containerSize) 0%nat points.

Definition updateConfig (window : Window) (config : SnapConfig)
    (_ : SnapPointCalculator) : SnapPointCalculator :=
  {| containerSize := config_containerSize config;
     resolvedPoints :=
       resolveSnapPoints window (config_containerSize config) (points config) |}.

(** The constructor: the field initialisers, then [updateConfig]. *)
Definition new (window : Window) (config : SnapConfig) : SnapPointCalculator :=
  updateConfig window config {| resolvedPoints := []; containerSize := zero |}.

(** The body of the [forEach] of [findNearestSnapPoint], on the pair
    [(minDistance, nearestIndex)]. *)
Definition nearest_step (currentOffset : number) (best : number * nat)
    (point : SnapPointResolved) (index : nat) : number * nat :=
  let distance := abs (sub (offset point) currentOffset) in
  if ltb distance (fst best) then (distance, index) else best.

(** [arr.forEach(f)] threading the variables [f] assigns, from position
    [index]. *)
Fixpoint forEach_from {A St : Type} (f : St -> A -> nat -> St) (index : nat)
    (arr : list A) (st : St) : St :=
  match arr with
  | [] => st
  | a :: rest => forEach_from f (S index) rest (f st a index)
  end.

Definition findNearestSnapPoint (c : SnapPointCalculator)
    (currentOffset : number) : SnapQuery :=
  let '(minDistance, nearestIndex) :=
    forEach_from (nearest_step currentOffset) 0%nat (resolvedPoints c)
      (POSITIVE_INFINITY, 0%nat) in
  match nth_error (resolvedPoints c) nearestIndex with
  | None => {| q_index := of_Z 0; q_offset := of_Z 0; q_id := "snap-0" |}
  | Some nearest =>
      {| q_index := of_nat nearestIndex;
         q_offset := offset nearest;
         q_id := id nearest |}
  end.

(** The default of the parameter [velocityThreshold]. *)
Definition default_velocityThreshold : number := of_decimal false 5 (-1).

(** The index [findNextSnapPoint] steps to. *)
Definition nextIndex (c : SnapPointCalculator) (currentIndex velocity : number)
    : number :=
  let isMovingForward := gtb velocity zero in
  if isMovingForward
  then min (add currentIndex (of_Z 1))
           (sub (of_nat (List.length (resolvedPoints c))) (of_Z 1))
  else max (sub currentIndex (of_Z 1)) (of_Z 0).

(** [velocityThreshold] is [None] when the caller leaves it out. *)
Definition findNextSnapPoint (c : SnapPointCalculator)
    (currentIndex velocity : number) (velocityThreshold : option number)
    : option SnapQuery :=
  let velocityThreshold :=
    match velocityThreshold with
    | Some t => t
    | None => default_velocityThreshold
    end in
  let hasSignificantVelocity := gtb (abs velocity) velocityThreshold in
  if negb hasSignificantVelocity then None
  else
    let nextIndex := nextIndex c currentIndex velocity in
    if strict_eq nextIndex currentIndex then None
    else
      match array_get (resolvedPoints c) nextIndex with
      | None => None
      | Some next =>
          Some {| q_index := nextIndex;
                  q_offset := offset next;
                  q_id := id next |}
      end.

(** The number a descriptor gives before it is scaled: the ratio itself, or
    what [parseFloat] reads in the string. *)
Definition raw_value (value : SnapValue) : number :=
  match value with
  | VNumber n => n
  | VString s => parseFloat s
  end.

Definition descriptor_value (point : SnapPoint) : SnapValue :=
  match point with
  | PNumber n => VNumber n
  | PString s => VString s
  | PObject value _ => value
  end.

(** The distance [findNearestSnapPoint] measures. *)
Definition distance_to (currentOffset : number) (point : SnapPointResolved)
    : number :=
  abs (sub (offset point) currentOffset).

(** What the scan of [findNearestSnapPoint] has established once the points
    [seen] went by, [best] being its [(minDistance, nearestIndex)]: no point
    seen is strictly nearer than [minDistance], and either nothing was
    selected yet, or [nearestIndex] is the first point seen at that
    distance. *)
Definition scanned (currentOffset : number) (seen : list SnapPointResolved)
    (best : number * nat) : Prop :=
  (forall j pj, nth_error seen j = Some pj ->
     ltb (distance_to currentOffset pj) (fst best) = false) /\
  (best = (POSITIVE_INFINITY, 0%nat) \/
   exists p,
     nth_error seen (snd best) = Some p /\
     fst best = distance_to currentOffset p /\
     forall j pj, (j < snd best)%nat -> nth_error seen j = Some pj ->
       leb (distance_to currentOffset pj) (distance_to currentOffset p) = false).

Definition getSnapPoint (c : SnapPointCalculator) (index : number)
    : option SnapPointResolved :=
  array_get (resolvedPoints c) index.

Definition getAllSnapPoints (c : SnapPointCalculator) : list SnapPointResolved :=
  resolvedPoints c.

Definition getSnapPointCount (c : SnapPointCalculator) : number :=
  of_nat (List.length (resolvedPoints c)).

End Snap.

(** ** SnapPointCalculator: the products [parseSnapValue] forms *)

Module SnapSign.
Import Num.

(** A zero times an infinity, in either order: the one product of two
    numbers that are [>= 0] that is [NaN]. *)
Definition zero_times_infinity (a b : number) : bool :=
  match a, b with
  | S754_zero _, S754_infinity _ => true
  | S754_infinity _, S754_zero _ => true
  | _, _ => false
  end.

(** A finite number above 0. *)
Definition is_positive_finite (a : number) : bool :=
  match a with
  | S754_finite false _ _ => true
  | _ => false
  end.

End SnapSign.

(** ** SpringAnimation (animation/spring-physics.ts) *)

Module Spring.
Import Num.

Record SpringConfig : Set := {
  stiffness : number;
  damping : number;
  mass : number;
  precision : number
}.

(** [SPRING_PRESETS]. *)
Definition gentle : SpringConfig :=
  {| stiffness := of_Z 120; damping := of_Z 14; mass := of_Z 1;
     precision := of_decimal false 1 (-2) |}.
Definition wobbly : SpringConfig :=
  {| stiffness := of_Z 180; damping := of_Z 12; mass := of_Z 1;
     precision := of_decimal false 1 (-2) |}.
Definition stiff : SpringConfig :=
  {| stiffness := of_Z 210; damping := of_Z 20; mass := of_Z 1;
     precision := of_decimal false 1 (-2) |}.
Definition slow : SpringConfig :=
  {| stiffness := of_Z 280; damping := of_Z 60; mass := of_Z 1;
     precision := of_decimal false 1 (-2) |}.
Definition molasses : SpringConfig :=
  {| stiffness := of_Z 280; damping := of_Z 120; mass := of_Z 1;
     precision := of_decimal false 1 (-2) |}.

(** [Partial<SpringConfig>]. *)
Record PartialSpringConfig : Set := {
  p_stiffness : option number;
  p_damping : option number;
  p_mass : option number;
  p_precision : option number
}.

Record SpringAnimation : Set := {
  currentValue : number;
  currentVelocity : number;
  targetValue : number;
  config : SpringConfig;
  rafId : option nat;
  lastTime : number;
  isAnimating : bool
}.

(** A call of one of the two optional handlers of the instance. *)
Inductive Callback : Set :=
| OnUpdate (value velocity : number)
| OnComplete.

(** What the instance shares with its host: the frame requests that are
    pending (by handle, oldest first), the next handle the host gives out,
    and the handler calls made so far (oldest first). *)
Record Host : Set := {
  nextHandle : nat;
  pending : list nat;
  calls : list Callback
}.

Definition World : Set := (SpringAnimation * Host)%type.

Definition requestAnimationFrame (h : Host) : nat * Host :=
  (nextHandle h,
   {| nextHandle := S (nextHandle h);
      pending := pending h ++ [nextHandle h];
      calls := calls h |}).

Definition cancelAnimationFrame (handle : nat) (h : Host) : Host :=
  {| nextHandle := nextHandle h;
     pending := filter (fun k => negb (Nat.eqb k handle)) (pending h);
     calls := calls h |}.

Definition call (c : Callback) (h : Host) : Host :=
  {| nextHandle := nextHandle h;
     pending := pending h;
     calls := calls h ++ [c] |}.

(** The constructor; [config] defaults to the gentle preset and
    [initialValue] to 0 at the call site. *)
Definition new (initialValue : number) (config : SpringConfig) : SpringAnimation :=
  {| currentValue := initialValue;
     currentVelocity := zero;
     targetValue := initialValue;
     config := config;
     rafId := None;
     lastTime := zero;
     isAnimating := false |}.

(** [start()]; [now] is the reading of [performance.now()]. *)
Definition start (now : number) (w : World) : World :=
  let (a, h) := w in
  let (handle, h') := requestAnimationFrame h in
  ({| currentValue := currentValue a;
      currentVelocity := currentVelocity a;
      targetValue := targetValue a;
      config := config a;
      rafId := Some handle;
      lastTime := now;
      isAnimating := true |}, h').

(** [setTarget(target, velocity = 0)]. *)
Definition setTarget (now : number) (target : number) (velocity : option number)
    (w : World) : World :=
  let (a, h) := w in
  let velocity := match velocity with Some v => v | None => zero end in
  let a1 :=
    {| currentValue := currentValue a;
       currentVelocity := velocity;
       targetValue := target;
       config := config a;
       rafId := rafId a;
       lastTime := lastTime a;
       isAnimating := isAnimating a |} in
  if negb (isAnimating a1) then start now (a1, h) else (a1, h).

(** The integration step of a tick. *)
Definition deltaTime (a : SpringAnimation) (currentTime : number) : number :=
  div (min (sub currentTime (lastTime a)) (of_Z 64)) (of_Z 1000).

Definition acceleration (a : SpringAnimation) : number :=
  let springForce :=
    mul (neg (stiffness (config a))) (sub (currentValue a) (targetValue a)) in
  let dampingForce := mul (neg (damping (config a))) (currentVelocity a) in
  div (add springForce dampingForce) (mass (config a)).

(** The velocity and the value a tick integrates to. *)
Definition integratedVelocity (a : SpringAnimation) (currentTime : number)
    : number :=
  add (currentVelocity a) (mul (acceleration a) (deltaTime a currentTime)).

Definition integratedValue (a : SpringAnimation) (currentTime : number)
    : number :=
  add (currentValue a)
      (mul (integratedVelocity a currentTime) (deltaTime a currentTime)).

(** [tick(currentTime)]. *)
Definition tick (currentTime : number) (w : World) : World :=
  let (a, h) := w in
  let velocity' := integratedVelocity a currentTime in
  let value' := integratedValue a currentTime in
  let isAtTarget :=
    ltb (abs (sub value' (targetValue a))) (precision (config a)) in
  let isStill := ltb (abs velocity') (precision (config a)) in
  if isAtTarget && isStill then
    ({| currentValue := targetValue a;
        currentVelocity := zero;
        targetValue := targetValue a;
        config := config a;
        rafId := rafId a;
        lastTime := currentTime;
        isAnimating := false |},
     call OnComplete h)
  else
    let (handle, h') := requestAnimationFrame (call (OnUpdate value' velocity') h) in
    ({| currentValue := value';
        currentVelocity := velocity';
        targetValue := targetValue a;
        config := config a;
        rafId := Some handle;
        lastTime := currentTime;
        isAnimating := isAnimating a |},
     h').

(** [stop()]. *)
Definition stop (w : World) : World :=
  let (a, h) := w in
  let h' :=
    match rafId a with
    | Some handle => cancelAnimationFrame handle h
    | None => h
    end in
  ({| currentValue := currentValue a;
      currentVelocity := currentVelocity a;
      targetValue := targetValue a;
      config := config a;
      rafId := None;
      lastTime := lastTime a;
      isAnimating := false |}, h').

Definition getValue (a : SpringAnimation) : number := currentValue a.
Definition getVelocity (a : SpringAnimation) : number := currentVelocity a.

Definition setConfig (partial : PartialSpringConfig) (a : SpringAnimation)
    : SpringAnimation :=
  let pick (o : option number) (d : number) :=
    match o with Some v => v | None => d end in
  {| currentValue := currentValue a;
     currentVelocity := currentVelocity a;
     targetValue := targetValue a;
     config :=
       {| stiffness := pick (p_stiffness partial) (stiffness (config a));
          damping := pick (p_damping partial) (damping (config a));
          mass := pick (p_mass partial) (mass (config a));
          precision := pick (p_precision partial) (precision (config a)) |};
     rafId := rafId a;
     lastTime := lastTime a;
     isAnimating := isAnimating a |}.

(** One display frame at time [currentTime]: the host runs the callback of
    every request that was pending when the frame began; each of them is
    [tick] of this instance. *)
Definition frame (currentTime : number) (w : World) : World :=
  let (a, h) := w in
  fold_left (fun w' _ => tick currentTime w') (pending h)
    (a, {| nextHandle := nextHandle h; pending := []; calls := calls h |}).

(** The world after the frames number 1 to [n], frame [k] at time [clock k]. *)
Fixpoint run (clock : nat -> number) (n : nat) (w : World) : World :=
  match n with
  | O => w
  | S k => frame (clock n) (run clock k w)
  end.

(** The host before anything was requested. *)
Definition idle : Host := {| nextHandle := 1; pending := []; calls := [] |}.

(** A new animation on which [setTarget(target)] was called at time [now]. *)
Definition launched (initialValue : number) (config : SpringConfig)
    (now target : number) : World :=
  setTarget now target None (new initialValue config, idle).

Definition completions (l : list Callback) : nat :=
  List.length (filter (fun c => match c with OnComplete => true | _ => false end) l).

(** A clock with a frame every [period] milliseconds. *)
Definition every (period : Z) (k : nat) : number := of_Z (period * Z.of_nat k).

(** The world after the [m] frames that follow frame number [n]. *)
Fixpoint run_from (clock : nat -> number) (n m : nat) (w : World) : World :=
  match m with
  | O => w
  | S m' => run_from clock (S n) m' (frame (clock (S n)) w)
  end.

(** The test of a tick at [currentTime]: the integrated value and velocity
    are both within [precision]. *)
Definition settles (a : SpringAnimation) (currentTime : number) : bool :=
  ltb (abs (sub (integratedValue a currentTime) (targetValue a)))
      (precision (config a))
  && ltb (abs (integratedVelocity a currentTime)) (precision (config a)).

(** The shape of the world between two frames once [setTarget(v)] was
    called on a new animation: while the loop runs one request is pending
    and [onComplete] was not called; once it has stopped the value is [v],
    the velocity 0, nothing is pending and [onComplete] was called once. *)
Definition on_course (v : number) (w : World) : Prop :=
  targetValue (fst w) = v /\
  if isAnimating (fst w)
  then completions (calls (snd w)) = 0%nat /\ exists k, pending (snd w) = [k]
  else currentValue (fst w) = v /\ currentVelocity (fst w) = zero /\
       completions (calls (snd w)) = 1%nat /\ pending (snd w) = [].

(** A running loop whose value has become [NaN]. *)
Definition diverged (w : World) : bool :=
  is_nan (currentValue (fst w)) && isAnimating (fst w)
  && match pending (snd w) with [_] => true | _ => false end.

(** [check_diverges fuel clock n w] looks at the [fuel] frames that follow
    frame number [n] and answers [true] when the loop is running before
    each of them and has diverged after them. *)
Fixpoint check_diverges (fuel : nat) (clock : nat -> number) (n : nat)
    (w : World) : bool :=
  match fuel with
  | O => diverged w
  | S fuel' =>
      isAnimating (fst w)
      && check_diverges fuel' clock (S n) (frame (clock (S n)) w)
  end.

End Spring.

(** ** PointerTracker (gestures/pointer-tracker.ts) *)

Module Pointer.
Import Num.

Record PointerEvent : Set := {
  clientX : number;
  clientY : number;
  timeStamp : number;
  pointerId : number
}.

(** ['up' | 'down' | 'left' | 'right']; the state holds [null] as [None]. *)
Inductive Direction : Set := Up | Down | Left | Right.

Record GestureState : Set := {
  isDragging : bool;
  startX : number;
  startY : number;
  currentX : number;
  currentY : number;
  deltaX : number;
  deltaY : number;
  velocityX : number;
  velocityY : number;
  direction : option Direction;
  timestamp : number
}.

(** An entry of the history. *)
Record Sample : Set := {
  x : number;
  y : number;
  time : number
}.

Record PointerTracker : Set := {
  state : GestureState;
  history : list Sample
}.

Definition maxHistoryLength : nat := 5.

Definition getInitialState : GestureState :=
  {| isDragging := false;
     startX := zero; startY := zero;
     currentX := zero; currentY := zero;
     deltaX := zero; deltaY := zero;
     velocityX := zero; velocityY := zero;
     direction := None;
     timestamp := zero |}.

Definition new : PointerTracker :=
  {| state := getInitialState; history := [] |}.

Definition start (event : PointerEvent) (_ : PointerTracker)
    : PointerTracker * GestureState :=
  let st :=
    {| isDragging := true;
       startX := clientX event; startY := clientY event;
       currentX := clientX event; currentY := clientY event;
       deltaX := deltaX getInitialState; deltaY := deltaY getInitialState;
       velocityX := velocityX getInitialState;
       velocityY := velocityY getInitialState;
       direction := direction getInitialState;
       timestamp := timeStamp event |} in
  ({| state := st;
      history := [ {| x := clientX event; y := clientY event;
                      time := timeStamp event |} ] |}, st).

Definition calculateVelocity (history : list Sample) : number * number :=
  if (List.length history <? 2)%nat then (zero, zero)
  else
    match nth_error history (List.length history - 1), nth_error history 0 with
    | Some latest, Some oldest =>
        let timeDelta := sub (time latest) (time oldest) in
        if strict_eq timeDelta zero then (zero, zero)
        else (div (sub (x latest) (x oldest)) timeDelta,
              div (sub (y latest) (y oldest)) timeDelta)
    | _, _ => (zero, zero)
    end.

Definition getDirection (deltaX deltaY : number) : option Direction :=
  let threshold := of_Z 5 in
  if ltb (abs deltaX) threshold && ltb (abs deltaY) threshold then None
  else if gtb (abs deltaX) (abs deltaY) then
    (if gtb deltaX zero then Some Right else Some Left)
  else (if gtb deltaY zero then Some Down else Some Up).

Definition move (event : PointerEvent) (t : PointerTracker)
    : PointerTracker * GestureState :=
  if negb (isDragging (state t)) then (t, state t)
  else
    let deltaX := sub (clientX event) (startX (state t)) in
    let deltaY := sub (clientY event) (startY (state t)) in
    let pushed :=
      history t ++ [ {| x := clientX event; y := clientY event;
                        time := timeStamp event |} ] in
    let history' :=
      if (maxHistoryLength <? List.length pushed)%nat then tl pushed else pushed in
    let (velocityX, velocityY) := calculateVelocity history' in
    let direction := getDirection deltaX deltaY in
    let st :=
      {| isDragging := isDragging (state t);
         startX := startX (state t); startY := startY (state t);
         currentX := clientX event; currentY := clientY event;
         deltaX := deltaX; deltaY := deltaY;
         velocityX := velocityX; velocityY := velocityY;
         direction := direction;
         timestamp := timeStamp event |} in
    ({| state := st; history := history' |}, st).

(** [end(event)]. *)
Definition finish (event : PointerEvent) (t : PointerTracker)
    : PointerTracker * GestureState :=
  let (t', finalState) := move event t in
  let st :=
    {| isDragging := false;
       startX := startX finalState; startY := startY finalState;
       currentX := currentX finalState; currentY := currentY finalState;
       deltaX := deltaX finalState; deltaY := deltaY finalState;
       velocityX := velocityX finalState; velocityY := velocityY finalState;
       direction := direction finalState;
       timestamp := timestamp finalState |} in
  ({| state := st; history := history t' |}, st).

Definition reset (_ : PointerTracker) : PointerTracker :=
  {| state := getInitialState; history := [] |}.

Definition getState (t : PointerTracker) : GestureState := state t.

(** The trackers a program can hold: a new one, and the result of any of the
    four mutating methods on one. *)
Inductive reachable : PointerTracker -> Prop :=
| reach_new : reachable new
| reach_start : forall e t, reachable t -> reachable (fst (start e t))
| reach_move : forall e t, reachable t -> reachable (fst (move e t))
| reach_finish : forall e t, reachable t -> reachable (fst (finish e t))
| reach_reset : forall t, reachable t -> reachable (reset t).

(** The velocity the specification gives for a history: 0 with fewer than
    two samples or a zero time span, the slope from the oldest to the newest
    sample otherwise. *)
Definition slope (history : list Sample) : number * number :=
  match history with
  | [] | [_] => (zero, zero)
  | oldest :: rest =>
      let newest := last rest oldest in
      let span := sub (time newest) (time oldest) in
      if strict_eq span zero then (zero, zero)
      else (div (sub (x newest) (x oldest)) span,
            div (sub (y newest) (y oldest)) span)
  end.

End Pointer.

(** ** The calculators of the test suite *)

Module Examples.
Import Num Snap.

Definition window : Window :=
  {| innerHeight := of_Z 800; innerWidth := of_Z 1200 |}.

(** [points: [0, 0.5, 1], containerSize: 400]. *)
Definition ratios_config : SnapConfig :=
  {| points := [PNumber (of_Z 0); PNumber (of_decimal false 5 (-1));
                PNumber (of_Z 1)];
     config_containerSize := of_Z 400;
     direction := vertical |}.

Definition ratios (w : Window) : SnapPointCalculator := Snap.new w ratios_config.

(** [points: ['25%', '75%'], containerSize: 400]. *)
Definition percents (w : Window) : SnapPointCalculator :=
  Snap.new w
    {| points := [PString "25%"; PString "75%"];
       config_containerSize := of_Z 400;
       direction := vertical |}.

(** [points: ['100px', '200px']] in a container of any size. *)
Definition pixels (w : Window) (containerSize : number) : SnapPointCalculator :=
  Snap.new w
    {| points := [PString "100px"; PString "200px"];
       config_containerSize := containerSize;
       direction := vertical |}.

(** A pointer event at [(x, y)] at time [t]. *)
Definition pointer (x y t : Z) : Pointer.PointerEvent :=
  {| Pointer.clientX := of_Z x; Pointer.clientY := of_Z y;
     Pointer.timeStamp := of_Z t; Pointer.pointerId := of_Z 1 |}.

(** A tracker whose drag began at [(100, 200)] at time 1000. *)
Definition dragging : Pointer.PointerTracker :=
  fst (Pointer.start (pointer 100 200 1000) Pointer.new).

End Examples.

(** ** PointerTracker: sequences of calls *)

Module Gesture.
Import Num Pointer.

(** The history entry [move] and [start] make of an event. *)
Definition sample_of (event : PointerEvent) : Sample :=
  {| x := clientX event; y := clientY event; time := timeStamp event |}.

(** [move] called with each of the events in turn. *)
Fixpoint moves (events : list PointerEvent) (t : PointerTracker)
    : PointerTracker :=
  match events with
  | [] => t
  | e :: rest => moves rest (fst (move e t))
  end.

(** The [n] newest entries of a list that grows at its end. *)
Definition newest {A : Type} (n : nat) (l : list A) : list A :=
  skipn (List.length l - n) l.

(** A call of [move] or of [end]. *)
Inductive Call : Set :=
| CallMove (event : PointerEvent)
| CallEnd (event : PointerEvent).

Definition perform (c : Call) (t : PointerTracker)
    : PointerTracker * GestureState :=
  match c with
  | CallMove e => move e t
  | CallEnd e => finish e t
  end.

(** The calls made in turn: the tracker they leave and the states they
    returned. *)
Fixpoint replay (calls : list Call) (t : PointerTracker)
    : PointerTracker * list GestureState :=
  match calls with
  | [] => (t, [])
  | c :: rest =>
      let (t', st) := perform c t in
      let (t'', sts) := replay rest t' in
      (t'', st :: sts)
  end.

(** A state with its [isDragging] replaced: [{ ...state, isDragging }]. *)
Definition with_isDragging (b : bool) (st : GestureState) : GestureState :=
  {| isDragging := b;
     startX := startX st; startY := startY st;
     currentX := currentX st; currentY := currentY st;
     deltaX := deltaX st; deltaY := deltaY st;
     velocityX := velocityX st; velocityY := velocityY st;
     direction := direction st;
     timestamp := timestamp st |}.

(** A drag from [(100, 200)] at time 1000 with seven moves to the right, one
    every 16 ms. *)
Definition long_drag : PointerTracker :=
  moves
    (map (fun k => Examples.pointer (100 + 10 * k) 200 (1000 + 16 * k))
         [1; 2; 3; 4; 5; 6; 7])
    Examples.dragging.

End Gesture.

(** ** SpringAnimation: the worlds a program can reach *)

Module SpringUse.
Import Num Spring.

(** A call of a public method of the instance made from inside one of its
    handlers. *)
Inductive Method : Set :=
| CallSetTarget (now target : number) (velocity : option number)
| CallStop
| CallSetConfig (partial : PartialSpringConfig).

Definition invoke (m : Method) (w : World) : World :=
  match m with
  | CallSetTarget now target velocity => setTarget now target velocity w
  | CallStop => stop w
  | CallSetConfig partial => (setConfig partial (fst w), snd w)
  end.

(** What the functions assigned to [onUpdate] and [onComplete] do to the
    instance: the public methods they call on it, in order, for each call
    and each world the call is made in. *)
Definition Handlers : Set := Callback -> World -> list Method.

(** Handlers that leave the instance alone. *)
Definition passive : Handlers := fun _ _ => [].

(** [this.onUpdate?.(...)] and [this.onComplete?.()]: the call, and the
    methods the handler calls while it runs. *)
Definition handler_call (handlers : Handlers) (c : Callback) (w : World)
    : World :=
  let w1 := (fst w, call c (snd w)) in
  fold_left (fun w' m => invoke m w') (handlers c w1) w1.

(** [tick(currentTime)] with the handlers run where the source calls them:
    [onComplete] after the fields are set and before the return, [onUpdate]
    before the next frame is requested. *)
Definition tick_with (handlers : Handlers) (currentTime : number) (w : World)
    : World :=
  let (a, h) := w in
  let velocity' := integratedVelocity a currentTime in
  let value' := integratedValue a currentTime in
  let isAtTarget :=
    ltb (abs (sub value' (targetValue a))) (precision (config a)) in
  let isStill := ltb (abs velocity') (precision (config a)) in
  if isAtTarget && isStill then
    handler_call handlers OnComplete
      ({| currentValue := targetValue a;
          currentVelocity := zero;
          targetValue := targetValue a;
          config := config a;
          rafId := rafId a;
          lastTime := currentTime;
          isAnimating := false |}, h)
  else
    let (a', h') :=
      handler_call handlers (OnUpdate value' velocity')
        ({| currentValue := value';
            currentVelocity := velocity';
            targetValue := targetValue a;
            config := config a;
            rafId := rafId a;
            lastTime := currentTime;
            isAnimating := isAnimating a |}, h) in
    let (handle, h'') := requestAnimationFrame h' in
    ({| currentValue := currentValue a';
        currentVelocity := currentVelocity a';
        targetValue := targetValue a';
        config := config a';
        rafId := Some handle;
        lastTime := lastTime a';
        isAnimating := isAnimating a' |},
     h'').

(** The host runs the callbacks of a frame: for each request that was
    pending when the frame began, in order, if it is still pending (a
    handler may have cancelled it meanwhile) it is taken off the list and
    its callback, [tick], runs.  Requests made meanwhile wait for the next
    frame. *)
Fixpoint run_callbacks (handlers : Handlers) (currentTime : number)
    (batch : list nat) (w : World) : World :=
  match batch with
  | [] => w
  | handle :: rest =>
      if existsb (Nat.eqb handle) (pending (snd w))
      then run_callbacks handlers currentTime rest
             (tick_with handlers currentTime
                (fst w, cancelAnimationFrame handle (snd w)))
      else run_callbacks handlers currentTime rest w
  end.

Definition frame_with (handlers : Handlers) (currentTime : number) (w : World)
    : World :=
  run_callbacks handlers currentTime (pending (snd w)) w.

(** The world after the [m] frames that follow frame number [n]. *)
Fixpoint run_from_with (handlers : Handlers) (clock : nat -> number)
    (n m : nat) (w : World) : World :=
  match m with
  | O => w
  | S m' =>
      run_from_with handlers clock (S n) m'
        (frame_with handlers (clock (S n)) w)
  end.

(** Handlers whose [onUpdate] never calls [stop()]. *)
Definition update_never_stops (handlers : Handlers) : Prop :=
  forall value velocity w,
    ~ In CallStop (handlers (OnUpdate value velocity) w).

(** Handlers whose [onUpdate] calls [stop()] and nothing else. *)
Definition stops_on_update (handlers : Handlers) : Prop :=
  forall value velocity w, handlers (OnUpdate value velocity) w = [CallStop].

(** The worlds a program can bring about with one animation: a new one with
    an idle host, and the result of any public method called between two
    frames, or of a display frame, on one; the handlers installed at a
    frame, which may call the public methods themselves, are any that are
    [allowed]. *)
Inductive reachable (allowed : Handlers -> Prop) : World -> Prop :=
| reach_new : forall initialValue config,
    reachable allowed (new initialValue config, idle)
| reach_setTarget : forall now target velocity w,
    reachable allowed w -> reachable allowed (setTarget now target velocity w)
| reach_stop : forall w, reachable allowed w -> reachable allowed (stop w)
| reach_setConfig : forall partial w,
    reachable allowed w -> reachable allowed (setConfig partial (fst w), snd w)
| reach_frame : forall handlers currentTime w,
    allowed handlers -> reachable allowed w ->
    reachable allowed (frame_with handlers currentTime w).

(** In the middle of a tick that goes on: running, its own request taken
    off the list and the next one not made yet. *)
Definition mid_tick (w : World) : Prop :=
  isAnimating (fst w) = true /\ pending (snd w) = [].

(** Handlers that change the target while the spring moves and start over
    when it arrives. *)
Definition restless : Handlers :=
  fun c _ =>
    match c with
    | OnUpdate _ _ => [CallSetTarget zero (of_Z 50) None]
    | OnComplete => [CallSetTarget zero (of_Z 100) None]
    end.

(** Handlers whose [onUpdate] calls [stop()]. *)
Definition stopping : Handlers :=
  fun c _ =>
    match c with
    | OnUpdate _ _ => [CallStop]
    | OnComplete => []
    end.

(** One tick in flight at most: a running animation has exactly one request
    pending, the one [rafId] names, and a stopped one has none. *)
Definition single_flight (w : World) : Prop :=
  if isAnimating (fst w)
  then exists k, pending (snd w) = [k] /\ rafId (fst w) = Some k
  else pending (snd w) = [].

Definition is_update (c : Callback) : bool :=
  match c with OnUpdate _ _ => true | OnComplete => false end.

(** The handler calls [n] frames after [setTarget] on a new animation: a
    running loop has called [onUpdate] once per frame and nothing else, the
    last time with the value and velocity it now holds; a stopped loop has
    called [onUpdate] at each frame before the one that completed and
    [onComplete] then, and nothing since. *)
Definition reported (n : nat) (w : World) : Prop :=
  if isAnimating (fst w)
  then List.length (calls (snd w)) = n /\
       forallb is_update (calls (snd w)) = true /\
       ((1 <= n)%nat ->
        last (calls (snd w)) OnComplete
        = OnUpdate (currentValue (fst w)) (currentVelocity (fst w)))
  else exists updates,
       calls (snd w) = updates ++ [OnComplete] /\
       forallb is_update updates = true /\
       (List.length updates < n)%nat.

End SpringUse.

(** ** SnapPointCalculator: descriptors and numbers of the source's kind *)

Module SnapUse.
Import Num Snap.

(** A number of the engine: the finite ones have a normalised mantissa and
    an exponent in range. *)
Definition is_double (a : number) : bool := valid_binary prec emax a.

(** A descriptor that is not an object: a bare number or a string. *)
Definition is_bare (point : SnapPoint) : bool :=
  match point with
  | PObject _ _ => false
  | _ => true
  end.

(** A number that is neither [NaN] nor an infinity. *)
Definition is_finite (a : number) : bool :=
  match a with
  | S754_zero _ | S754_finite _ _ _ => true
  | _ => false
  end.

End SnapUse.

(** ** DrawerContent (react/src/components/Content.tsx): the pointer handlers

    The three pointer handlers of the component drive the tracker and the
    spring.  What they do to the React state, to the pointer capture and to
    the style of the element is recorded, in order, as a list of effects. *)

Module Content.
Import Num.

(** The [direction] of the drawer. *)
Inductive Side : Set := SideTop | SideBottom | SideLeft | SideRight.

(** What the handlers read of [contentRef.current]. *)
Record Element : Set := {
  offsetHeight : number;
  offsetWidth : number
}.

Inductive PropName : Set := onPointerDown | onPointerMove | onPointerUp.

Inductive Effect : Set :=
| CallProp (prop : PropName) (event : Pointer.PointerEvent)
| SetIsDragging (isDragging : bool)
| SetGestureState (gesture : Pointer.GestureState)
| SetCurrentOffset (offset : number)
| SetPointerCapture (pointerId : number)
| ReleasePointerCapture (pointerId : number)
| SetTransform (isVertical : bool) (offset : number).

(** The handlers [handlePointerUp] stores in the animation: [close] of the
    context, and the closure that shows a value on the axis of the
    drawer. *)
Inductive CompleteHandler : Set := Close.
Inductive UpdateHandler : Set := ShowValue (isVertical : bool).

(** The props and the context values the handlers close over; the two
    thresholds are [None] when the props leave them out. *)
Record Props : Set := {
  direction : Side;
  dismissible : bool;
  closeThreshold : option number;
  velocityThreshold : option number
}.

Record Drawer : Set := {
  pointerTracker : Pointer.PointerTracker;
  springAnimation : Spring.World;
  onComplete : option CompleteHandler;
  onUpdate : option UpdateHandler;
  contentRef : option Element;
  effects : list Effect
}.

(** The component as it mounts: [useRef(new PointerTracker())] and
    [useRef(new SpringAnimation(0, SPRING_PRESETS[springConfig]))]. *)
Definition mount (springConfig : Spring.SpringConfig) (content : option Element)
    : Drawer :=
  {| pointerTracker := Pointer.new;
     springAnimation := (Spring.new zero springConfig, Spring.idle);
     onComplete := None;
     onUpdate := None;
     contentRef := content;
     effects := [] |}.

Definition isVertical (side : Side) : bool :=
  match side with
  | SideTop | SideBottom => true
  | SideLeft | SideRight => false
  end.

Definition handlePointerDown (props : Props) (event : Pointer.PointerEvent)
    (d : Drawer) : Drawer :=
  let log := effects d ++ [CallProp onPointerDown event] in
  if negb (dismissible props) then
    {| pointerTracker := pointerTracker d;
       springAnimation := springAnimation d;
       onComplete := onComplete d;
       onUpdate := onUpdate d;
       contentRef := contentRef d;
       effects := log |}
  else
    let (tracker, gesture) := Pointer.start event (pointerTracker d) in
    {| pointerTracker := tracker;
       springAnimation := springAnimation d;
       onComplete := onComplete d;
       onUpdate := onUpdate d;
       contentRef := contentRef d;
       effects :=
         log ++ [SetIsDragging true; SetGestureState gesture;
                 SetPointerCapture (Pointer.pointerId event)] |}.

(** The delta of a gesture on the axis of the drawer. *)
Definition axisDelta (side : Side) (gesture : Pointer.GestureState) : number :=
  if isVertical side then Pointer.deltaY gesture else Pointer.deltaX gesture.

Definition axisVelocity (side : Side) (gesture : Pointer.GestureState)
    : number :=
  if isVertical side then Pointer.velocityY gesture
  else Pointer.velocityX gesture.

Definition shouldDampen (side : Side) (delta : number) : bool :=
  match side with
  | SideBottom => ltb delta zero
  | SideTop => gtb delta zero
  | SideRight => ltb delta zero
  | SideLeft => gtb delta zero
  end.

Definition dampenedDelta (side : Side) (delta : number) : number :=
  if shouldDampen side delta then mul delta (of_decimal false 3 (-1))
  else delta.

Definition handlePointerMove (props : Props) (event : Pointer.PointerEvent)
    (d : Drawer) : Drawer :=
  let log := effects d ++ [CallProp onPointerMove event] in
  let gesture := Pointer.getState (pointerTracker d) in
  if negb (Pointer.isDragging gesture) then
    {| pointerTracker := pointerTracker d;
       springAnimation := springAnimation d;
       onComplete := onComplete d;
       onUpdate := onUpdate d;
       contentRef := contentRef d;
       effects := log |}
  else
    let (tracker, updated) := Pointer.move event (pointerTracker d) in
    let delta := axisDelta (direction props) updated in
    let dampened := dampenedDelta (direction props) delta in
    {| pointerTracker := tracker;
       springAnimation := springAnimation d;
       onComplete := onComplete d;
       onUpdate := onUpdate d;
       contentRef := contentRef d;
       effects :=
         log ++ [SetGestureState updated; SetCurrentOffset dampened]
             ++ match contentRef d with
                | Some _ =>
                    [SetTransform (isVertical (direction props)) dampened]
                | None => []
                end |}.

(** [contentRef.current?.offsetHeight ?? 0], or the width. *)
Definition containerSize (side : Side) (content : option Element) : number :=
  match content with
  | Some element =>
      if isVertical side then offsetHeight element else offsetWidth element
  | None => zero
  end.

(** The thresholds as the component destructures them from its props:
    [closeThreshold = 0.3] and [velocityThreshold = 0.5]. *)
Definition closeThresholdOf (props : Props) : number :=
  match closeThreshold props with
  | Some t => t
  | None => of_decimal false 3 (-1)
  end.

Definition velocityThresholdOf (props : Props) : number :=
  match velocityThreshold props with
  | Some t => t
  | None => of_decimal false 5 (-1)
  end.

(** The test [shouldClose] of [handlePointerUp]. *)
Definition shouldClose (props : Props) (content : option Element)
    (gesture : Pointer.GestureState) : bool :=
  let closeThreshold := closeThresholdOf props in
  let velocityThreshold := velocityThresholdOf props in
  let delta := axisDelta (direction props) gesture in
  let velocity := axisVelocity (direction props) gesture in
  let dragPercentage :=
    div (abs delta) (containerSize (direction props) content) in
  let hasSignificantVelocity := gtb (abs velocity) velocityThreshold in
  let hasSignificantDrag := gtb dragPercentage closeThreshold in
  dismissible props && (hasSignificantVelocity || hasSignificantDrag).

(** The offset of the closed position. *)
Definition targetOffset (side : Side) (content : option Element) : number :=
  mul (containerSize side content)
      (match side with
       | SideTop | SideLeft => of_Z (-1)
       | _ => of_Z 1
       end).

(** [handlePointerUp]; [now] is the reading of [performance.now()] that
    [setTarget] takes when it starts the loop. *)
Definition handlePointerUp (props : Props) (now : number)
    (event : Pointer.PointerEvent) (d : Drawer) : Drawer :=
  let (tracker, gesture) := Pointer.finish event (pointerTracker d) in
  let log :=
    effects d ++ [CallProp onPointerUp event; SetIsDragging false;
                  SetGestureState gesture;
                  ReleasePointerCapture (Pointer.pointerId event)] in
  let velocity := axisVelocity (direction props) gesture in
  if shouldClose props (contentRef d) gesture then
    {| pointerTracker := tracker;
       springAnimation :=
         Spring.setTarget now (targetOffset (direction props) (contentRef d))
           (Some velocity) (springAnimation d);
       onComplete := Some Close;
       onUpdate := Some (ShowValue (isVertical (direction props)));
       contentRef := contentRef d;
       effects := log |}
  else
    {| pointerTracker := tracker;
       springAnimation :=
         Spring.setTarget now zero (Some velocity) (springAnimation d);
       onComplete := onComplete d;
       onUpdate := Some (ShowValue (isVertical (direction props)));
       contentRef := contentRef d;
       effects := log |}.

(** A pointer event reaching the component. *)
Inductive Input : Set :=
| PointerDown (event : Pointer.PointerEvent)
| PointerMove (event : Pointer.PointerEvent)
| PointerUp (now : number) (event : Pointer.PointerEvent).

Definition handle (props : Props) (input : Input) (d : Drawer) : Drawer :=
  match input with
  | PointerDown e => handlePointerDown props e d
  | PointerMove e => handlePointerMove props e d
  | PointerUp now e => handlePointerUp props now e d
  end.

Fixpoint handle_all (props : Props) (inputs : list Input) (d : Drawer)
    : Drawer :=
  match inputs with
  | [] => d
  | i :: rest => handle_all props rest (handle props i d)
  end.

(** A display frame: the spring runs it. *)
Definition frame (currentTime : number) (d : Drawer) : Drawer :=
  {| pointerTracker := pointerTracker d;
     springAnimation := Spring.frame currentTime (springAnimation d);
     onComplete := onComplete d;
     onUpdate := onUpdate d;
     contentRef := contentRef d;
     effects := effects d |}.

(** The effects that show an offset: what a drag puts on the screen. *)
Definition shows_offset (e : Effect) : bool :=
  match e with
  | SetCurrentOffset _ | SetTransform _ _ => true
  | _ => false
  end.

Definition is_zero (a : number) : bool :=
  match a with S754_zero _ => true | _ => false end.

End Content.

(** Drawers the statements below are evaluated on. *)

Module Sheets.
Import Num Content.

(** A content element 400 high and 300 wide. *)
Definition sheet : Element :=
  {| offsetHeight := of_Z 400; offsetWidth := of_Z 300 |}.

(** A drawer at the bottom with the thresholds left to their defaults. *)
Definition bottom_sheet (dismissible : bool) : Props :=
  {| direction := SideBottom; dismissible := dismissible;
     closeThreshold := None; velocityThreshold := None |}.

(** The component mounted with the gentle preset, and the pointer put down
    on it at [(100, 200)] at time 1000. *)
Definition pressed (content : option Element) : Drawer :=
  handlePointerDown (bottom_sheet true) (Examples.pointer 100 200 1000)
    (mount Spring.gentle content).

(** A drag of 200 down, half the height of the sheet. *)
Definition dragged_half : Drawer :=
  handlePointerMove (bottom_sheet true) (Examples.pointer 100 400 1100)
    (pressed (Some sheet)).

(** A drag of 50 down, after which the pointer is held still. *)
Definition dragged_and_held : Drawer :=
  handle_all (bottom_sheet true)
    (map (fun t => PointerMove (Examples.pointer 100 250 t))
         [1100; 1116; 1132; 1148; 1164])
    (pressed (Some sheet)).

End Sheets.

(* ================================================================== *)
(** * Part II: properties *)
(* ================================================================== *)

(** ** Order of numbers *)

Module NumOrder.
Import Num.

(** [SFcompare] is the lexicographic order of [order_key]. *)
Lemma compare_key (a b : number) :
  SFcompare a b =
  if is_nan a || is_nan b then None
  else Some (key_compare (order_key a) (order_key b)).
Proof.
  destruct a as [sa | sa | | sa ma ea], b as [sb | sb | | sb mb eb];
    try reflexivity;
    try (destruct sa; reflexivity);
    try (destruct sb; reflexivity);
    try (destruct sa, sb; reflexivity).
  destruct sa, sb; try reflexivity;
    unfold SFcompare, order_key, key_compare;
    change (Pos.compare_cont Eq ma mb) with (Pos.compare ma mb).
  change (-1 ?= -1) with Eq. rewrite Z.compare_opp.
  rewrite (Z.compare_antisym ea eb).
  destruct (ea ?= eb); reflexivity.
Qed.

Lemma key_compare_lt_trans (k1 k2 k3 : Z * Z * Z) :
  key_compare k1 k2 = Lt -> key_compare k2 k3 = Lt -> key_compare k1 k3 = Lt.
Proof.
  destruct k1 as [[a1 b1] c1], k2 as [[a2 b2] c2], k3 as [[a3 b3] c3].
  unfold key_compare.
  destruct (Z.compare_spec a1 a2), (Z.compare_spec a2 a3),
    (Z.compare_spec a1 a3); try lia; try discriminate; try reflexivity;
  destruct (Z.compare_spec b1 b2), (Z.compare_spec b2 b3),
    (Z.compare_spec b1 b3); try lia; try discriminate; try reflexivity;
  destruct (Z.compare_spec c1 c2), (Z.compare_spec c2 c3),
    (Z.compare_spec c1 c3); try lia; try discriminate; reflexivity.
Qed.

Lemma key_compare_eq (k1 k2 : Z * Z * Z) :
  key_compare k1 k2 = Eq -> k1 = k2.
Proof.
  destruct k1 as [[a1 b1] c1], k2 as [[a2 b2] c2].
  unfold key_compare.
  destruct (Z.compare_spec a1 a2); try discriminate.
  destruct (Z.compare_spec b1 b2); try discriminate.
  destruct (Z.compare_spec c1 c2); try discriminate.
  intros _. congruence.
Qed.

Lemma key_compare_refl (k : Z * Z * Z) : key_compare k k = Eq.
Proof.
  destruct k as [[a b] c]. unfold key_compare.
  now rewrite !Z.compare_refl.
Qed.

Lemma key_compare_antisym (k1 k2 : Z * Z * Z) :
  key_compare k2 k1 = CompOpp (key_compare k1 k2).
Proof.
  destruct k1 as [[a1 b1] c1], k2 as [[a2 b2] c2].
  unfold key_compare.
  rewrite (Z.compare_antisym a1 a2), (Z.compare_antisym b1 b2),
    (Z.compare_antisym c1 c2).
  destruct (a1 ?= a2), (b1 ?= b2), (c1 ?= c2); reflexivity.
Qed.

Lemma ltb_irrefl (a : number) : ltb a a = false.
Proof.
  unfold ltb, SFltb. rewrite compare_key.
  destruct (is_nan a); simpl; [reflexivity|].
  now rewrite key_compare_refl.
Qed.

Lemma ltb_trans (a b c : number) :
  ltb a b = true -> ltb b c = true -> ltb a c = true.
Proof.
  unfold ltb, SFltb. rewrite !compare_key.
  destruct (is_nan a), (is_nan b), (is_nan c); simpl; try discriminate.
  destruct (key_compare (order_key a) (order_key b)) eqn:H1; try discriminate.
  destruct (key_compare (order_key b) (order_key c)) eqn:H2; try discriminate.
  now rewrite (key_compare_lt_trans _ _ _ H1 H2).
Qed.

Lemma leb_ltb_trans (a b c : number) :
  leb a b = true -> ltb b c = true -> ltb a c = true.
Proof.
  unfold leb, ltb, SFleb, SFltb. rewrite !compare_key.
  destruct (is_nan a), (is_nan b), (is_nan c); simpl; try discriminate.
  destruct (key_compare (order_key a) (order_key b)) eqn:H1; try discriminate;
  destruct (key_compare (order_key b) (order_key c)) eqn:H2; try discriminate;
  intros _ _.
  - apply key_compare_eq in H1. now rewrite H1, H2.
  - now rewrite (key_compare_lt_trans _ _ _ H1 H2).
Qed.

(** On numbers that are not [NaN] the order is total. *)
Lemma not_ltb_leb (a b : number) :
  is_nan a = false -> is_nan b = false -> ltb b a = false -> leb a b = true.
Proof.
  unfold leb, ltb, SFleb, SFltb. rewrite !compare_key.
  intros -> ->; simpl.
  rewrite (key_compare_antisym (order_key a) (order_key b)).
  destruct (key_compare (order_key a) (order_key b)); simpl; congruence.
Qed.

Lemma not_leb_ltb (a b : number) :
  is_nan a = false -> is_nan b = false -> leb b a = false -> ltb a b = true.
Proof.
  unfold leb, ltb, SFleb, SFltb. rewrite !compare_key.
  intros -> ->; simpl.
  rewrite (key_compare_antisym (order_key a) (order_key b)).
  destruct (key_compare (order_key a) (order_key b)); simpl; congruence.
Qed.

(** Nothing is above [Infinity]: a number not below it is it, or [NaN]. *)
Lemma not_below_infinity (a : number) :
  ltb a POSITIVE_INFINITY = false -> a = NaN \/ a = POSITIVE_INFINITY.
Proof.
  destruct a as [s | s | | s m e]; try destruct s; simpl; auto; discriminate.
Qed.

End NumOrder.

(** ** SnapPointCalculator: the nearest point *)

Module NearestFacts.
Import Num NumOrder Snap.

Lemma scanned_start (q : number) : scanned q [] (POSITIVE_INFINITY, 0%nat).
Proof.
  split; [|now left].
  intros [|j] pj H; discriminate H.
Qed.

Lemma nth_error_snoc {A : Type} (l : list A) (a : A) (j : nat) (b : A) :
  nth_error (l ++ [a]) j = Some b ->
  nth_error l j = Some b \/ (j = List.length l /\ b = a).
Proof.
  intros H. destruct (Nat.lt_ge_cases j (List.length l)) as [Hlt | Hge].
  - left. now rewrite nth_error_app1 in H.
  - right. rewrite nth_error_app2 in H by exact Hge.
    destruct (j - List.length l)%nat as [|k] eqn:E; simpl in H.
    + split; [lia | congruence].
    + destruct k; discriminate H.
Qed.

Lemma scanned_step (q : number) (seen : list SnapPointResolved)
    (best : number * nat) (p : SnapPointResolved) :
  scanned q seen best ->
  scanned q (seen ++ [p]) (nearest_step q best p (List.length seen)).
Proof.
  intros [Hmin Hsel]. unfold nearest_step.
  fold (distance_to q p).
  destruct (ltb (distance_to q p) (fst best)) eqn:Hlt.
  - (* the new point is strictly nearer: it is selected *)
    split; simpl.
    + intros j pj Hj.
      destruct (nth_error_snoc _ _ _ _ Hj) as [Hin | [_ ->]].
      * destruct (ltb (distance_to q pj) (distance_to q p)) eqn:E; [|reflexivity].
        rewrite <- (Hmin j pj Hin). symmetry.
        exact (ltb_trans _ _ _ E Hlt).
      * apply ltb_irrefl.
    + right. exists p. repeat split.
      * rewrite nth_error_app2 by lia. now rewrite Nat.sub_diag.
      * intros j pj Hj Hnth.
        rewrite nth_error_app1 in Hnth by exact Hj.
        destruct (leb (distance_to q pj) (distance_to q p)) eqn:E; [|reflexivity].
        rewrite <- (Hmin j pj Hnth). symmetry.
        exact (leb_ltb_trans _ _ _ E Hlt).
  - (* otherwise the selection stays *)
    split.
    + intros j pj Hj.
      destruct (nth_error_snoc _ _ _ _ Hj) as [Hin | [_ ->]].
      * exact (Hmin j pj Hin).
      * exact Hlt.
    + destruct Hsel as [-> | [p0 [Hp0 [Hd Hfirst]]]]; [now left|].
      right. exists p0. repeat split.
      * rewrite nth_error_app1; [exact Hp0|].
        apply nth_error_Some. congruence.
      * exact Hd.
      * intros j pj Hj Hnth.
        assert (Hb : (snd best < List.length seen)%nat)
          by (apply nth_error_Some; congruence).
        rewrite nth_error_app1 in Hnth by lia.
        exact (Hfirst j pj Hj Hnth).
Qed.

Lemma scanned_forEach (q : number) (rest seen : list SnapPointResolved)
    (best : number * nat) :
  scanned q seen best ->
  scanned q (seen ++ rest)
    (forEach_from (nearest_step q) (List.length seen) rest best).
Proof.
  revert seen best.
  induction rest as [|p rest IH]; intros seen best H; simpl.
  - now rewrite app_nil_r.
  - replace (seen ++ p :: rest) with ((seen ++ [p]) ++ rest)
      by (now rewrite <- app_assoc).
    replace (S (List.length seen)) with (List.length (seen ++ [p]))
      by (rewrite length_app; simpl; lia).
    apply IH. now apply scanned_step.
Qed.

Lemma scanned_all (q : number) (pts : list SnapPointResolved) :
  scanned q pts
    (forEach_from (nearest_step q) 0%nat pts (POSITIVE_INFINITY, 0%nat)).
Proof.
  exact (scanned_forEach q pts [] _ (scanned_start q)).
Qed.

Lemma ltb_nan_r (a : number) : ltb a NaN = false.
Proof. destruct a as [s | s | | s m e]; reflexivity. Qed.

(** The point the scan selects in a list that is not empty. *)
Lemma scanned_selects (q : number) (pts : list SnapPointResolved)
    (best : number * nat) :
  pts <> [] -> scanned q pts best ->
  exists p,
    nth_error pts (snd best) = Some p /\
    (forall j pj, nth_error pts j = Some pj ->
       ltb (distance_to q pj) (distance_to q p) = false) /\
    (forall j pj, (j < snd best)%nat -> nth_error pts j = Some pj ->
       leb (distance_to q pj) (distance_to q p) = false).
Proof.
  intros Hne [Hmin [-> | [p [Hp [Hd Hfirst]]]]].
  - destruct pts as [|p0 pts]; [congruence|].
    exists p0. simpl. repeat split.
    + intros j pj Hj.
      destruct (not_below_infinity _ (Hmin 0%nat p0 eq_refl)) as [E | E];
        rewrite E.
      * apply ltb_nan_r.
      * exact (Hmin j pj Hj).
    + intros j pj Hj. lia.
  - exists p. rewrite <- Hd. repeat split; auto.
    intros j pj Hj Hnth. rewrite Hd. eauto.
Qed.

End NearestFacts.

Module NearestClaim.
Import Num NumOrder Snap NearestFacts.

(** C3.  On a list of resolved points that is not empty,
    [findNearestSnapPoint(offset)] returns the index, offset and id of a
    point at minimal distance [|point.offset - offset|]: no point is
    strictly nearer, and no point of lower index is as near (so among the
    points at the minimal distance the lowest index is returned); when no
    distance is [NaN] this reads: the distance of the returned point is
    [<=] every distance and [<] the distance of every point before it.  On
    the empty list the result is [{index: 0, offset: 0, id: 'snap-0'}].
    Over the offsets [0, 200, 400], [findNearestSnapPoint(180)] returns
    index 1. *)
Theorem findNearestSnapPoint_nearest (c : SnapPointCalculator) (q : number) :
  (resolvedPoints c <> [] ->
   exists i p,
     nth_error (resolvedPoints c) i = Some p /\
     findNearestSnapPoint c q =
       {| q_index := of_nat i; q_offset := offset p; q_id := id p |} /\
     (forall j pj, nth_error (resolvedPoints c) j = Some pj ->
        ltb (distance_to q pj) (distance_to q p) = false) /\
     (forall j pj, (j < i)%nat -> nth_error (resolvedPoints c) j = Some pj ->
        leb (distance_to q pj) (distance_to q p) = false) /\
     ((forall j pj, nth_error (resolvedPoints c) j = Some pj ->
         is_nan (distance_to q pj) = false) ->
      (forall j pj, nth_error (resolvedPoints c) j = Some pj ->
         leb (distance_to q p) (distance_to q pj) = true) /\
      (forall j pj, (j < i)%nat -> nth_error (resolvedPoints c) j = Some pj ->
         ltb (distance_to q p) (distance_to q pj) = true))) /\
  (resolvedPoints c = [] ->
   findNearestSnapPoint c q =
     {| q_index := of_Z 0; q_offset := of_Z 0; q_id := "snap-0" |}) /\
  (forall w,
     map offset (resolvedPoints (Examples.ratios w))
       = [of_Z 0; of_Z 200; of_Z 400] /\
     q_index (findNearestSnapPoint (Examples.ratios w) (of_Z 180)) = of_Z 1).
Proof.
  split; [|split].
  - intros Hne.
    pose proof (scanned_all q (resolvedPoints c)) as Hs.
    unfold findNearestSnapPoint.
    destruct (forEach_from (nearest_step q) 0%nat (resolvedPoints c)
                (POSITIVE_INFINITY, 0%nat)) as [m i].
    destruct (scanned_selects q _ _ Hne Hs) as [p [Hp [Hmin Hfirst]]].
    simpl in Hp, Hfirst.
    exists i, p. rewrite Hp.
    repeat split; auto.
    + intros j pj Hj. apply not_ltb_leb; eauto.
    + intros j pj Hlt Hj. apply not_leb_ltb; eauto.
  - intros He. unfold findNearestSnapPoint. rewrite He. reflexivity.
  - intros w. split; reflexivity.
Qed.

Lemma findNearestSnapPoint_nearest_witness :
  resolvedPoints (Examples.ratios Examples.window) <> [] /\
  exists i p,
    nth_error (resolvedPoints (Examples.ratios Examples.window)) i = Some p /\
    findNearestSnapPoint (Examples.ratios Examples.window) (of_Z 180) =
      {| q_index := of_nat i; q_offset := offset p; q_id := id p |}.
Proof.
  assert (H : resolvedPoints (Examples.ratios Examples.window) <> [])
    by (simpl; discriminate).
  split; [exact H|].
  destruct (proj1 (findNearestSnapPoint_nearest
                     (Examples.ratios Examples.window) (of_Z 180)) H)
    as [i [p [Hp [Hr _]]]].
  exists i, p. split; assumption.
Defined.

End NearestClaim.

(** ** SpringAnimation: one tick, and [stop] *)

Module SpringStep.
Import Num Spring.

(** C9.  [stop()] leaves the value and the velocity as they are: in every
    state [getValue()] and [getVelocity()] answer the same before and after
    it.  All it does is cancel the pending request of the instance (the one
    [rafId] names) and clear [rafId] and the running flag; target, config,
    last tick time and the handler calls made so far are untouched. *)
Theorem stop_keeps_value_and_velocity (w : World) :
  getValue (fst (stop w)) = getValue (fst w) /\
  getVelocity (fst (stop w)) = getVelocity (fst w) /\
  targetValue (fst (stop w)) = targetValue (fst w) /\
  config (fst (stop w)) = config (fst w) /\
  lastTime (fst (stop w)) = lastTime (fst w) /\
  calls (snd (stop w)) = calls (snd w) /\
  isAnimating (fst (stop w)) = false /\
  rafId (fst (stop w)) = None /\
  (forall k, In k (pending (snd (stop w))) <->
             In k (pending (snd w)) /\ rafId (fst w) <> Some k).
Proof.
  destruct w as [a h]. unfold stop, getValue, getVelocity. cbn [fst snd].
  destruct (rafId a) as [handle|] eqn:E; simpl;
    do 8 (split; [reflexivity|]); intros k.
  - rewrite filter_In. split.
    + intros [Hin Hk]. split; [exact Hin|].
      intros Heq. injection Heq as ->. now rewrite Nat.eqb_refl in Hk.
    + intros [Hin Hk]. split; [exact Hin|].
      destruct (Nat.eqb_spec k handle) as [->|]; [congruence | reflexivity].
  - split; [intros Hin; split; [exact Hin | discriminate] | tauto].
Qed.

(** C4, as the code has it.  A tick integrates with the step
    [dt = min(currentTime - lastTime, 64) / 1000], the spring force
    [-stiffness * (value - target)], the damping force
    [-damping * velocity], the acceleration
    [(springForce + dampingForce) / mass], the velocity
    [velocity + acceleration * dt] and the value [value + velocity' * dt].
    When these two are not both within [precision] of the target and of 0,
    the tick stores them, calls [onUpdate] with them and requests the next
    frame; when they are, it stores the target and 0 instead, calls
    [onComplete] and neither calls [onUpdate] nor requests a frame. *)
Theorem tick_integrates (currentTime : number) (w : World) :
  let a := fst w in
  let h := snd w in
  let dt := div (min (sub currentTime (lastTime a)) (of_Z 64)) (of_Z 1000) in
  let springForce :=
    mul (neg (stiffness (config a))) (sub (currentValue a) (targetValue a)) in
  let dampingForce := mul (neg (damping (config a))) (currentVelocity a) in
  let acc := div (add springForce dampingForce) (mass (config a)) in
  let velocity' := add (currentVelocity a) (mul acc dt) in
  let value' := add (currentValue a) (mul velocity' dt) in
  let settled :=
    ltb (abs (sub value' (targetValue a))) (precision (config a))
    && ltb (abs velocity') (precision (config a)) in
  (settled = false ->
   currentVelocity (fst (tick currentTime w)) = velocity' /\
   currentValue (fst (tick currentTime w)) = value' /\
   lastTime (fst (tick currentTime w)) = currentTime /\
   calls (snd (tick currentTime w)) = calls h ++ [OnUpdate value' velocity'] /\
   pending (snd (tick currentTime w)) = pending h ++ [nextHandle h]) /\
  (settled = true ->
   currentVelocity (fst (tick currentTime w)) = zero /\
   currentValue (fst (tick currentTime w)) = targetValue a /\
   lastTime (fst (tick currentTime w)) = currentTime /\
   calls (snd (tick currentTime w)) = calls h ++ [OnComplete] /\
   pending (snd (tick currentTime w)) = pending h /\
   isAnimating (fst (tick currentTime w)) = false).
Proof.
  destruct w as [a h]. cbv zeta. simpl fst. simpl snd.
  unfold tick, integratedValue, integratedVelocity, acceleration, deltaTime.
  split; intros ->; simpl; repeat split; reflexivity.
Qed.

Lemma tick_integrates_witness :
  let w := launched zero gentle zero (of_Z 100) in
  calls (snd (tick (of_Z 16) w)) =
    [OnUpdate (of_decimal false 3072 (-3)) (of_Z 192)] /\
  pending (snd (tick (of_Z 16) w)) = [1%nat; 2%nat].
Proof.
  destruct (proj1 (tick_integrates (of_Z 16)
                     (launched zero gentle zero (of_Z 100))) eq_refl)
    as [_ [_ [_ [Hc Hp]]]].
  split; [exact Hc | exact Hp].
Defined.

(** C4 as stated fails on the tick that completes.  With the gentle preset,
    from the value 0.001 at rest with target 0, the tick at 16 ms integrates
    to the velocity -0.00192 and a value near 0.00097; both are within the
    precision 0.01, so it stores 0 and 0 instead, and the only handler it
    calls is [onComplete]. *)
Lemma tick_calls_onUpdate_counterexample :
  let w := launched (of_decimal false 1 (-3)) gentle zero zero in
  let w' := tick (of_Z 16) w in
  integratedVelocity (fst w) (of_Z 16) = of_decimal true 192 (-5) /\
  calls (snd w') = [OnComplete] /\
  calls (snd w') <>
    calls (snd w) ++ [OnUpdate (integratedValue (fst w) (of_Z 16))
                               (integratedVelocity (fst w) (of_Z 16))] /\
  currentValue (fst w') = zero /\
  currentValue (fst w') <> integratedValue (fst w) (of_Z 16) /\
  currentVelocity (fst w') <> integratedVelocity (fst w) (of_Z 16).
Proof.
  vm_compute. repeat split; try reflexivity; discriminate.
Qed.

End SpringStep.

(** ** PointerTracker: velocity and direction *)

Module PointerFacts.
Import Num NumOrder Pointer.

Lemma last_cons_default {A : Type} (l : list A) (c d1 d2 : A) :
  last (c :: l) d1 = last (c :: l) d2.
Proof.
  revert c. induction l as [|b l IH]; intros c; [reflexivity|].
  change (last (b :: l) d1 = last (b :: l) d2). apply IH.
Qed.

Lemma nth_error_last {A : Type} (l : list A) (a : A) :
  nth_error (a :: l) (List.length l) = Some (last l a).
Proof.
  revert a. induction l as [|b l IH]; intros a; [reflexivity|].
  change (nth_error (b :: l) (List.length l) = Some (last (b :: l) a)).
  rewrite IH. f_equal.
  destruct l as [|c l]; [reflexivity|].
  change (last (c :: l) b = last (c :: l) a). apply last_cons_default.
Qed.

(** The code computes the velocity the specification describes. *)
Lemma calculateVelocity_slope (h : list Sample) : calculateVelocity h = slope h.
Proof.
  destruct h as [|oldest [|second rest]]; try reflexivity.
  unfold calculateVelocity, slope.
  change (List.length (oldest :: second :: rest) <? 2)%nat with false.
  cbv iota.
  replace (List.length (oldest :: second :: rest) - 1)%nat
    with (List.length (second :: rest)) by (simpl; lia).
  rewrite (nth_error_last (second :: rest) oldest).
  reflexivity.
Qed.

(** In every tracker a program can hold, the velocity of the state is the
    slope of the history. *)
Lemma reachable_velocity (t : PointerTracker) :
  reachable t ->
  (velocityX (state t), velocityY (state t)) = slope (history t).
Proof.
  assert (Hmove : forall e t0,
             (velocityX (state t0), velocityY (state t0)) = slope (history t0) ->
             (velocityX (state (fst (move e t0))),
              velocityY (state (fst (move e t0))))
             = slope (history (fst (move e t0)))).
  { intros e t0 IH. unfold move.
    destruct (isDragging (state t0)); simpl negb; cbv iota; [|exact IH].
    match goal with
    | |- context [calculateVelocity ?h] =>
        rewrite (calculateVelocity_slope h); destruct (slope h) as [vx vy] eqn:E
    end.
    simpl. now rewrite E. }
  induction 1 as [| e t0 _ _ | e t0 _ IH | e t0 _ IH | t0 _ _];
    try reflexivity.
  - now apply Hmove.
  - specialize (Hmove e t0 IH). unfold finish.
    destruct (move e t0) as [t' st] eqn:E.
    assert (Hst : st = state t').
    { unfold move in E.
      destruct (isDragging (state t0)); simpl negb in E; cbv iota in E.
      - destruct (calculateVelocity _) in E. now inversion E.
      - now inversion E. }
    subst st. exact Hmove.
Qed.

Lemma move_returns_state (e : PointerEvent) (t : PointerTracker) :
  snd (move e t) = state (fst (move e t)).
Proof.
  unfold move. destruct (isDragging (state t)); simpl negb; cbv iota.
  - now destruct (calculateVelocity _).
  - reflexivity.
Qed.

Lemma finish_returns_state (e : PointerEvent) (t : PointerTracker) :
  snd (finish e t) = state (fst (finish e t)).
Proof.
  unfold finish. now destruct (move e t).
Qed.

Lemma slope_cases (h : list Sample) (v : number * number) :
  v = slope h ->
  ((List.length h < 2)%nat -> v = (zero, zero)) /\
  (forall oldest rest, h = oldest :: rest -> rest <> [] ->
     let newest := last rest oldest in
     let span := sub (time newest) (time oldest) in
     (strict_eq span zero = true -> v = (zero, zero)) /\
     (strict_eq span zero = false ->
      v = (div (sub (x newest) (x oldest)) span,
           div (sub (y newest) (y oldest)) span))).
Proof.
  intros ->. split.
  - destruct h as [|a [|b r]]; simpl; auto; lia.
  - intros oldest rest -> Hne. destruct rest as [|b r]; [congruence|].
    cbv zeta. unfold slope.
    destruct (strict_eq _ zero); split; congruence.
Qed.

Lemma ltb_asym (a b : number) : ltb a b = true -> ltb b a = false.
Proof.
  unfold ltb, SFltb. rewrite !compare_key, (orb_comm (is_nan b)).
  destruct (is_nan a || is_nan b); [discriminate|].
  rewrite (key_compare_antisym (order_key a) (order_key b)).
  destruct (key_compare (order_key a) (order_key b)); simpl; congruence.
Qed.

Lemma gtb_asym (a b : number) : gtb a b = true -> gtb b a = false.
Proof. unfold gtb. apply (ltb_asym b a). Qed.

Lemma ltb_not_gtb (a b : number) : ltb a b = true -> gtb a b = false.
Proof. unfold gtb. apply (ltb_asym a b). Qed.

End PointerFacts.

Module PointerClaims.
Import Num NumOrder Pointer PointerFacts.

(** C5.  In every tracker a program can hold, the velocity pair of the state
    returned by [move] and by [end] is exactly [(0, 0)] when the history
    holds fewer than two samples, and when the time span between the oldest
    and the newest retained sample is 0 (so it is not the [Infinity] or
    [NaN] a division by that span would give); otherwise it is
    [(newest.x - oldest.x, newest.y - oldest.y)] divided by the span. *)
Theorem velocity_is_slope_of_history (t : PointerTracker) (e : PointerEvent) :
  reachable t ->
  forall r, r = move e t \/ r = finish e t ->
  let h := history (fst r) in
  let v := (velocityX (snd r), velocityY (snd r)) in
  ((List.length h < 2)%nat -> v = (zero, zero)) /\
  (forall oldest rest, h = oldest :: rest -> rest <> [] ->
     let newest := last rest oldest in
     let span := sub (time newest) (time oldest) in
     (strict_eq span zero = true -> v = (zero, zero)) /\
     (strict_eq span zero = false ->
      v = (div (sub (x newest) (x oldest)) span,
           div (sub (y newest) (y oldest)) span))).
Proof.
  intros Ht r Hr. cbv zeta. apply slope_cases.
  destruct Hr as [-> | ->].
  - rewrite move_returns_state. apply reachable_velocity.
    now apply reach_move.
  - rewrite finish_returns_state. apply reachable_velocity.
    now apply reach_finish.
Qed.

(** C6.  While dragging, [move] computes the deltas from the start sample
    and reports no direction when both [|dx|] and [|dy|] are below 5;
    otherwise, when [|dx|] is the larger it reports right for a positive
    [dx] and left for a negative one, and when [|dy|] is the larger it
    reports down for a positive [dy] and up for a negative one. *)
Theorem direction_of_move (t : PointerTracker) (e : PointerEvent) :
  isDragging (state t) = true ->
  let st := snd (move e t) in
  let dx := deltaX st in
  let dy := deltaY st in
  dx = sub (clientX e) (startX (state t)) /\
  dy = sub (clientY e) (startY (state t)) /\
  (ltb (abs dx) (of_Z 5) = true -> ltb (abs dy) (of_Z 5) = true ->
   direction st = None) /\
  (ltb (abs dx) (of_Z 5) && ltb (abs dy) (of_Z 5) = false ->
   (gtb (abs dx) (abs dy) = true ->
    (gtb dx zero = true -> direction st = Some Right) /\
    (ltb dx zero = true -> direction st = Some Left)) /\
   (gtb (abs dy) (abs dx) = true ->
    (gtb dy zero = true -> direction st = Some Down) /\
    (ltb dy zero = true -> direction st = Some Up))).
Proof.
  intros Hd. unfold move. rewrite Hd. simpl negb. cbv iota.
  destruct (calculateVelocity _) as [vx vy].
  cbn [snd fst deltaX deltaY direction].
  set (dx := sub (clientX e) (startX (state t))).
  set (dy := sub (clientY e) (startY (state t))).
  unfold getDirection.
  split; [reflexivity|]. split; [reflexivity|]. split.
  - intros -> ->. reflexivity.
  - intros ->. split.
    + intros ->. split.
      * intros ->. reflexivity.
      * intros H. now rewrite (ltb_not_gtb _ _ H).
    + intros H. rewrite (gtb_asym _ _ H). split.
      * intros ->. reflexivity.
      * intros H'. now rewrite (ltb_not_gtb _ _ H').
Qed.

Lemma velocity_is_slope_of_history_witness :
  reachable Examples.dragging /\
  (velocityX (snd (move (Examples.pointer 150 250 1050) Examples.dragging)),
   velocityY (snd (move (Examples.pointer 150 250 1050) Examples.dragging)))
  = (of_Z 1, of_Z 1).
Proof.
  assert (Hr : reachable Examples.dragging)
    by (apply reach_start; apply reach_new).
  split; [exact Hr|].
  destruct (velocity_is_slope_of_history Examples.dragging
              (Examples.pointer 150 250 1050) Hr
              (move (Examples.pointer 150 250 1050) Examples.dragging)
              (or_introl eq_refl)) as [_ H].
  refine (proj2 (H _ _ eq_refl _) eq_refl). discriminate.
Defined.

Lemma direction_of_move_witness :
  isDragging (state Examples.dragging) = true /\
  direction (snd (move (Examples.pointer 200 200 1050) Examples.dragging))
  = Some Right.
Proof.
  split; [reflexivity|].
  destruct (direction_of_move Examples.dragging
              (Examples.pointer 200 200 1050) eq_refl) as [_ [_ [_ H]]].
  exact (proj1 (proj1 (H eq_refl) eq_refl) eq_refl).
Defined.

End PointerClaims.

(** ** SnapPointCalculator: resolving the descriptors *)

Module ResolveFacts.
Import Num Str Snap.

Lemma map_from_length {A B : Type} (f : A -> nat -> B) (l : list A) (k : nat) :
  List.length (map_from f k l) = List.length l.
Proof.
  revert k. induction l as [|a l IH]; intros k; simpl; [reflexivity|].
  now rewrite IH.
Qed.

Lemma map_from_nth {A B : Type} (f : A -> nat -> B) (l : list A) (k i : nat) :
  nth_error (map_from f k l) i =
  option_map (fun a => f a (k + i)%nat) (nth_error l i).
Proof.
  revert k i. induction l as [|a l IH]; intros k [|i]; simpl; try reflexivity.
  - now rewrite Nat.add_0_r.
  - rewrite IH. now replace (S k + i)%nat with (k + S i)%nat by lia.
Qed.

Lemma map_from_In {A B : Type} (f : A -> nat -> B) (l : list A) (k : nat) (b : B) :
  In b (map_from f k l) -> exists a i, In a l /\ b = f a i.
Proof.
  revert k. induction l as [|a l IH]; intros k; simpl; [tauto|].
  intros [<- | H].
  - exists a, k. auto.
  - destruct (IH _ H) as [a' [i [Hin ->]]]. exists a', i. auto.
Qed.

(** A string ends with the last character of any suffix it ends with. *)
Lemma endsWith_last (s suffix : string) :
  endsWith s suffix = true -> suffix <> EmptyString ->
  get (String.length s - 1) s = get (String.length suffix - 1) suffix.
Proof.
  unfold endsWith. intros H Hne.
  apply andb_prop in H. destruct H as [Hle Heq].
  apply Nat.leb_le in Hle. apply String.eqb_eq in Heq.
  assert (Hk : (0 < String.length suffix)%nat)
    by (destruct suffix; [congruence | simpl; lia]).
  pose proof (substring_correct1 s
                (String.length s - String.length suffix)
                (String.length suffix) (String.length suffix - 1)) as E.
  rewrite Heq in E. rewrite E by lia.
  f_equal. lia.
Qed.

(** The four unit suffixes exclude one another. *)
Lemma unit_suffixes_exclusive (s : string) :
  (endsWith s "px" = true ->
   endsWith s "%" = false /\ endsWith s "vh" = false /\ endsWith s "vw" = false) /\
  (endsWith s "%" = true ->
   endsWith s "px" = false /\ endsWith s "vh" = false /\ endsWith s "vw" = false) /\
  (endsWith s "vh" = true ->
   endsWith s "px" = false /\ endsWith s "%" = false /\ endsWith s "vw" = false) /\
  (endsWith s "vw" = true ->
   endsWith s "px" = false /\ endsWith s "%" = false /\ endsWith s "vh" = false).
Proof.
  assert (H : forall u1 u2,
             u1 <> EmptyString -> u2 <> EmptyString ->
             get (String.length u1 - 1) u1 <> get (String.length u2 - 1) u2 ->
             endsWith s u1 = true -> endsWith s u2 = false).
  { intros u1 u2 H1 H2 Hd E1.
    destruct (endsWith s u2) eqn:E2; [|reflexivity].
    exfalso. apply Hd.
    now rewrite <- (endsWith_last s u1 E1 H1), <- (endsWith_last s u2 E2 H2). }
  repeat split;
    (eapply H; [| | | eassumption]; [discriminate | discriminate | ]);
    simpl; discriminate.
Qed.

End ResolveFacts.

Module ResolveClaim.
Import Num Str Snap ResolveFacts.

Lemma parseSnapValue_string (w : Window) (size : number) (s : string) :
  let o := parseSnapValue w size (VString s) in
  (endsWith s "px" = true -> o = parseFloat s) /\
  (endsWith s "%" = true -> o = mul (div (parseFloat s) (of_Z 100)) size) /\
  (endsWith s "vh" = true ->
   o = mul (div (parseFloat s) (of_Z 100)) (innerHeight w)) /\
  (endsWith s "vw" = true ->
   o = mul (div (parseFloat s) (of_Z 100)) (innerWidth w)) /\
  (endsWith s "px" = false -> endsWith s "%" = false ->
   endsWith s "vh" = false -> endsWith s "vw" = false -> o = parseFloat s).
Proof.
  destruct (unit_suffixes_exclusive s) as [Hpx [Hpc [Hvh Hvw]]].
  cbv zeta. unfold parseSnapValue.
  repeat split.
  - intros ->. reflexivity.
  - intros H. destruct (Hpc H) as [-> _]. now rewrite H.
  - intros H. destruct (Hvh H) as [-> [-> _]]. now rewrite H.
  - intros H. destruct (Hvw H) as [-> [-> ->]]. now rewrite H.
  - intros -> -> -> ->. reflexivity.
Qed.

(** C1.  [updateConfig] resolves the descriptors in order, one resolved
    point for each.  A bare number [n] gives the offset [n * containerSize]
    with [relative = true]; a string ending in [px] gives the number
    [parseFloat] reads in it, whatever the container size; one ending in [%]
    gives [(parsed / 100) * containerSize]; one ending in [vh] or [vw] gives
    [(parsed / 100)] times the height or the width of the window; any other
    string gives the number read, and every string gives
    [relative = false].  An object [{value, id}] keeps its [id] and
    resolves [value] by the same rules, [relative] included; any other
    descriptor at position [index] gets the id [snap-<index>].  Over a
    container of 400,
    [[0, 0.5, 1]] resolves to the offsets [[0, 200, 400]] and
    [['25%', '75%']] to [[100, 300]]; [['100px', '200px']] resolves to
    [[100, 200]] over a container of any size. *)
Theorem updateConfig_resolves (w : Window) (config : SnapConfig)
    (c0 : SnapPointCalculator) :
  let c := updateConfig w config c0 in
  let size := config_containerSize config in
  let unit_rule (s : string) (o : number) : Prop :=
    (endsWith s "px" = true -> o = parseFloat s) /\
    (endsWith s "%" = true -> o = mul (div (parseFloat s) (of_Z 100)) size) /\
    (endsWith s "vh" = true ->
     o = mul (div (parseFloat s) (of_Z 100)) (innerHeight w)) /\
    (endsWith s "vw" = true ->
     o = mul (div (parseFloat s) (of_Z 100)) (innerWidth w)) /\
    (endsWith s "px" = false -> endsWith s "%" = false ->
     endsWith s "vh" = false -> endsWith s "vw" = false ->
     o = parseFloat s) in
  List.length (resolvedPoints c) = List.length (points config) /\
  (forall index point, nth_error (points config) index = Some point ->
   exists r,
     nth_error (resolvedPoints c) index = Some r /\
     match point with
     | PNumber n =>
         id r = String.append "snap-" (string_of_index index) /\
         offset r = mul n size /\ relative r = true
     | PString s =>
         id r = String.append "snap-" (string_of_index index) /\
         unit_rule s (offset r) /\ relative r = false
     | PObject (VNumber n) pid =>
         id r = pid /\ offset r = mul n size /\ relative r = true
     | PObject (VString s) pid =>
         id r = pid /\ unit_rule s (offset r) /\ relative r = false
     end) /\
  (forall w',
     map offset (resolvedPoints (Examples.ratios w'))
       = [of_Z 0; of_Z 200; of_Z 400] /\
     map id (resolvedPoints (Examples.ratios w'))
       = ["snap-0"; "snap-1"; "snap-2"]%string /\
     map offset (resolvedPoints (Examples.percents w'))
       = [of_Z 100; of_Z 300]) /\
  (forall w' containerSize,
     map offset (resolvedPoints (Examples.pixels w' containerSize))
       = [of_Z 100; of_Z 200]).
Proof.
  cbv zeta. split; [|split; [|split]].
  - apply map_from_length.
  - intros index point Hp.
    unfold updateConfig, resolveSnapPoints. cbn [resolvedPoints].
    rewrite map_from_nth, Hp. cbn [option_map Nat.add].
    eexists. split; [reflexivity|].
    destruct point as [n | s | [n | s] pid]; cbn [resolveSnapPoint id offset relative].
    + repeat split.
    + split; [reflexivity|]. split; [|reflexivity].
      apply (parseSnapValue_string w (config_containerSize config) s).
    + repeat split.
    + split; [reflexivity|]. split; [|reflexivity].
      apply (parseSnapValue_string w (config_containerSize config) s).
  - intros w'. repeat split.
  - intros w' containerSize. reflexivity.
Qed.

Lemma updateConfig_resolves_witness :
  nth_error (points Examples.ratios_config) 1 =
    Some (PNumber (of_decimal false 5 (-1))) /\
  exists r,
    nth_error (resolvedPoints (Examples.ratios Examples.window)) 1 = Some r /\
    id r = "snap-1"%string /\ offset r = of_Z 200 /\ relative r = true.
Proof.
  split; [reflexivity|].
  destruct (updateConfig_resolves Examples.window Examples.ratios_config
              {| resolvedPoints := []; containerSize := zero |})
    as [_ [H _]].
  destruct (H 1%nat _ eq_refl) as [r [Hr [Hid [Hoff Hrel]]]].
  exists r. repeat split; assumption.
Defined.

End ResolveClaim.

(** ** SnapPointCalculator: the sign of the offsets *)

Module SignFacts.
Import Num Str Snap SnapSign ResolveFacts.

(** Rounding keeps the sign it is given. *)
Lemma binary_round_aux_sign (s : bool) (m e : Z) (l : location) :
  let r := binary_round_aux prec emax s m e l in
  r = S754_zero s \/ r = S754_infinity s \/ r = S754_nan \/
  exists m' e', r = S754_finite s m' e'.
Proof.
  cbv zeta. unfold binary_round_aux.
  destruct (shr_fexp prec emax m e l) as [mrs' e'].
  destruct (shr_fexp prec emax _ e' loc_Exact) as [mrs'' e''].
  destruct (shr_m mrs'') as [|p|p].
  - now left.
  - destruct (e'' <=? emax - prec).
    + right; right; right. now exists p, e''.
    + right; now left.
  - right; right; now left.
Qed.

Lemma nonneg_or_nan_round (m e : Z) (l : location) :
  leb zero (binary_round_aux prec emax false m e l) = true \/
  binary_round_aux prec emax false m e l = NaN.
Proof.
  destruct (binary_round_aux_sign false m e l)
    as [-> | [-> | [-> | [m' [e' ->]]]]]; auto.
Qed.

Lemma leb_zero_cases (a : number) :
  leb zero a = true ->
  (exists s, a = S754_zero s) \/ a = S754_infinity false \/
  exists m e, a = S754_finite false m e.
Proof.
  destruct a as [s | [|] | | [|] m e]; try discriminate; eauto.
Qed.

(** The product of two numbers that are [>= 0], and the quotient of one by
    a positive number, is [>= 0] or [NaN]. *)
Lemma mul_nonneg (a b : number) :
  leb zero a = true -> leb zero b = true ->
  leb zero (mul a b) = true \/ mul a b = NaN.
Proof.
  intros Ha Hb.
  destruct (leb_zero_cases a Ha) as [[sa ->] | [-> | [ma [ea ->]]]];
  destruct (leb_zero_cases b Hb) as [[sb ->] | [-> | [mb [eb ->]]]];
    try (left; reflexivity); try (right; reflexivity).
  apply nonneg_or_nan_round.
Qed.

Lemma div_nonneg (a : number) (mb : positive) (eb : Z) :
  leb zero a = true ->
  leb zero (div a (S754_finite false mb eb)) = true \/
  div a (S754_finite false mb eb) = NaN.
Proof.
  intros Ha.
  destruct (leb_zero_cases a Ha) as [[sa ->] | [-> | [ma [ea ->]]]];
    try (left; reflexivity).
  unfold div, SFdiv.
  destruct (SFdiv_core_binary prec emax (Z.pos ma) ea (Z.pos mb) eb)
    as [[mz ez] lz].
  apply nonneg_or_nan_round.
Qed.

Lemma mul_nan_l (b : number) : mul NaN b = NaN.
Proof. reflexivity. Qed.

(** A hundredth of a number that is [>= 0], times such a number. *)
Lemma percent_nonneg (a b : number) :
  leb zero a = true -> leb zero b = true ->
  leb zero (mul (div a (of_Z 100)) b) = true \/
  mul (div a (of_Z 100)) b = NaN.
Proof.
  intros Ha Hb.
  change (of_Z 100) with (S754_finite false 7036874417766400 (-46)).
  destruct (div_nonneg a 7036874417766400 (-46) Ha) as [H | ->].
  - now apply mul_nonneg.
  - right. apply mul_nan_l.
Qed.

Lemma parseSnapValue_nonneg (w : Window) (size : number) (v : SnapValue) :
  leb zero size = true ->
  leb zero (innerHeight w) = true -> leb zero (innerWidth w) = true ->
  leb zero (raw_value v) = true ->
  leb zero (parseSnapValue w size v) = true \/ parseSnapValue w size v = NaN.
Proof.
  intros Hs Hh Hw Hv. destruct v as [n | s]; simpl in Hv |- *.
  - now apply mul_nonneg.
  - destruct (endsWith s "px"); [now left|].
    destruct (endsWith s "%"); [now apply percent_nonneg|].
    destruct (endsWith s "vh"); [now apply percent_nonneg|].
    destruct (endsWith s "vw"); [now apply percent_nonneg|].
    now left.
Qed.

(** Shifting to the right and rounding keep a mantissa that is not negative
    so, hence rounding never makes a [NaN] of one. *)
Lemma shr_1_nonneg (mrs : shr_record) :
  0 <= shr_m mrs -> 0 <= shr_m (shr_1 mrs).
Proof.
  destruct mrs as [m r s]. cbn [shr_m].
  destruct m as [| [p | p |] | p]; cbn; lia.
Qed.

Lemma iter_shr_1_nonneg (p : positive) (mrs : shr_record) :
  0 <= shr_m mrs -> 0 <= shr_m (iter_pos shr_1 p mrs).
Proof.
  revert mrs. induction p as [p IH | p IH |]; intros mrs H; cbn [iter_pos].
  - apply IH, IH, shr_1_nonneg, H.
  - apply IH, IH, H.
  - apply shr_1_nonneg, H.
Qed.

Lemma shr_fexp_nonneg (m e : Z) (l : location) :
  0 <= m -> 0 <= shr_m (fst (shr_fexp prec emax m e l)).
Proof.
  intros H. unfold shr_fexp, shr.
  assert (H0 : 0 <= shr_m (shr_record_of_loc m l))
    by (destruct l as [| []]; exact H).
  destruct (fexp prec emax (Zdigits2 m + e) - e); cbn [fst]; try exact H0.
  apply iter_shr_1_nonneg, H0.
Qed.

Lemma round_nearest_even_nonneg (m : Z) (l : location) :
  0 <= m -> 0 <= round_nearest_even m l.
Proof.
  intros H. unfold round_nearest_even.
  destruct l as [| []]; try destruct (Z.even m); lia.
Qed.

Lemma round_nonneg (m e : Z) (l : location) :
  0 <= m -> leb zero (binary_round_aux prec emax false m e l) = true.
Proof.
  intros H. unfold binary_round_aux.
  pose proof (shr_fexp_nonneg m e l H) as H1.
  destruct (shr_fexp prec emax m e l) as [mrs' e']. cbn [fst] in H1.
  pose proof (shr_fexp_nonneg _ e' loc_Exact
                (round_nearest_even_nonneg _ (loc_of_shr_record mrs') H1)) as H2.
  destruct (shr_fexp prec emax _ e' loc_Exact) as [mrs'' e'']. cbn [fst] in H2.
  destruct (shr_m mrs'') as [| p | p]; [reflexivity | | lia].
  destruct (e'' <=? emax - prec); reflexivity.
Qed.

(** The product of two numbers that are [>= 0] is [NaN] when one is a zero
    and the other an infinity, and is [>= 0] otherwise. *)
Lemma mul_nonneg_exact (a b : number) :
  leb zero a = true -> leb zero b = true ->
  if zero_times_infinity a b then mul a b = NaN
  else leb zero (mul a b) = true.
Proof.
  intros Ha Hb.
  destruct (leb_zero_cases a Ha) as [[sa ->] | [-> | [ma [ea ->]]]];
  destruct (leb_zero_cases b Hb) as [[sb ->] | [-> | [mb [eb ->]]]];
    try reflexivity.
  cbn [zero_times_infinity]. apply round_nonneg. lia.
Qed.

(** A hundredth of a number that is [>= 0] is [>= 0]. *)
Lemma hundredth_nonneg (a : number) :
  leb zero a = true -> leb zero (div a (of_Z 100)) = true.
Proof.
  intros Ha.
  change (of_Z 100) with (S754_finite false 7036874417766400 (-46)).
  destruct (leb_zero_cases a Ha) as [[sa ->] | [-> | [ma [ea ->]]]];
    try reflexivity.
  unfold div, SFdiv, SFdiv_core_binary. cbn [xorb].
  set (m' := match _ - _ - _ with 0 => Z.pos ma | Z.pos _ => _ | Z.neg _ => 0 end).
  assert (Hm : 0 <= m').
  { subst m'. destruct (_ - _ - _); try lia. apply Z.shiftl_nonneg. lia. }
  pose proof (Z_div_mod m' 7036874417766400 eq_refl) as Hd.
  destruct (Z.div_eucl m' 7036874417766400) as [q r].
  apply round_nonneg. nia.
Qed.

Lemma parseSnapValue_sign (w : Window) (size : number) (v : SnapValue) :
  leb zero size = true ->
  leb zero (innerHeight w) = true -> leb zero (innerWidth w) = true ->
  leb zero (raw_value v) = true ->
  let o := parseSnapValue w size v in
  let product (a b : number) : Prop :=
    if zero_times_infinity a b then o = NaN else leb zero o = true in
  match v with
  | VNumber n => product n size
  | VString s =>
      let hundredth := div (parseFloat s) (of_Z 100) in
      leb zero hundredth = true /\
      (endsWith s "px" = true -> leb zero o = true) /\
      (endsWith s "%" = true -> product hundredth size) /\
      (endsWith s "vh" = true -> product hundredth (innerHeight w)) /\
      (endsWith s "vw" = true -> product hundredth (innerWidth w)) /\
      (endsWith s "px" = false -> endsWith s "%" = false ->
       endsWith s "vh" = false -> endsWith s "vw" = false ->
       leb zero o = true)
  end.
Proof.
  intros Hs Hh Hw Hv. cbv zeta. destruct v as [n | s]; cbn [raw_value] in Hv.
  - cbn [parseSnapValue]. now apply mul_nonneg_exact.
  - pose proof (hundredth_nonneg _ Hv) as H100.
    destruct (ResolveClaim.parseSnapValue_string w size s)
      as (Hpx & Hpc & Hvh & Hvw & Hno).
    split; [exact H100|].
    split; [intros H; now rewrite (Hpx H)|].
    split; [intros H; rewrite (Hpc H); now apply mul_nonneg_exact|].
    split; [intros H; rewrite (Hvh H); now apply mul_nonneg_exact|].
    split; [intros H; rewrite (Hvw H); now apply mul_nonneg_exact|].
    intros H1 H2 H3 H4. now rewrite (Hno H1 H2 H3 H4).
Qed.

Lemma resolved_offset (w : Window) (size : number) (point : SnapPoint)
    (index : nat) :
  offset (resolveSnapPoint w size point index) =
  parseSnapValue w size (descriptor_value point).
Proof. destruct point; reflexivity. Qed.

Lemma not_zero_times_positive (a b : number) :
  is_positive_finite b = true -> zero_times_infinity a b = false.
Proof.
  destruct b as [| | | [|] m e]; try discriminate.
  destruct a; reflexivity.
Qed.

End SignFacts.

Module SignClaim.
Import Num Str Snap SnapSign ResolveFacts SignFacts.

(** C8 as stated fails: the descriptor [-0.5] over a container of 400
    resolves to the offset [-200], which is not [>= 0]; so does the string
    ['-100px'], to [-100]. *)
Lemma offset_nonneg_counterexample :
  let c :=
    Snap.new Examples.window
      {| points := [PNumber (of_decimal true 5 (-1)); PString "-100px"];
         config_containerSize := of_Z 400;
         direction := vertical |} in
  map offset (resolvedPoints c) = [of_Z (-200); of_Z (-100)] /\
  ~ (forall r, In r (resolvedPoints c) -> leb zero (offset r) = true).
Proof.
  cbv zeta. split; [reflexivity|].
  intros H. specialize (H _ (or_introl eq_refl)). discriminate H.
Qed.

(** C8, as the code has it.  The code never looks at a sign.  When the
    container size and both window sizes are [>= 0] and every descriptor
    gives a number [>= 0] (the ratio itself, or what [parseFloat] reads in
    the string), the offset resolved at each position is [>= 0], but for
    one case: where the code forms a product (the ratio times the container
    size; a hundredth of the number read, itself [>= 0], times the
    container size, the height or the width of the window), the offset is
    [NaN] exactly when one factor is a zero and the other an infinity.  So
    every offset is [>= 0] or [NaN], and all are [>= 0] when the three
    sizes are finite and above 0. *)
Theorem offset_nonneg_for_nonneg_input (w : Window) (config : SnapConfig)
    (c0 : SnapPointCalculator) :
  leb zero (config_containerSize config) = true ->
  leb zero (innerHeight w) = true ->
  leb zero (innerWidth w) = true ->
  (forall point, In point (points config) ->
     leb zero (raw_value (descriptor_value point)) = true) ->
  let size := config_containerSize config in
  let c := updateConfig w config c0 in
  let product (a b o : number) : Prop :=
    if zero_times_infinity a b then o = NaN else leb zero o = true in
  (forall index point r,
     nth_error (points config) index = Some point ->
     nth_error (resolvedPoints c) index = Some r ->
     match descriptor_value point with
     | VNumber n => product n size (offset r)
     | VString s =>
         let hundredth := div (parseFloat s) (of_Z 100) in
         leb zero hundredth = true /\
         (endsWith s "px" = true -> leb zero (offset r) = true) /\
         (endsWith s "%" = true -> product hundredth size (offset r)) /\
         (endsWith s "vh" = true ->
          product hundredth (innerHeight w) (offset r)) /\
         (endsWith s "vw" = true ->
          product hundredth (innerWidth w) (offset r)) /\
         (endsWith s "px" = false -> endsWith s "%" = false ->
          endsWith s "vh" = false -> endsWith s "vw" = false ->
          leb zero (offset r) = true)
     end) /\
  (forall r, In r (resolvedPoints c) ->
     leb zero (offset r) = true \/ offset r = NaN) /\
  (is_positive_finite size = true ->
   is_positive_finite (innerHeight w) = true ->
   is_positive_finite (innerWidth w) = true ->
   forall r, In r (resolvedPoints c) -> leb zero (offset r) = true).
Proof.
  intros Hs Hh Hw Hpts size c product.
  assert (Hform : forall index point r,
            nth_error (points config) index = Some point ->
            nth_error (resolvedPoints c) index = Some r ->
            In point (points config) /\
            offset r = parseSnapValue w size (descriptor_value point)).
  { intros index point r Hp Hr. split; [now apply nth_error_In in Hp|].
    unfold c, updateConfig, resolveSnapPoints in Hr. cbn [resolvedPoints] in Hr.
    rewrite map_from_nth, Hp in Hr. cbn [option_map] in Hr.
    injection Hr as <-. apply resolved_offset. }
  assert (HA : forall index point r,
            nth_error (points config) index = Some point ->
            nth_error (resolvedPoints c) index = Some r ->
            match descriptor_value point with
            | VNumber n => product n size (offset r)
            | VString s =>
                let hundredth := div (parseFloat s) (of_Z 100) in
                leb zero hundredth = true /\
                (endsWith s "px" = true -> leb zero (offset r) = true) /\
                (endsWith s "%" = true -> product hundredth size (offset r)) /\
                (endsWith s "vh" = true ->
                 product hundredth (innerHeight w) (offset r)) /\
                (endsWith s "vw" = true ->
                 product hundredth (innerWidth w) (offset r)) /\
                (endsWith s "px" = false -> endsWith s "%" = false ->
                 endsWith s "vh" = false -> endsWith s "vw" = false ->
                 leb zero (offset r) = true)
            end).
  { intros index point r Hp Hr.
    destruct (Hform index point r Hp Hr) as [Hin ->].
    exact (parseSnapValue_sign w size (descriptor_value point) Hs Hh Hw
             (Hpts point Hin)). }
  split; [exact HA|].
  assert (Hpos : forall r, In r (resolvedPoints c) ->
            exists index point,
              nth_error (points config) index = Some point /\
              nth_error (resolvedPoints c) index = Some r).
  { intros r Hr. apply In_nth_error in Hr. destruct Hr as [index Hr].
    pose proof Hr as Hr'.
    unfold c, updateConfig, resolveSnapPoints in Hr'.
    cbn [resolvedPoints] in Hr'. rewrite map_from_nth in Hr'.
    destruct (nth_error (points config) index) as [point|] eqn:Hp;
      [|discriminate].
    now exists index, point. }
  split.
  - intros r Hr. destruct (Hpos r Hr) as (index & point & Hp & Hn).
    specialize (HA index point r Hp Hn). unfold product in HA.
    destruct (parseSnapValue_nonneg w size (descriptor_value point)
                Hs Hh Hw (Hpts point (nth_error_In _ _ Hp))) as [H | H];
      destruct (Hform index point r Hp Hn) as [_ ->]; auto.
  - intros Ps Ph Pw r Hr. destruct (Hpos r Hr) as (index & point & Hp & Hn).
    specialize (HA index point r Hp Hn). unfold product in HA.
    destruct (descriptor_value point) as [n | s].
    + now rewrite (not_zero_times_positive n size Ps) in HA.
    + destruct HA as (_ & Hpx & Hpc & Hvh & Hvw & Hno).
      rewrite not_zero_times_positive in Hpc, Hvh, Hvw by assumption.
      destruct (endsWith s "px") eqn:E1; [now apply Hpx|].
      destruct (endsWith s "%") eqn:E2; [now apply Hpc|].
      destruct (endsWith s "vh") eqn:E3; [now apply Hvh|].
      destruct (endsWith s "vw") eqn:E4; [now apply Hvw|].
      now apply Hno.
Qed.

Lemma offset_nonneg_for_nonneg_input_witness :
  leb zero (of_Z 400) = true /\
  leb zero (raw_value (VString "25%")) = true /\
  leb zero (raw_value (VString "75%")) = true /\
  Forall (fun r => leb zero (offset r) = true)
    (resolvedPoints (Examples.percents Examples.window)).
Proof.
  split; [reflexivity|]. split; [reflexivity|]. split; [reflexivity|].
  apply Forall_forall.
  refine (proj2 (proj2
    (offset_nonneg_for_nonneg_input Examples.window
       {| points := [PString "25%"; PString "75%"];
          config_containerSize := of_Z 400;
          direction := vertical |}
       {| resolvedPoints := []; containerSize := zero |}
       eq_refl eq_refl eq_refl _)) eq_refl eq_refl eq_refl).
  intros point [<- | [<- | []]]; reflexivity.
Defined.

End SignClaim.

(** ** Numbers as array indices *)

Module IndexFacts.
Import Num.

Lemma inject_Z_eq (a b : Z) : Qeq (inject_Z a) (inject_Z b) <-> a = b.
Proof.
  unfold Qeq, inject_Z. simpl. lia.
Qed.

(** [integer_value] finds the integer a number is, exactly when it is one. *)
Lemma integer_value_represents (a : number) (z : Z) :
  integer_value a = Some z <-> represents a z.
Proof.
  unfold represents.
  destruct a as [s | s | | s m [|e|k]]; simpl integer_value; simpl value;
    try (rewrite inject_Z_eq; split; congruence);
    try (split; [discriminate | tauto]).
  assert (Hpos : 0 < Z.pos (2 ^ k)) by lia.
  unfold Qeq, inject_Z. cbn [Qnum Qden].
  set (P := Z.pos (2 ^ k)) in *.
  rewrite Z.mul_1_r.
  pose proof (Z.div_mod (Z.pos m) P ltac:(lia)) as Hd.
  destruct (Z.eqb_spec (Z.pos m mod P) 0) as [Hm | Hm].
  - rewrite Hm, Z.add_0_r in Hd.
    set (d := Z.pos m / P) in *.
    split.
    + intros H. injection H as <-.
      destruct s; cbn [cond_Zopp]; lia.
    + intros H. f_equal.
      assert (Hz : cond_Zopp s d * P = z * P)
        by (destruct s; cbn [cond_Zopp] in H |- *; lia).
      apply Z.mul_cancel_r in Hz; [exact Hz | lia].
  - split; [discriminate|].
    intros H. exfalso. apply Hm.
    destruct s; cbn [cond_Zopp] in H.
    + replace (Z.pos m) with ((- z) * P) by lia.
      apply Z.mod_mul. lia.
    + rewrite H. apply Z.mod_mul. lia.
Qed.

Lemma represents_unique (a : number) (z1 z2 : Z) :
  represents a z1 -> represents a z2 -> z1 = z2.
Proof.
  rewrite <- !integer_value_represents. congruence.
Qed.

(** Reading an array at a number. *)
Lemma array_get_integer {A : Type} (arr : list A) (i : number) (k : nat) :
  represents i (Z.of_nat k) -> array_get arr i = nth_error arr k.
Proof.
  intros H. apply integer_value_represents in H.
  unfold array_get. rewrite H, Nat2Z.id.
  destruct (Z.ltb_spec (Z.of_nat k) (Z.of_nat (List.length arr))) as [Hlt | Hge].
  - replace (0 <=? Z.of_nat k) with true by (symmetry; apply Z.leb_le; lia).
    reflexivity.
  - rewrite andb_false_r. symmetry. apply nth_error_None. lia.
Qed.

Lemma array_get_some {A : Type} (arr : list A) (i : number) (a : A) :
  array_get arr i = Some a ->
  exists k : nat, represents i (Z.of_nat k) /\ (k < List.length arr)%nat.
Proof.
  unfold array_get.
  destruct (integer_value i) as [z|] eqn:E; [|discriminate].
  destruct (Z.leb_spec 0 z) as [H0 | H0]; [|discriminate].
  destruct (Z.ltb_spec z (Z.of_nat (List.length arr))) as [Hlt | Hge];
    [|discriminate].
  intros _. exists (Z.to_nat z). split; [|lia].
  apply integer_value_represents. now rewrite Z2Nat.id.
Qed.

End IndexFacts.

Module IndexClaim.
Import Num Snap IndexFacts.

(** C10.  [getSnapPoint(index)] never fails.  It returns the resolved point
    at position [k] when [index] is the integer [k] and [k] is below the
    number of points, and [null] for every other number: integers outside
    the range, negative ones among them, numbers that are not integers, the
    infinities and [NaN]. *)
Theorem getSnapPoint_in_range (c : SnapPointCalculator) (index : number) :
  (forall k : nat,
     represents index (Z.of_nat k) ->
     (k < List.length (resolvedPoints c))%nat ->
     getSnapPoint c index = nth_error (resolvedPoints c) k /\
     getSnapPoint c index <> None) /\
  (getSnapPoint c index <> None ->
   exists k : nat,
     represents index (Z.of_nat k) /\
     (k < List.length (resolvedPoints c))%nat) /\
  getSnapPointCount c = of_nat (List.length (resolvedPoints c)) /\
  (forall w,
     getSnapPoint (Examples.ratios w) (of_Z (-1)) = None /\
     getSnapPoint (Examples.ratios w) (of_decimal false 15 (-1)) = None /\
     getSnapPoint (Examples.ratios w) (of_Z 3) = None /\
     getSnapPoint (Examples.ratios w) NaN = None /\
     getSnapPoint (Examples.ratios w) POSITIVE_INFINITY = None /\
     getSnapPoint (Examples.ratios w) (of_Z 2) =
       Some {| id := "snap-2"; offset := of_Z 400; relative := true |}).
Proof.
  unfold getSnapPoint. split; [|split; [|split]].
  - intros k Hk Hlt. rewrite (array_get_integer _ _ _ Hk).
    split; [reflexivity|]. now apply nth_error_Some.
  - intros H.
    destruct (array_get (resolvedPoints c) index) as [p|] eqn:E;
      [|congruence].
    exact (array_get_some _ _ _ E).
  - reflexivity.
  - intros w. repeat split.
Qed.

Lemma getSnapPoint_in_range_witness :
  represents (of_Z 1) (Z.of_nat 1) /\
  getSnapPoint (Examples.ratios Examples.window) (of_Z 1) =
    Some {| id := "snap-1"; offset := of_Z 200; relative := true |}.
Proof.
  assert (H : represents (of_Z 1) (Z.of_nat 1)) by reflexivity.
  split; [exact H|].
  destruct (getSnapPoint_in_range (Examples.ratios Examples.window) (of_Z 1))
    as [Hin _].
  destruct (Hin 1%nat H) as [Hget _]; [simpl; lia|].
  exact Hget.
Defined.

End IndexClaim.

(** ** Integers as numbers

    Array positions and lengths are integers far below [2^53]; on those the
    arithmetic of numbers is the arithmetic of integers. *)

Module NumIntegers.
Import Num IndexFacts.

Lemma iter_pos_iter {A : Type} (f : A -> A) (n : positive) (a : A) :
  iter_pos f n a = Pos.iter f a n.
Proof.
  revert a. induction n as [n IH | n IH |]; intros a; simpl.
  - rewrite !IH. now rewrite <- !Pos.iter_swap.
  - now rewrite !IH.
  - reflexivity.
Qed.

Lemma digits_log2 (p : positive) :
  Z.pos (digits2_pos p) = Z.log2 (Z.pos p) + 1.
Proof.
  induction p as [p IH | p IH |]; try reflexivity.
  - simpl digits2_pos. rewrite Pos2Z.inj_succ, IH.
    change (Z.pos p~1) with (2 * Z.pos p + 1).
    rewrite Z.log2_succ_double by lia. lia.
  - simpl digits2_pos. rewrite Pos2Z.inj_succ, IH.
    change (Z.pos p~0) with (2 * Z.pos p).
    rewrite Z.log2_double by lia. lia.
Qed.

Lemma shift_value (p k : positive) :
  Z.pos (Pos.iter xO p k) = Z.pos p * 2 ^ Z.pos k.
Proof.
  induction k as [|k IH] using Pos.peano_ind.
  - simpl. lia.
  - rewrite Pos.iter_succ, Pos2Z.inj_succ, Z.pow_succ_r by lia.
    change (Z.pos (Pos.iter xO p k)~0) with (2 * Z.pos (Pos.iter xO p k)).
    rewrite IH. ring.
Qed.

Lemma digits_shift (p k : positive) :
  Z.pos (digits2_pos (Pos.iter xO p k)) = Z.pos (digits2_pos p) + Z.pos k.
Proof.
  induction k as [|k IH] using Pos.peano_ind.
  - simpl. lia.
  - rewrite Pos.iter_succ. simpl digits2_pos. rewrite !Pos2Z.inj_succ, IH. lia.
Qed.

Lemma shr_exact (q n : positive) :
  iter_pos shr_1 n
    {| shr_m := Z.pos (Pos.iter xO q n); shr_r := false; shr_s := false |}
  = {| shr_m := Z.pos q; shr_r := false; shr_s := false |}.
Proof.
  rewrite iter_pos_iter.
  induction n as [|n IH] using Pos.peano_ind.
  - reflexivity.
  - rewrite Pos.iter_succ, <- Pos.iter_swap. rewrite Pos.iter_succ. simpl shr_1.
    exact IH.
Qed.

Lemma shiftl_value (p : positive) (n : N) :
  Z.pos (Pos.shiftl p n) = Z.pos p * 2 ^ Z.of_N n.
Proof.
  destruct n as [|k]; simpl Pos.shiftl.
  - simpl. lia.
  - apply shift_value.
Qed.

Lemma digits_shiftl (p : positive) (n : N) :
  Z.pos (digits2_pos (Pos.shiftl p n)) = Z.pos (digits2_pos p) + Z.of_N n.
Proof.
  destruct n as [|k]; simpl Pos.shiftl.
  - simpl. lia.
  - apply digits_shift.
Qed.

Lemma shr_shiftl (t : positive) (n : N) (e : Z) :
  shr {| shr_m := Z.pos (Pos.shiftl t n); shr_r := false; shr_s := false |}
      e (Z.of_N n)
  = ({| shr_m := Z.pos t; shr_r := false; shr_s := false |}, e + Z.of_N n).
Proof.
  destruct n as [|k]; simpl.
  - now rewrite Z.add_0_r.
  - now rewrite shr_exact.
Qed.

(** Rounding a mantissa that is a 53-bit one shifted left. *)
Lemma round_aux_exact (s : bool) (t : positive) (n : N) (e : Z) :
  Z.pos (digits2_pos t) = 53 ->
  -1074 <= e + Z.of_N n <= 971 ->
  binary_round_aux prec emax s (Z.pos (Pos.shiftl t n)) e loc_Exact
  = S754_finite s t (e + Z.of_N n).
Proof.
  intros Ht He.
  unfold binary_round_aux, shr_fexp.
  cbn [Zdigits2 shr_record_of_loc].
  rewrite digits_shiftl, Ht.
  replace (fexp prec emax (53 + Z.of_N n + e) - e) with (Z.of_N n)
    by (unfold fexp, emin, prec, emax; lia).
  rewrite shr_shiftl.
  cbn [shr_m loc_of_shr_record round_nearest_even Zdigits2 shr_record_of_loc].
  rewrite Ht.
  replace (fexp prec emax (53 + (e + Z.of_N n)) - (e + Z.of_N n)) with 0
    by (unfold fexp, emin, prec, emax; lia).
  cbn [shr shr_m].
  replace (e + Z.of_N n <=? emax - prec) with true
    by (symmetry; apply Z.leb_le; unfold prec, emax; lia).
  reflexivity.
Qed.

Lemma digits_pos (p : positive) : 1 <= Z.pos (digits2_pos p).
Proof. lia. Qed.

Lemma of_pos_digits (p : positive) :
  Z.pos (digits2_pos p) <= 53 ->
  Z.pos (digits2_pos
           (Pos.shiftl p (Z.to_N (prec - Z.pos (digits2_pos p))))) = 53.
Proof.
  intros H. rewrite digits_shiftl, Z2N.id; unfold prec; lia.
Qed.

(** Rounding the integer [p], given as the mantissa [m] at an exponent
    [e <= 0], gives its representation. *)
Lemma binary_round_exact (s : bool) (m : positive) (e : Z) (p : positive) :
  e <= 0 -> Z.pos m = Z.pos p * 2 ^ (- e) ->
  Z.pos (digits2_pos p) <= 53 ->
  binary_round prec emax s m e = of_pos s p.
Proof.
  intros He Hm Hp.
  pose proof (digits_pos p) as Hd1.
  unfold binary_round.
  assert (Hdm : Z.pos (digits2_pos m) + e = Z.pos (digits2_pos p)).
  { rewrite !digits_log2, Hm, Z.log2_mul_pow2 by lia. lia. }
  rewrite Hdm.
  replace (fexp prec emax (Z.pos (digits2_pos p)))
    with (Z.pos (digits2_pos p) - 53)
    by (unfold fexp, emin, prec, emax; lia).
  set (d := Z.pos (digits2_pos p)) in *.
  set (t := Pos.shiftl p (Z.to_N (prec - d))).
  assert (Ht : Z.pos (digits2_pos t) = 53) by (apply of_pos_digits; exact Hp).
  assert (Htv : Z.pos t = Z.pos p * 2 ^ (53 - d)).
  { unfold t. rewrite shiftl_value, Z2N.id; unfold prec; [reflexivity | lia]. }
  unfold of_pos. fold d. fold t. unfold prec at 2.
  unfold shl_align.
  destruct (d - 53 - e) as [|k|k] eqn:Hk.
  - (* already aligned *)
    assert (m = Pos.shiftl t 0) as ->.
    { simpl. apply Pos2Z.inj. rewrite Hm, Htv. f_equal. f_equal. lia. }
    rewrite round_aux_exact by (change (Z.of_N 0) with 0; lia).
    f_equal. change (Z.of_N 0) with 0. lia.
  - (* more bits than needed: they are zeros, shifted out *)
    assert (m = Pos.shiftl t (Z.to_N (Z.pos k))) as ->.
    { apply Pos2Z.inj. rewrite shiftl_value, Hm, Htv, Z2N.id by lia.
      rewrite <- Z.mul_assoc, <- Z.pow_add_r by lia. f_equal. f_equal. lia. }
    rewrite round_aux_exact by (rewrite ?Z2N.id; lia).
    f_equal. rewrite Z2N.id; lia.
  - (* fewer bits: shifted in *)
    assert (Pos.iter xO m k = Pos.shiftl t 0) as ->.
    { simpl. apply Pos2Z.inj. rewrite shift_value, Hm, Htv.
      rewrite <- Z.mul_assoc, <- Z.pow_add_r by lia. f_equal. f_equal. lia. }
    rewrite round_aux_exact by (change (Z.of_N 0) with 0; lia).
    f_equal. change (Z.of_N 0) with 0. lia.
Qed.

Lemma digits_bound (p : positive) :
  Z.pos p < 2 ^ 53 -> Z.pos (digits2_pos p) <= 53.
Proof.
  intros H. rewrite digits_log2.
  apply Z.log2_lt_pow2 in H; lia.
Qed.

Lemma digits_mono (p q : positive) :
  (p <= q)%positive -> Z.pos (digits2_pos p) <= Z.pos (digits2_pos q).
Proof.
  intros H. rewrite !digits_log2.
  apply Z.add_le_mono_r, Z.log2_le_mono. lia.
Qed.

(** The number an integer literal of at most 53 bits denotes. *)
Lemma of_Z_pos (p : positive) :
  Z.pos p < 2 ^ 53 -> of_Z (Z.pos p) = of_pos false p.
Proof.
  intros H. unfold of_Z, binary_normalize.
  apply binary_round_exact; [lia | simpl; lia | now apply digits_bound].
Qed.

Lemma of_Z_neg (p : positive) :
  Z.pos p < 2 ^ 53 -> of_Z (Z.neg p) = of_pos true p.
Proof.
  intros H. unfold of_Z, binary_normalize.
  apply binary_round_exact; [lia | simpl; lia | now apply digits_bound].
Qed.

(** Normalising the integer [v], given as [z] at an exponent [e <= 0]. *)
Lemma normalize_exact (z e v : Z) :
  e <= 0 -> z = v * 2 ^ (- e) -> - 2 ^ 53 < v < 2 ^ 53 ->
  binary_normalize prec emax z e false = of_Z v.
Proof.
  intros He Hz Hv.
  assert (Hpow : 0 < 2 ^ (- e)) by (apply Z.pow_pos_nonneg; lia).
  destruct z as [|m|m]; unfold binary_normalize.
  - assert (v = 0) as -> by nia. reflexivity.
  - destruct v as [|p|p]; try nia.
    rewrite of_Z_pos by lia.
    apply binary_round_exact; [exact He | exact Hz | apply digits_bound; lia].
  - destruct v as [|p|p]; try nia.
    rewrite of_Z_neg by lia.
    apply binary_round_exact; [exact He | | apply digits_bound; lia].
    change (Z.neg m) with (- Z.pos m) in Hz.
    change (Z.neg p) with (- Z.pos p) in Hz. lia.
Qed.

Lemma shl_align_value (m : positive) (e ez : Z) :
  ez <= e -> Z.pos (fst (shl_align m e ez)) = Z.pos m * 2 ^ (e - ez).
Proof.
  intros H. unfold shl_align.
  destruct (ez - e) as [|k|k] eqn:Hk; cbn [fst].
  - replace (e - ez) with 0 by lia. lia.
  - lia.
  - rewrite shift_value. f_equal. f_equal. lia.
Qed.

(** The shape of the number a non-zero integer of at most 53 bits denotes. *)
Lemma of_Z_finite (v : Z) :
  v <> 0 -> - 2 ^ 53 < v < 2 ^ 53 ->
  exists m e,
    of_Z v = S754_finite (v <? 0) m e /\
    e <= 0 /\ cond_Zopp (v <? 0) (Z.pos m) = v * 2 ^ (- e).
Proof.
  intros Hv Hb.
  destruct v as [|p|p]; [congruence | |].
  - rewrite of_Z_pos by lia. unfold of_pos.
    pose proof (digits_bound p ltac:(lia)) as Hd.
    pose proof (digits_pos p) as Hd1.
    eexists _, _. split; [reflexivity|]. split; [unfold prec; lia|].
    cbn [cond_Zopp Z.ltb Z.compare].
    rewrite shiftl_value, Z2N.id by (unfold prec; lia).
    f_equal. f_equal. unfold prec. lia.
  - rewrite of_Z_neg by lia. unfold of_pos.
    pose proof (digits_bound p ltac:(lia)) as Hd.
    pose proof (digits_pos p) as Hd1.
    eexists _, _. split; [reflexivity|]. split; [unfold prec; lia|].
    cbn [cond_Zopp Z.ltb Z.compare].
    rewrite shiftl_value, Z2N.id by (unfold prec; lia).
    change (Z.neg p) with (- Z.pos p).
    rewrite Z.mul_opp_l. f_equal. f_equal. f_equal. unfold prec. lia.
Qed.

Lemma cond_Zopp_mul (s : bool) (a b : Z) :
  cond_Zopp s (a * b) = cond_Zopp s a * b.
Proof. destruct s; simpl; lia. Qed.

Lemma aligned_value (s : bool) (m : positive) (e ez v : Z) :
  ez <= e -> e <= 0 -> cond_Zopp s (Z.pos m) = v * 2 ^ (- e) ->
  cond_Zopp s (Z.pos (fst (shl_align m e ez))) = v * 2 ^ (- ez).
Proof.
  intros H1 H2 Hv.
  rewrite shl_align_value, cond_Zopp_mul, Hv by exact H1.
  rewrite <- Z.mul_assoc, <- Z.pow_add_r by lia.
  f_equal. f_equal. lia.
Qed.

(** Adding and subtracting integers of at most 53 bits is exact. *)
Theorem add_of_Z (a b : Z) :
  - 2 ^ 53 < a < 2 ^ 53 -> - 2 ^ 53 < b < 2 ^ 53 ->
  - 2 ^ 53 < a + b < 2 ^ 53 ->
  add (of_Z a) (of_Z b) = of_Z (a + b).
Proof.
  intros Ha Hb Hab.
  destruct (Z.eq_dec a 0) as [-> | Ha0]; destruct (Z.eq_dec b 0) as [-> | Hb0];
    try reflexivity.
  - destruct (of_Z_finite b Hb0 Hb) as [mb [eb [Eb _]]].
    rewrite Z.add_0_l, Eb. reflexivity.
  - destruct (of_Z_finite a Ha0 Ha) as [ma [ea [Ea _]]].
    rewrite Z.add_0_r, Ea. reflexivity.
  - destruct (of_Z_finite a Ha0 Ha) as [ma [ea [Ea [Hea Hma]]]].
    destruct (of_Z_finite b Hb0 Hb) as [mb [eb [Eb [Heb Hmb]]]].
    rewrite Ea, Eb. unfold add, SFadd.
    apply normalize_exact; [lia | | exact Hab].
    rewrite (aligned_value _ _ _ _ a (Z.le_min_l ea eb) Hea Hma).
    rewrite (aligned_value _ _ _ _ b (Z.le_min_r ea eb) Heb Hmb).
    ring.
Qed.

Lemma of_Z_opp_finite (s : bool) (m : positive) (e : Z) (b : Z) :
  - 2 ^ 53 < b < 2 ^ 53 ->
  of_Z b = S754_finite s m e -> of_Z (- b) = S754_finite (negb s) m e.
Proof.
  intros Hb. destruct b as [|p|p]; [discriminate | |].
  - change (- Z.pos p) with (Z.neg p).
    rewrite of_Z_pos, of_Z_neg by lia. unfold of_pos.
    intros H. injection H as <- <- <-. reflexivity.
  - change (- Z.neg p) with (Z.pos p).
    rewrite of_Z_pos, of_Z_neg by lia. unfold of_pos.
    intros H. injection H as <- <- <-. reflexivity.
Qed.

Theorem sub_of_Z (a b : Z) :
  - 2 ^ 53 < a < 2 ^ 53 -> - 2 ^ 53 < b < 2 ^ 53 ->
  - 2 ^ 53 < a - b < 2 ^ 53 ->
  sub (of_Z a) (of_Z b) = of_Z (a - b).
Proof.
  intros Ha Hb Hab.
  destruct (Z.eq_dec a 0) as [-> | Ha0]; destruct (Z.eq_dec b 0) as [-> | Hb0];
    try reflexivity.
  - destruct (of_Z_finite b Hb0 Hb) as [mb [eb [Eb _]]].
    rewrite Z.sub_0_l, (of_Z_opp_finite _ _ _ _ Hb Eb), Eb. reflexivity.
  - destruct (of_Z_finite a Ha0 Ha) as [ma [ea [Ea _]]].
    rewrite Z.sub_0_r, Ea. reflexivity.
  - destruct (of_Z_finite a Ha0 Ha) as [ma [ea [Ea [Hea Hma]]]].
    destruct (of_Z_finite b Hb0 Hb) as [mb [eb [Eb [Heb Hmb]]]].
    rewrite Ea, Eb. unfold sub, SFsub.
    apply normalize_exact; [lia | | exact Hab].
    rewrite (aligned_value _ _ _ _ a (Z.le_min_l ea eb) Hea Hma).
    rewrite (aligned_value _ _ _ _ b (Z.le_min_r ea eb) Heb Hmb).
    ring.
Qed.

(** The order of the integers from 0 to [2^53] is the order of the numbers
    they denote. *)
Theorem compare_of_Z (a b : Z) :
  0 <= a < 2 ^ 53 -> 0 <= b < 2 ^ 53 ->
  SFcompare (of_Z a) (of_Z b) = Some (a ?= b).
Proof.
  intros Ha Hb.
  destruct a as [|p|p]; destruct b as [|q|q]; try lia; try reflexivity.
  - rewrite of_Z_pos by lia. reflexivity.
  - rewrite of_Z_pos by lia. reflexivity.
  - rewrite !of_Z_pos by lia. unfold of_pos, SFcompare.
    pose proof (digits_bound p ltac:(lia)) as Hdp.
    pose proof (digits_bound q ltac:(lia)) as Hdq.
    f_equal.
    destruct (Z.compare_spec (Z.pos (digits2_pos p) - prec)
                             (Z.pos (digits2_pos q) - prec)) as [E | E | E].
    + assert (Ed : digits2_pos p = digits2_pos q) by lia. rewrite Ed.
      change (Pos.compare_cont Eq ?x ?y) with (Z.pos x ?= Z.pos y).
      rewrite !shiftl_value.
      symmetry. apply Zmult_compare_compat_r.
      apply Z.lt_gt, Z.pow_pos_nonneg; lia.
    + symmetry. apply Z.compare_lt_iff.
      destruct (Z.lt_ge_cases (Z.pos p) (Z.pos q)) as [H | H]; [exact H|].
      pose proof (digits_mono q p ltac:(lia)). lia.
    + symmetry. apply Z.compare_gt_iff.
      destruct (Z.lt_ge_cases (Z.pos q) (Z.pos p)) as [H | H]; [exact H|].
      pose proof (digits_mono p q ltac:(lia)). lia.
Qed.

Theorem min_of_Z (a b : Z) :
  0 <= a < 2 ^ 53 -> 0 <= b < 2 ^ 53 ->
  min (of_Z a) (of_Z b) = of_Z (Z.min a b).
Proof.
  intros Ha Hb. unfold min, Z.min. rewrite compare_of_Z by assumption.
  destruct (Z.compare_spec a b) as [-> | H | H]; try reflexivity.
  now destruct (of_Z b) as [[|] | | |].
Qed.

Theorem max_of_Z (a b : Z) :
  0 <= a < 2 ^ 53 -> 0 <= b < 2 ^ 53 ->
  max (of_Z a) (of_Z b) = of_Z (Z.max a b).
Proof.
  intros Ha Hb. unfold max, Z.max. rewrite compare_of_Z by assumption.
  destruct (Z.compare_spec a b) as [-> | H | H]; try reflexivity.
  now destruct (of_Z b) as [[|] | | |].
Qed.

Theorem strict_eq_of_Z (a b : Z) :
  0 <= a < 2 ^ 53 -> 0 <= b < 2 ^ 53 ->
  strict_eq (of_Z a) (of_Z b) = (a =? b).
Proof.
  intros Ha Hb. unfold strict_eq, SFeqb.
  rewrite compare_of_Z by assumption.
  destruct (Z.compare_spec a b), (Z.eqb_spec a b); try lia; reflexivity.
Qed.

(** An integer literal of at most 53 bits is that integer. *)
Theorem of_Z_represents (v : Z) :
  - 2 ^ 53 < v < 2 ^ 53 -> represents (of_Z v) v.
Proof.
  intros Hv. destruct (Z.eq_dec v 0) as [-> | H0]; [reflexivity|].
  destruct (of_Z_finite v H0 Hv) as [m [e [E [He Hm]]]].
  unfold represents. rewrite E.
  destruct e as [|e|k]; [| lia |]; cbn [value].
  - apply inject_Z_eq. rewrite Z.mul_1_r in *. simpl in Hm. lia.
  - unfold Qeq, inject_Z. cbn [Qnum Qden].
    rewrite Hm. change (- Z.neg k) with (Z.pos k).
    rewrite Pos2Z.inj_pow. lia.
Qed.

End NumIntegers.

(** ** SnapPointCalculator: the next point *)

Module NextClaim.
Import Num Snap IndexFacts NumIntegers.

Lemma array_get_of_nat {A : Type} (arr : list A) (k : nat) :
  Z.of_nat k < 2 ^ 53 -> array_get arr (of_nat k) = nth_error arr k.
Proof.
  intros H. apply array_get_integer, of_Z_represents. lia.
Qed.

(** The index stepped to from a position of the list. *)
Lemma nextIndex_forward (c : SnapPointCalculator) (i : nat) (velocity : number) :
  (i < List.length (resolvedPoints c))%nat ->
  Z.of_nat (List.length (resolvedPoints c)) < 2 ^ 53 ->
  gtb velocity zero = true ->
  nextIndex c (of_nat i) velocity =
  of_nat (Nat.min (S i) (List.length (resolvedPoints c) - 1)).
Proof.
  intros Hi Hn Hv. unfold nextIndex. rewrite Hv. unfold of_nat.
  rewrite add_of_Z, sub_of_Z, min_of_Z by lia.
  f_equal. lia.
Qed.

Lemma nextIndex_backward (c : SnapPointCalculator) (i : nat) (velocity : number) :
  (i < List.length (resolvedPoints c))%nat ->
  Z.of_nat (List.length (resolvedPoints c)) < 2 ^ 53 ->
  gtb velocity zero = false ->
  nextIndex c (of_nat i) velocity = of_nat (i - 1).
Proof.
  intros Hi Hn Hv. unfold nextIndex. rewrite Hv. unfold of_nat.
  rewrite sub_of_Z by lia.
  destruct i as [|i].
  - reflexivity.
  - rewrite max_of_Z by lia. f_equal. lia.
Qed.

Lemma strict_eq_of_nat (a b : nat) :
  Z.of_nat a < 2 ^ 53 -> Z.of_nat b < 2 ^ 53 ->
  strict_eq (of_nat a) (of_nat b) = Nat.eqb a b.
Proof.
  intros Ha Hb. unfold of_nat. rewrite strict_eq_of_Z by lia.
  destruct (Z.eqb_spec (Z.of_nat a) (Z.of_nat b)), (Nat.eqb_spec a b);
    try lia; reflexivity.
Qed.

(** C7 as stated fails outside the positions of a list that is not empty.
    Over the three points of the test suite, from the index 5 with velocity
    1.5 the clamped step lands on index 2, and the point returned is that
    one: it is not one index away from 5.  Over the empty list, from index
    0 with velocity 1.5 the result is [null] although the velocity is above
    the threshold 0.5 and the clamped step, to -1, is not the index it
    started from. *)
Lemma findNextSnapPoint_counterexample :
  let c := Examples.ratios Examples.window in
  let empty :=
    Snap.new Examples.window
      {| points := []; config_containerSize := of_Z 400;
         direction := vertical |} in
  let v := of_decimal false 15 (-1) in
  let t := of_decimal false 5 (-1) in
  findNextSnapPoint c (of_Z 5) v (Some t) =
    Some {| q_index := of_Z 2; q_offset := of_Z 400; q_id := "snap-2" |} /\
  findNextSnapPoint empty (of_Z 0) v (Some t) = None /\
  leb (abs v) t = false /\
  nextIndex empty (of_Z 0) v = of_Z (-1) /\
  strict_eq (nextIndex empty (of_Z 0) v) (of_Z 0) = false.
Proof.
  vm_compute. repeat split.
Qed.

(** C7, as the code has it.  On every list and for every number
    [currentIndex], [findNextSnapPoint] returns [null] exactly when
    [|velocity| > threshold] does not hold (the threshold is 0.5 when left
    out), or the clamped step [nextIndex] is [currentIndex] again, or the
    list has no point at [nextIndex]; otherwise it returns [nextIndex] with
    the offset and id of the point there.  When [currentIndex] is a position
    [i] of the list, this reads: with [|velocity| > threshold], a velocity
    [> 0] gives the point at [i + 1], or [null] at the last position, and
    any other velocity gives the point at [i - 1], or [null] at position 0.
    Over 3 points, [findNextSnapPoint(0, 1.5, 0.5)] returns index 1 and
    [findNextSnapPoint(0, 0.2, 0.5)] returns [null]. *)
Theorem findNextSnapPoint_steps (c : SnapPointCalculator)
    (velocity : number) (threshold : option number) :
  let pts := resolvedPoints c in
  let t :=
    match threshold with Some t => t | None => of_decimal false 5 (-1) end in
  let at_index (k : nat) (r : option SnapQuery) : Prop :=
    exists p, nth_error pts k = Some p /\
      r = Some {| q_index := of_nat k; q_offset := offset p; q_id := id p |} in
  (forall currentIndex,
     (findNextSnapPoint c currentIndex velocity threshold = None <->
      gtb (abs velocity) t = false \/
      strict_eq (nextIndex c currentIndex velocity) currentIndex = true \/
      array_get pts (nextIndex c currentIndex velocity) = None) /\
     (forall r, findNextSnapPoint c currentIndex velocity threshold = Some r ->
      q_index r = nextIndex c currentIndex velocity /\
      exists p, array_get pts (q_index r) = Some p /\
                q_offset r = offset p /\ q_id r = id p)) /\
  (forall i : nat,
     (i < List.length pts)%nat -> Z.of_nat (List.length pts) < 2 ^ 53 ->
     let r := findNextSnapPoint c (of_nat i) velocity threshold in
     (gtb (abs velocity) t = false -> r = None) /\
     (gtb (abs velocity) t = true ->
      (gtb velocity zero = true ->
       ((S i < List.length pts)%nat -> at_index (S i) r) /\
       (S i = List.length pts -> r = None)) /\
      (gtb velocity zero = false ->
       ((0 < i)%nat -> at_index (i - 1)%nat r) /\
       (i = 0%nat -> r = None)))) /\
  (forall w,
     List.length (resolvedPoints (Examples.ratios w)) = 3%nat /\
     option_map q_index
       (findNextSnapPoint (Examples.ratios w) (of_Z 0)
          (of_decimal false 15 (-1)) (Some (of_decimal false 5 (-1))))
     = Some (of_Z 1) /\
     findNextSnapPoint (Examples.ratios w) (of_Z 0)
       (of_decimal false 2 (-1)) (Some (of_decimal false 5 (-1))) = None).
Proof.
  cbv zeta. split; [|split].
  - intros currentIndex. unfold findNextSnapPoint, default_velocityThreshold.
    set (t := match threshold with Some t => t | None => _ end).
    destruct (gtb (abs velocity) t); cbn [negb].
    + destruct (strict_eq (nextIndex c currentIndex velocity) currentIndex).
      * split; [split; auto | discriminate].
      * destruct (array_get (resolvedPoints c)
                    (nextIndex c currentIndex velocity)) as [p|] eqn:E.
        -- split.
           ++ split; [discriminate|].
              intros [H | [H | H]]; discriminate.
           ++ intros r H. injection H as <-. cbn [q_index q_offset q_id].
              split; [reflexivity|]. exists p. auto.
        -- split; [split; auto | discriminate].
    + split; [split; auto | discriminate].
  - intros i Hi Hn.
    unfold findNextSnapPoint, default_velocityThreshold.
    set (t := match threshold with Some t => t | None => _ end).
    split; [intros ->; reflexivity|].
    intros ->. cbn [negb]. split; intros Hv.
    + rewrite (nextIndex_forward c i velocity Hi Hn Hv).
      rewrite strict_eq_of_nat by lia. split; intros Hs.
      * replace (Nat.min (S i) (List.length (resolvedPoints c) - 1))
          with (S i) by lia.
        replace (Nat.eqb (S i) i) with false
          by (symmetry; apply Nat.eqb_neq; lia).
        rewrite array_get_of_nat by lia.
        destruct (nth_error (resolvedPoints c) (S i)) as [p|] eqn:E.
        -- exists p. auto.
        -- apply nth_error_None in E. lia.
      * replace (Nat.min (S i) (List.length (resolvedPoints c) - 1))
          with i by lia.
        now rewrite Nat.eqb_refl.
    + rewrite (nextIndex_backward c i velocity Hi Hn Hv).
      rewrite strict_eq_of_nat by lia. split; intros Hs.
      * replace (Nat.eqb (i - 1) i) with false
          by (symmetry; apply Nat.eqb_neq; lia).
        rewrite array_get_of_nat by lia.
        destruct (nth_error (resolvedPoints c) (i - 1)) as [p|] eqn:E.
        -- exists p. auto.
        -- apply nth_error_None in E. lia.
      * subst i. reflexivity.
  - intros w. repeat split.
Qed.

Lemma findNextSnapPoint_steps_witness :
  let c := Examples.ratios Examples.window in
  (0 < List.length (resolvedPoints c))%nat /\
  Z.of_nat (List.length (resolvedPoints c)) < 2 ^ 53 /\
  exists p,
    nth_error (resolvedPoints c) 1 = Some p /\
    findNextSnapPoint c (of_nat 0) (of_decimal false 15 (-1)) None =
      Some {| q_index := of_nat 1; q_offset := offset p; q_id := id p |}.
Proof.
  cbv zeta.
  assert (H1 : (0 < List.length
                       (resolvedPoints (Examples.ratios Examples.window)))%nat)
    by (simpl; lia).
  assert (H2 : Z.of_nat (List.length
                           (resolvedPoints (Examples.ratios Examples.window)))
               < 2 ^ 53) by (simpl; lia).
  split; [exact H1|]. split; [exact H2|].
  destruct (findNextSnapPoint_steps (Examples.ratios Examples.window)
              (of_decimal false 15 (-1)) None) as [_ [H _]].
  destruct (H 0%nat H1 H2) as [_ Hstep].
  destruct (Hstep eq_refl) as [Hfwd _].
  destruct (Hfwd eq_refl) as [Hnext _].
  apply Hnext. simpl. lia.
Defined.

End NextClaim.

(** ** SpringAnimation: the loop *)

Module SpringLoop.
Import Num Spring.

Lemma run_from_succ (clock : nat -> number) (m n : nat) (w : World) :
  run_from clock n (S m) w = frame (clock (n + S m)%nat) (run_from clock n m w).
Proof.
  revert n w. induction m as [|m IH]; intros n w.
  - simpl. now rewrite Nat.add_1_r.
  - change (run_from clock n (S (S m)) w)
      with (run_from clock (S n) (S m) (frame (clock (S n)) w)).
    rewrite IH. simpl run_from.
    now replace (S n + S m)%nat with (n + S (S m))%nat by lia.
Qed.

Lemma run_is_run_from (clock : nat -> number) (n : nat) (w : World) :
  run clock n w = run_from clock 0 n w.
Proof.
  induction n as [|n IH]; [reflexivity|].
  rewrite run_from_succ. simpl run. now rewrite IH.
Qed.

Lemma run_add (clock : nat -> number) (m n : nat) (w : World) :
  run clock (n + m) w = run_from clock n m (run clock n w).
Proof.
  revert n. induction m as [|m IH]; intros n.
  - now rewrite Nat.add_0_r.
  - replace (n + S m)%nat with (S n + m)%nat by lia.
    rewrite IH. reflexivity.
Qed.

Lemma completions_app (l : list Callback) (c : Callback) :
  completions (l ++ [c]) =
  (completions l + match c with OnComplete => 1 | _ => 0 end)%nat.
Proof.
  unfold completions. rewrite filter_app, length_app.
  destruct c; reflexivity.
Qed.

(** A frame with one request pending is one tick. *)
Lemma frame_one (t : number) (a : SpringAnimation) (h : Host) (k : nat) :
  pending h = [k] ->
  frame t (a, h) =
  tick t (a, {| nextHandle := nextHandle h; pending := []; calls := calls h |}).
Proof.
  intros H. unfold frame. now rewrite H.
Qed.

(** A frame with nothing pending changes nothing. *)
Lemma frame_none (t : number) (w : World) :
  pending (snd w) = [] -> frame t w = w.
Proof.
  destruct w as [a [nh p cs]]. simpl. intros ->. reflexivity.
Qed.

Lemma tick_settles (t : number) (a : SpringAnimation) (h : Host) :
  settles a t = true ->
  tick t (a, h) =
  ({| currentValue := targetValue a;
      currentVelocity := zero;
      targetValue := targetValue a;
      config := config a;
      rafId := rafId a;
      lastTime := t;
      isAnimating := false |}, call OnComplete h).
Proof.
  unfold settles, tick. intros ->. reflexivity.
Qed.

Lemma tick_continues (t : number) (a : SpringAnimation) (h : Host) :
  settles a t = false ->
  tick t (a, h) =
  ({| currentValue := integratedValue a t;
      currentVelocity := integratedVelocity a t;
      targetValue := targetValue a;
      config := config a;
      rafId := Some (nextHandle h);
      lastTime := t;
      isAnimating := isAnimating a |},
   {| nextHandle := S (nextHandle h);
      pending := pending h ++ [nextHandle h];
      calls := calls h ++ [OnUpdate (integratedValue a t)
                                    (integratedVelocity a t)] |}).
Proof.
  unfold settles, tick. intros ->. reflexivity.
Qed.

Lemma launched_on_course (initialValue : number) (cfg : SpringConfig)
    (now v : number) :
  on_course v (launched initialValue cfg now v).
Proof.
  unfold on_course, launched, setTarget, new, idle, start. simpl.
  repeat split. now exists 1%nat.
Qed.

(** A frame of a running loop stops it exactly when the tick settles. *)
Lemma frame_running (t v : number) (w : World) :
  on_course v w -> isAnimating (fst w) = true ->
  isAnimating (fst (frame t w)) = negb (settles (fst w) t).
Proof.
  destruct w as [a h]. unfold on_course. cbn [fst snd].
  intros [_ H] Ha. rewrite Ha in H. destruct H as [_ [k Hk]].
  rewrite (frame_one _ _ _ _ Hk).
  destruct (settles a t) eqn:E.
  - now rewrite tick_settles.
  - rewrite tick_continues by exact E. exact Ha.
Qed.

Lemma frame_on_course (t v : number) (w : World) :
  on_course v w -> on_course v (frame t w).
Proof.
  destruct w as [a h]. unfold on_course at 1. cbn [fst snd].
  intros [Ht H].
  destruct (isAnimating a) eqn:Ha.
  - destruct H as [Hc [k Hk]].
    rewrite (frame_one _ _ _ _ Hk).
    destruct (settles a t) eqn:E.
    + rewrite tick_settles by exact E.
      unfold on_course, call.
      cbn [fst snd calls pending isAnimating targetValue currentValue
           currentVelocity].
      rewrite completions_app, Hc. auto.
    + rewrite tick_continues by exact E.
      unfold on_course.
      cbn [fst snd calls pending isAnimating targetValue app].
      rewrite Ha, completions_app, Hc.
      repeat split; eauto.
  - destruct H as [Hv [Hz [Hc Hp]]].
    rewrite frame_none by exact Hp.
    unfold on_course. cbn [fst snd]. rewrite Ha. auto.
Qed.

Lemma run_on_course (clock : nat -> number) (n : nat) (v : number) (w : World) :
  on_course v w -> on_course v (run clock n w).
Proof.
  intros H. induction n as [|n IH]; [exact H|].
  simpl. now apply frame_on_course.
Qed.

(** Once the loop has stopped the frames change nothing. *)
Lemma stopped_stays (clock : nat -> number) (v : number) (m n : nat) (w : World) :
  on_course v w -> isAnimating (fst w) = false -> run_from clock n m w = w.
Proof.
  revert n. induction m as [|m IH]; intros n H Ha; [reflexivity|].
  simpl. rewrite frame_none; [now apply IH|].
  destruct H as [_ H]. rewrite Ha in H. tauto.
Qed.

(** A diverged loop stays diverged: every comparison with [NaN] fails. *)
Lemma frame_diverged (t : number) (w : World) :
  diverged w = true -> diverged (frame t w) = true.
Proof.
  destruct w as [a h]. unfold diverged. cbn [fst snd].
  intros H. apply andb_prop in H. destruct H as [H Hp].
  apply andb_prop in H. destruct H as [Hn Ha].
  destruct (pending h) as [|k [|k' l]] eqn:Ep; try discriminate.
  rewrite (frame_one _ _ _ _ Ep).
  assert (Hv : integratedValue a t = NaN).
  { unfold integratedValue. destruct (currentValue a); try discriminate.
    reflexivity. }
  assert (Hs : settles a t = false).
  { unfold settles. rewrite Hv. reflexivity. }
  rewrite tick_continues by exact Hs.
  cbn [fst snd currentValue isAnimating pending app].
  now rewrite Hv, Ha.
Qed.

Lemma diverged_forever (clock : nat -> number) (m n : nat) (w : World) :
  diverged w = true -> diverged (run_from clock n m w) = true.
Proof.
  revert n w. induction m as [|m IH]; intros n w H; [exact H|].
  simpl. apply IH. now apply frame_diverged.
Qed.

Lemma check_diverges_sound (fuel : nat) (clock : nat -> number) (n : nat)
    (w : World) :
  check_diverges fuel clock n w = true ->
  forall m, isAnimating (fst (run_from clock n m w)) = true.
Proof.
  revert n w. induction fuel as [|fuel IH]; intros n w H m.
  - pose proof (diverged_forever clock m n w H) as Hd.
    unfold diverged in Hd. apply andb_prop in Hd. destruct Hd as [Hd _].
    apply andb_prop in Hd. tauto.
  - simpl in H. apply andb_prop in H. destruct H as [Ha Hc].
    destruct m as [|m]; [exact Ha|].
    simpl. now apply IH.
Qed.

End SpringLoop.

Module SpringClaim.
Import Num Spring SpringLoop.

(** C2 as stated fails: termination does not hold for every config.  With
    the molasses preset and a frame every 100 ms (every step is then the
    maximal one, 64 ms) the integration from 0 towards 100 is unstable: the
    first frame takes the value to 114.688 at velocity 1792, the second
    throws it back below -668, and so on, ever farther, until the value
    overflows and becomes [NaN] (at frame 345); the loop runs for ever
    without completing. *)
Lemma setTarget_terminates_counterexample :
  let w0 := launched zero molasses zero (of_Z 100) in
  getValue (fst (run (every 100) 1 w0)) = of_decimal false 114688 (-3) /\
  getVelocity (fst (run (every 100) 1 w0)) = of_Z 1792 /\
  ltb (getValue (fst (run (every 100) 2 w0))) (of_Z (-668)) = true /\
  is_nan (getValue (fst (run (every 100) 345 w0))) = true /\
  ~ exists n, isAnimating (fst (run (every 100) n w0)) = false.
Proof.
  cbv zeta.
  do 4 (split; [vm_compute; reflexivity|]).
  intros [n H]. rewrite run_is_run_from in H.
  rewrite (check_diverges_sound 345 (every 100) 0
             (launched zero molasses zero (of_Z 100))) in H; [discriminate|].
  vm_compute. reflexivity.
Qed.

(** C2, as the code has it.  After [setTarget(v)] on a new animation, with
    any initial value, config and frame times: a frame of the running loop
    stops it exactly when the integrated value and velocity are both within
    [precision] of [v] and of 0; while the loop runs [onComplete] has not
    been called; and once it has stopped, [getValue()] is exactly [v],
    [getVelocity()] is exactly 0, [onComplete] has been called exactly once,
    no request is pending and later frames change nothing.  The loop does
    stop for each of the five presets from 0 to 100 with a frame every
    16 ms: for the gentle one at frame 89 and not before. *)
Theorem setTarget_completes (initialValue : number) (cfg : SpringConfig)
    (now v : number) (clock : nat -> number) (n : nat) :
  let w := run clock n (launched initialValue cfg now v) in
  (isAnimating (fst w) = true ->
   completions (calls (snd w)) = 0%nat /\
   isAnimating (fst (run clock (S n) (launched initialValue cfg now v)))
   = negb (settles (fst w) (clock (S n)))) /\
  (isAnimating (fst w) = false ->
   getValue (fst w) = v /\
   getVelocity (fst w) = zero /\
   completions (calls (snd w)) = 1%nat /\
   pending (snd w) = [] /\
   forall m, run clock (n + m) (launched initialValue cfg now v) = w) /\
  (isAnimating
     (fst (run (every 16) 88 (launched zero gentle zero (of_Z 100)))) = true /\
   Forall
     (fun '(preset, frames) =>
        isAnimating
          (fst (run (every 16) frames (launched zero preset zero (of_Z 100))))
        = false)
     [(gentle, 89%nat); (wobbly, 94%nat); (stiff, 56%nat); (slow, 140%nat);
      (molasses, 268%nat)]).
Proof.
  cbv zeta.
  pose proof (run_on_course clock n v _
                (launched_on_course initialValue cfg now v)) as Hc.
  split; [|split].
  - intros Ha. split.
    + destruct Hc as [_ Hc]. rewrite Ha in Hc. tauto.
    + simpl run. now apply (frame_running _ v).
  - intros Ha. unfold getValue, getVelocity.
    pose proof Hc as [_ Hs]. rewrite Ha in Hs.
    destruct Hs as [Hv [Hz [Hn Hp]]].
    repeat split; try assumption.
    intros m. rewrite run_add. now apply (stopped_stays clock v).
  - split; [vm_compute; reflexivity|].
    repeat (apply Forall_cons; [vm_compute; reflexivity|]). apply Forall_nil.
Qed.

Lemma setTarget_completes_witness :
  let w := run (every 16) 89 (launched zero gentle zero (of_Z 100)) in
  isAnimating (fst w) = false /\
  getValue (fst w) = of_Z 100 /\
  getVelocity (fst w) = zero /\
  completions (calls (snd w)) = 1%nat.
Proof.
  cbv zeta.
  assert (H : isAnimating
                (fst (run (every 16) 89
                        (launched zero gentle zero (of_Z 100)))) = false)
    by (vm_compute; reflexivity).
  split; [exact H|].
  destruct (setTarget_completes zero gentle zero (of_Z 100) (every 16) 89)
    as [_ [Hstop _]].
  destruct (Hstop H) as [Hv [Hz [Hc _]]].
  split; [exact Hv | split; [exact Hz | exact Hc]].
Defined.

End SpringClaim.

(** ** The model on the cases of the test suite *)

Module ModelChecks.
Import Num Str Snap.

Example parseFloat_reads_prefix :
  parseFloat "100px" = of_Z 100 /\
  parseFloat "25%" = of_Z 25 /\
  parseFloat "  -3.5e2vh" = of_Z (-350) /\
  parseFloat ".5" = of_decimal false 5 (-1) /\
  parseFloat "-Infinity" = S754_infinity true /\
  parseFloat "abc" = NaN /\
  parseFloat "" = NaN.
Proof. repeat split. Qed.

(** The white space of the engine, written as its UTF-8 bytes: U+00A0
    (also as the single byte 160), U+2003, U+3000 and U+FEFF are skipped;
    U+200B and U+0085 are not white space. *)
Example parseFloat_skips_white_space :
  let bytes (l : list nat) (s : string) : string :=
    fold_right (fun b r => String (ascii_of_nat b) r) s l in
  parseFloat (bytes [194; 160]%nat "42px"%string) = of_Z 42 /\
  parseFloat (bytes [160]%nat "42px"%string) = of_Z 42 /\
  parseFloat (bytes [9; 226; 128; 131; 10]%nat "42px"%string) = of_Z 42 /\
  parseFloat (bytes [227; 128; 128; 239; 187; 191]%nat "42px"%string) = of_Z 42 /\
  parseFloat (bytes [226; 128; 168; 225; 154; 128]%nat "-7"%string) = of_Z (-7) /\
  parseFloat (bytes [226; 128; 139]%nat "42px"%string) = NaN /\
  parseFloat (bytes [194; 133]%nat "42px"%string) = NaN.
Proof. repeat split. Qed.

Example endsWith_units :
  endsWith "100px" "px" = true /\
  endsWith "25%" "%" = true /\
  endsWith "x" "px" = false /\
  endsWith "50vh" "vw" = false.
Proof. repeat split. Qed.

(** 'handles named snap points' *)
Example named_snap_point :
  getSnapPoint
    (Snap.new Examples.window
       {| points := [PObject (VNumber (of_decimal false 5 (-1))) "middle"];
          config_containerSize := of_Z 400;
          direction := vertical |})
    (of_Z 0)
  = Some {| id := "middle"; offset := of_Z 200; relative := true |}.
Proof. reflexivity. Qed.

(** 'updates config' *)
Example updated_config :
  map offset
    (getAllSnapPoints
       (updateConfig Examples.window
          {| points := [PNumber (of_Z 0); PNumber (of_Z 1)];
             config_containerSize := of_Z 800;
             direction := vertical |}
          (Examples.ratios Examples.window)))
  = [of_Z 0; of_Z 800].
Proof. reflexivity. Qed.

(** 'tracks movement and calculates delta', 'ends tracking on pointer up' *)
Example tracked_move :
  let st := snd (Pointer.move (Examples.pointer 150 250 1050) Examples.dragging) in
  Pointer.deltaX st = of_Z 50 /\ Pointer.deltaY st = of_Z 50 /\
  Pointer.currentX st = of_Z 150 /\ Pointer.currentY st = of_Z 250 /\
  Pointer.isDragging
    (snd (Pointer.finish (Examples.pointer 150 250 1100) Examples.dragging))
  = false.
Proof. repeat split. Qed.

(** 'accepts velocity on setTarget' *)
Example seeded_velocity :
  Spring.getVelocity
    (fst (Spring.setTarget zero (of_Z 100) (Some (of_Z 5))
            (Spring.new zero Spring.gentle, Spring.idle)))
  = of_Z 5.
Proof. reflexivity. Qed.

End ModelChecks.

(** ** PointerTracker: the history and the end of a gesture *)

Module GestureFacts.
Import Num Pointer Gesture PointerFacts.

(** X1.  The history never holds more than [maxHistoryLength] = 5 samples,
    in any tracker a program can hold, and it holds at least one while a
    drag is going on. *)
Theorem history_bounded (t : PointerTracker) :
  reachable t ->
  (List.length (history t) <= maxHistoryLength)%nat /\
  (isDragging (state t) = true -> (1 <= List.length (history t))%nat).
Proof.
  assert (Hmove : forall e t0,
    (List.length (history t0) <= maxHistoryLength)%nat /\
    (isDragging (state t0) = true -> (1 <= List.length (history t0))%nat) ->
    (List.length (history (fst (move e t0))) <= maxHistoryLength)%nat /\
    (1 <= List.length (history (fst (move e t0))) \/
     isDragging (state t0) = false)%nat /\
    isDragging (state (fst (move e t0))) = isDragging (state t0)).
  { intros e t0 [Hle Hge]. unfold move, maxHistoryLength in *.
    destruct (isDragging (state t0)) eqn:Hd; cbn [negb].
    - destruct (calculateVelocity _) as [vx vy]. cbn [fst history state isDragging].
      rewrite length_app. cbn [List.length].
      destruct (Nat.ltb_spec 5 (List.length (history t0) + 1)) as [H | H].
      + destruct (history t0) as [|s h]; cbn [app tl List.length] in *; [lia|].
        rewrite length_app. cbn [List.length]. repeat split; lia.
      + rewrite length_app. cbn [List.length]. repeat split; lia.
    - cbn [fst]. rewrite Hd. repeat split; auto. }
  induction 1 as [| e t0 _ _ | e t0 _ IH | e t0 _ IH | t0 _ _].
  - split; [simpl; lia | discriminate].
  - split; [simpl; unfold maxHistoryLength; lia | simpl; lia].
  - destruct (Hmove e t0 IH) as [H1 [H2 H3]]. split; [exact H1|].
    intros Hd. rewrite H3 in Hd. destruct H2 as [H2 | H2]; [exact H2 | congruence].
  - destruct (Hmove e t0 IH) as [H1 _]. unfold finish.
    destruct (move e t0) as [t' st]. cbn [fst history state isDragging] in *.
    split; [exact H1 | discriminate].
  - split; [simpl; lia | discriminate].
Qed.

Lemma history_bounded_witness :
  reachable long_drag /\
  (List.length (history long_drag) <= maxHistoryLength)%nat.
Proof.
  assert (H : reachable long_drag).
  { unfold long_drag. cbn [map moves].
    repeat apply reach_move. apply reach_start, reach_new. }
  split; [exact H|].
  exact (proj1 (history_bounded _ H)).
Defined.

Lemma push_newest {A : Type} (n : nat) (l : list A) (s : A) :
  (1 <= n)%nat ->
  (if (n <? List.length (newest n l ++ [s]))%nat
   then tl (newest n l ++ [s]) else newest n l ++ [s])
  = newest n (l ++ [s]).
Proof.
  intros Hn. unfold newest.
  rewrite !length_app, length_skipn. cbn [List.length].
  destruct (Nat.lt_ge_cases (List.length l) n) as [Hlt | Hge].
  - replace (List.length l - n)%nat with 0%nat by lia.
    replace (List.length l + 1 - n)%nat with 0%nat by lia.
    cbn [skipn].
    now replace (n <? List.length l - 0 + 1)%nat with false
      by (symmetry; apply Nat.ltb_ge; lia).
  - replace (n <? List.length l - (List.length l - n) + 1)%nat with true
      by (symmetry; apply Nat.ltb_lt; lia).
    rewrite skipn_app.
    replace (List.length l + 1 - n - List.length l)%nat with 0%nat by lia.
    replace (List.length l + 1 - n)%nat with (1 + (List.length l - n))%nat by lia.
    rewrite <- skipn_skipn. cbn [skipn app].
    destruct (skipn (List.length l - n) l) as [|a r] eqn:E.
    + apply (f_equal (@List.length A)) in E. rewrite length_skipn in E.
      simpl in E. lia.
    + reflexivity.
Qed.

(** What a run of moves keeps true of a tracker that is dragging, [l] being
    the samples of the gesture so far. *)
Lemma moves_window (es : list PointerEvent) (t : PointerTracker)
    (l : list Sample) :
  isDragging (state t) = true ->
  history t = newest maxHistoryLength l ->
  (velocityX (state t), velocityY (state t)) = slope (history t) ->
  let t' := moves es t in
  isDragging (state t') = true /\
  history t' = newest maxHistoryLength (l ++ map sample_of es) /\
  (velocityX (state t'), velocityY (state t')) = slope (history t') /\
  startX (state t') = startX (state t) /\ startY (state t') = startY (state t).
Proof.
  revert t l. induction es as [|e es IH]; intros t l Hd Hh Hv; cbv zeta.
  - cbn [moves map]. rewrite app_nil_r. auto.
  - cbn [moves map].
    replace (l ++ sample_of e :: map sample_of es)
      with ((l ++ [sample_of e]) ++ map sample_of es)
      by (now rewrite <- app_assoc).
    assert (Hm : isDragging (state (fst (move e t))) = true /\
                 history (fst (move e t))
                 = newest maxHistoryLength (l ++ [sample_of e]) /\
                 (velocityX (state (fst (move e t))),
                  velocityY (state (fst (move e t))))
                 = slope (history (fst (move e t))) /\
                 startX (state (fst (move e t))) = startX (state t) /\
                 startY (state (fst (move e t))) = startY (state t)).
    { unfold move. rewrite Hd. cbn [negb].
      rewrite Hh.
      change {| x := clientX e; y := clientY e; time := timeStamp e |}
        with (sample_of e).
      rewrite (push_newest maxHistoryLength l (sample_of e))
        by (unfold maxHistoryLength; lia).
      rewrite calculateVelocity_slope.
      destruct (slope (newest maxHistoryLength (l ++ [sample_of e])))
        as [vx vy] eqn:E.
      cbn [fst state history isDragging velocityX velocityY startX startY].
      rewrite E. auto. }
    destruct Hm as [H1 [H2 [H3 [H4 H5]]]].
    destruct (IH _ _ H1 H2 H3) as [G1 [G2 [G3 [G4 G5]]]].
    repeat split; try assumption; congruence.
Qed.

(** X2.  [start] discards whatever the tracker held: after [start(e0)] on
    any tracker and any moves, the tracker is dragging from [e0], its
    history is the (at most five) newest samples of this gesture, and the
    velocity of its state is the slope from the oldest to the newest of
    them. *)
Theorem history_is_newest_samples (t : PointerTracker) (e0 : PointerEvent)
    (es : list PointerEvent) :
  let t' := moves es (fst (start e0 t)) in
  let window := newest maxHistoryLength (map sample_of (e0 :: es)) in
  isDragging (state t') = true /\
  startX (state t') = clientX e0 /\ startY (state t') = clientY e0 /\
  history t' = window /\
  (velocityX (state t'), velocityY (state t')) = slope window.
Proof.
  cbv zeta.
  destruct (moves_window es (fst (start e0 t)) [sample_of e0])
    as [H1 [H2 [H3 [H4 H5]]]]; try reflexivity.
  cbn [map]. change (sample_of e0 :: map sample_of es)
    with ([sample_of e0] ++ map sample_of es).
  rewrite <- H2. repeat split; assumption.
Qed.

Lemma moves_app (es1 es2 : list PointerEvent) (t : PointerTracker) :
  moves (es1 ++ es2) t = moves es2 (moves es1 t).
Proof.
  revert t. induction es1 as [|e es1 IH]; intros t; [reflexivity|].
  cbn [app moves]. apply IH.
Qed.

(** X3.  The delta is measured from the start of the gesture, however many
    samples the history has dropped since: after [start(e0)] and any moves
    the last of which is [move(e)], the state holds the position and time
    of [e], the delta [e - e0] on each axis, and the direction of that
    delta. *)
Theorem delta_is_from_start (t : PointerTracker) (e0 e : PointerEvent)
    (es : list PointerEvent) :
  let st := state (moves (es ++ [e]) (fst (start e0 t))) in
  currentX st = clientX e /\ currentY st = clientY e /\
  timestamp st = timeStamp e /\
  deltaX st = sub (clientX e) (clientX e0) /\
  deltaY st = sub (clientY e) (clientY e0) /\
  direction st = getDirection (deltaX st) (deltaY st).
Proof.
  cbv zeta. rewrite moves_app. cbn [moves].
  destruct (history_is_newest_samples t e0 es) as [Hd [Hx [Hy _]]].
  cbv zeta in Hd, Hx, Hy.
  set (t1 := moves es (fst (start e0 t))) in *.
  unfold move. rewrite Hd. cbn [negb].
  destruct (calculateVelocity _) as [vx vy].
  cbn [fst state currentX currentY timestamp deltaX deltaY direction].
  rewrite Hx, Hy. repeat split.
Qed.

Lemma idle_perform (c : Call) (t : PointerTracker) :
  isDragging (state t) = false -> perform c t = (t, state t).
Proof.
  intros H. destruct t as [st h]. cbn [state] in H.
  destruct c as [e | e]; unfold perform, finish, move; cbn [state];
    rewrite H; cbn [negb]; [reflexivity|].
  destruct st. cbn in H. subst. reflexivity.
Qed.

Lemma idle_replay (calls : list Call) (t : PointerTracker) :
  isDragging (state t) = false ->
  replay calls t = (t, map (fun _ => state t) calls).
Proof.
  intros H. induction calls as [|c calls IH]; [reflexivity|].
  cbn [replay map]. rewrite (idle_perform c t H), IH. reflexivity.
Qed.

(** X4.  [end(e)] reports the state [move(e)] would report, with
    [isDragging] cleared, and ends the gesture: whatever moves and ends
    follow, each returns that same state again and none changes the
    tracker. *)
Theorem finish_ends_gesture (t : PointerTracker) (e : PointerEvent)
    (calls : list Call) :
  snd (finish e t) = with_isDragging false (snd (move e t)) /\
  state (fst (finish e t)) = snd (finish e t) /\
  history (fst (finish e t)) = history (fst (move e t)) /\
  replay calls (fst (finish e t))
  = (fst (finish e t), map (fun _ => snd (finish e t)) calls).
Proof.
  assert (H : state (fst (finish e t)) = snd (finish e t) /\
              isDragging (state (fst (finish e t))) = false).
  { unfold finish. destruct (move e t) as [t' st]. split; reflexivity. }
  destruct H as [Hs Hd].
  split; [|split; [exact Hs | split]].
  - unfold finish, with_isDragging. now destruct (move e t).
  - unfold finish. now destruct (move e t).
  - rewrite (idle_replay calls _ Hd), Hs. reflexivity.
Qed.

End GestureFacts.

(** ** SpringAnimation: what every use of it keeps *)

Module SpringUseFacts.
Import Num NumOrder Spring SpringLoop SpringUse.

Lemma frame_single_flight (t : number) (w : World) :
  single_flight w -> single_flight (frame t w).
Proof.
  destruct w as [a h]. unfold single_flight. cbn [fst snd].
  destruct (isAnimating a) eqn:Ha.
  - intros [k [Hk _]]. rewrite (frame_one _ _ _ _ Hk).
    destruct (settles a t) eqn:E.
    + rewrite tick_settles by exact E. reflexivity.
    + rewrite tick_continues by exact E.
      cbn [fst snd isAnimating pending rafId app]. rewrite Ha. eauto.
  - intros Hp. rewrite frame_none by exact Hp. cbn [fst snd]. now rewrite Ha.
Qed.

Lemma setTarget_single_flight (now target : number) (velocity : option number)
    (w : World) :
  single_flight w ->
  single_flight (setTarget now target velocity w) /\
  isAnimating (fst (setTarget now target velocity w)) = true /\
  (exists k, pending (snd (setTarget now target velocity w)) = [k]) /\
  getValue (fst (setTarget now target velocity w)) = getValue (fst w) /\
  targetValue (fst (setTarget now target velocity w)) = target /\
  getVelocity (fst (setTarget now target velocity w))
  = match velocity with Some v => v | None => zero end /\
  calls (snd (setTarget now target velocity w)) = calls (snd w) /\
  (isAnimating (fst w) = true ->
   pending (snd (setTarget now target velocity w)) = pending (snd w) /\
   lastTime (fst (setTarget now target velocity w)) = lastTime (fst w)).
Proof.
  destruct w as [a h]. unfold single_flight, setTarget, getValue, getVelocity.
  cbn [fst snd isAnimating].
  destruct (isAnimating a) eqn:Ha; cbn [negb].
  - intros [k [Hk Hr]].
    cbn [fst snd isAnimating pending rafId currentValue targetValue
         currentVelocity calls lastTime].
    repeat split; eauto.
  - intros Hp. unfold start, requestAnimationFrame.
    cbn [fst snd isAnimating pending rafId currentValue targetValue
         currentVelocity calls lastTime nextHandle].
    rewrite Hp. cbn [app]. repeat split; eauto; discriminate.
Qed.

Lemma stop_single_flight (w : World) :
  single_flight w -> single_flight (stop w).
Proof.
  destruct w as [a h]. unfold single_flight, stop. cbn [fst snd isAnimating].
  destruct (isAnimating a).
  - intros [k [Hk ->]]. cbn [cancelAnimationFrame pending]. rewrite Hk.
    cbn [filter]. now rewrite Nat.eqb_refl.
  - intros Hp. destruct (rafId a); [|exact Hp].
    cbn [cancelAnimationFrame pending]. now rewrite Hp.
Qed.

Lemma invoke_single_flight (m : Method) (w : World) :
  single_flight w -> single_flight (invoke m w).
Proof.
  intros H. destruct m as [now target velocity | | partial]; cbn [invoke].
  - now apply setTarget_single_flight.
  - now apply stop_single_flight.
  - destruct w as [a h]. exact H.
Qed.

Lemma invokes_single_flight (ms : list Method) (w : World) :
  single_flight w ->
  single_flight (fold_left (fun w' m => invoke m w') ms w).
Proof.
  revert w. induction ms as [| m ms IH]; intros w H; cbn [fold_left].
  - exact H.
  - apply IH, invoke_single_flight, H.
Qed.

Lemma invoke_mid_tick (m : Method) (w : World) :
  m <> CallStop -> mid_tick w -> mid_tick (invoke m w).
Proof.
  intros Hm [Ha Hp]. destruct w as [a h]. cbn [fst snd] in Ha, Hp.
  destruct m as [now target velocity | | partial]; cbn [invoke].
  - unfold mid_tick, setTarget. cbn [isAnimating]. rewrite Ha. cbn. auto.
  - now elim Hm.
  - unfold mid_tick. cbn. auto.
Qed.

Lemma invokes_mid_tick (ms : list Method) (w : World) :
  ~ In CallStop ms -> mid_tick w ->
  mid_tick (fold_left (fun w' m => invoke m w') ms w).
Proof.
  revert w. induction ms as [| m ms IH]; intros w Hn H; cbn [fold_left].
  - exact H.
  - apply IH; [intros Hin; apply Hn; now right|].
    apply invoke_mid_tick; [|exact H].
    intros ->. apply Hn. now left.
Qed.

(** A tick whose request was taken off the list leaves one request in
    flight at most, when the update handler does not call [stop()]. *)
Lemma tick_with_single_flight (handlers : Handlers) (t : number)
    (a : SpringAnimation) (h : Host) :
  update_never_stops handlers ->
  isAnimating a = true -> pending h = [] ->
  single_flight (tick_with handlers t (a, h)).
Proof.
  intros Hq Ha Hp. unfold tick_with.
  destruct (_ && _).
  - unfold handler_call. apply invokes_single_flight.
    unfold single_flight. cbn. exact Hp.
  - unfold handler_call. cbn [fst snd].
    match goal with
    | |- context [fold_left ?f ?ms ?w0] =>
        pose proof (invokes_mid_tick ms w0 (Hq _ _ _)) as H;
        destruct (fold_left f ms w0) as [a' h']
    end.
    destruct H as [Ha' Hp']; [split; cbn; assumption|].
    cbn [fst snd] in Ha', Hp'.
    unfold single_flight, requestAnimationFrame. cbn. rewrite Ha', Hp'.
    cbn. eauto.
Qed.

Lemma frame_with_idle (handlers : Handlers) (t : number) (w : World) :
  pending (snd w) = [] -> frame_with handlers t w = w.
Proof. unfold frame_with. now intros ->. Qed.

Lemma frame_with_one (handlers : Handlers) (t : number) (a : SpringAnimation)
    (h : Host) (k : nat) :
  pending h = [k] ->
  frame_with handlers t (a, h) =
  tick_with handlers t
    (a, {| nextHandle := nextHandle h; pending := []; calls := calls h |}).
Proof.
  intros Hp. unfold frame_with. cbn [snd fst]. rewrite Hp.
  cbn [run_callbacks existsb snd fst]. rewrite Hp. cbn [existsb].
  rewrite Nat.eqb_refl. cbn [orb].
  unfold cancelAnimationFrame. rewrite Hp. cbn [filter].
  rewrite Nat.eqb_refl. reflexivity.
Qed.

Lemma frame_with_single_flight (handlers : Handlers) (t : number) (w : World) :
  update_never_stops handlers ->
  single_flight w -> single_flight (frame_with handlers t w).
Proof.
  intros Hq Hs. destruct w as [a h]. pose proof Hs as Hs'.
  unfold single_flight in Hs'. cbn [fst snd] in Hs'.
  destruct (isAnimating a) eqn:Ha.
  - destruct Hs' as [k [Hk _]]. rewrite (frame_with_one _ _ _ _ _ Hk).
    now apply tick_with_single_flight.
  - now rewrite frame_with_idle.
Qed.

Lemma reachable_single_flight (w : World) :
  reachable update_never_stops w -> single_flight w.
Proof.
  induction 1 as [| now target velocity w _ IH | w _ IH | p w _ IH
                  | handlers t w Hq _ IH].
  - reflexivity.
  - now apply setTarget_single_flight.
  - now apply stop_single_flight.
  - destruct w as [a h]. exact IH.
  - now apply frame_with_single_flight.
Qed.

(** The handlers left aside, a tick and a frame are those of the loop. *)
Lemma tick_with_passive (t : number) (w : World) :
  tick_with passive t w = tick t w.
Proof.
  destruct w as [a h]. unfold tick_with, tick, handler_call, passive.
  cbn [fold_left fst snd]. destruct (_ && _); reflexivity.
Qed.

Lemma frame_with_passive (t : number) (w : World) :
  single_flight w -> frame_with passive t w = frame t w.
Proof.
  destruct w as [a h]. unfold single_flight. cbn [fst snd].
  destruct (isAnimating a).
  - intros [k [Hk _]]. rewrite (frame_with_one _ _ _ _ _ Hk).
    rewrite (frame_one _ _ _ _ Hk). apply tick_with_passive.
  - intros Hp. rewrite frame_with_idle by exact Hp.
    now rewrite frame_none.
Qed.

(** X5.  One tick in flight at most, as long as no update handler calls
    [stop()]: in every world a program can reach by calling the public
    methods between frames and from inside its handlers, the update handler
    calling anything but [stop()], a running animation has exactly one
    frame request pending, the one [rafId] names, and a stopped one has
    none.  [setTarget] there always leaves the animation running with
    exactly one request pending, the value untouched, the velocity replaced
    by the one given (0 when left out) and no handler called; on a running
    animation it requests nothing more and keeps the time of the last
    tick. *)
Theorem one_request_in_flight (w : World) (now target : number)
    (velocity : option number) :
  reachable update_never_stops w ->
  single_flight w /\
  let w' := setTarget now target velocity w in
  isAnimating (fst w') = true /\
  (exists k, pending (snd w') = [k]) /\
  getValue (fst w') = getValue (fst w) /\
  targetValue (fst w') = target /\
  getVelocity (fst w') = match velocity with Some v => v | None => zero end /\
  calls (snd w') = calls (snd w) /\
  (isAnimating (fst w) = true ->
   pending (snd w') = pending (snd w) /\ lastTime (fst w') = lastTime (fst w)).
Proof.
  intros H. pose proof (reachable_single_flight w H) as Hs.
  split; [exact Hs|]. cbv zeta.
  now destruct (setTarget_single_flight now target velocity w Hs) as [_ H'].
Qed.

Lemma restless_never_stops : update_never_stops restless.
Proof. intros value velocity w [H | []]. discriminate H. Qed.

Lemma one_request_in_flight_witness :
  let w :=
    frame_with restless (of_Z 32)
      (frame_with restless (of_Z 16) (launched zero gentle zero (of_Z 100))) in
  reachable update_never_stops w /\
  targetValue (fst w) = of_Z 50 /\
  pending (snd (setTarget (of_Z 40) (of_Z 70) None w)) = [3%nat].
Proof.
  cbv zeta.
  assert (H : reachable update_never_stops
                (frame_with restless (of_Z 32)
                   (frame_with restless (of_Z 16)
                      (launched zero gentle zero (of_Z 100))))).
  { apply reach_frame; [exact restless_never_stops|].
    apply reach_frame; [exact restless_never_stops|].
    apply reach_setTarget, reach_new. }
  split; [exact H|]. split; [vm_compute; reflexivity|].
  destruct (one_request_in_flight _ (of_Z 40) (of_Z 70) None H)
    as [_ [_ [_ [_ [_ [_ [_ Hrun]]]]]]].
  rewrite (proj1 (Hrun eq_refl)). vm_compute. reflexivity.
Defined.

(** X6.  [stop()] called between two frames stops for good when the update
    handlers have not called [stop()] themselves: no frame that follows
    runs a tick, whatever handlers are installed then, so the value, the
    velocity and the handler calls stay as they are. *)
Theorem stop_is_final (handlers : Handlers) (w : World)
    (clock : nat -> number) (n m : nat) :
  reachable update_never_stops w ->
  run_from_with handlers clock n m (stop w) = stop w.
Proof.
  intros H.
  pose proof (stop_single_flight w (reachable_single_flight w H)) as Hs.
  assert (Hp : pending (snd (stop w)) = []).
  { unfold single_flight in Hs.
    replace (isAnimating (fst (stop w))) with false in Hs
      by (now destruct w as [a h]).
    exact Hs. }
  revert n. induction m as [|m IH]; intros n; [reflexivity|].
  cbn [run_from_with]. rewrite frame_with_idle by exact Hp. apply IH.
Qed.

Lemma stop_is_final_witness :
  let w := frame_with restless (of_Z 16) (launched zero gentle zero (of_Z 100)) in
  reachable update_never_stops w /\
  run_from_with stopping (every 16) 1 50 (stop w) = stop w.
Proof.
  cbv zeta.
  assert (H : reachable update_never_stops
                (frame_with restless (of_Z 16)
                   (launched zero gentle zero (of_Z 100)))).
  { apply reach_frame; [exact restless_never_stops|].
    apply reach_setTarget, reach_new. }
  split; [exact H|].
  exact (stop_is_final stopping _ (every 16) 1 50 H).
Defined.

(** A loop no tick of which can settle runs for ever. *)
Lemma forever_running (Q : SpringAnimation -> Prop) :
  (forall a t, Q a -> settles a t = false) ->
  (forall a t h, Q a -> Q (fst (tick t (a, h)))) ->
  forall (clock : nat -> number) (m n : nat) (w : World),
    Q (fst w) -> isAnimating (fst w) = true ->
    (exists k, pending (snd w) = [k]) ->
    isAnimating (fst (run_from clock n m w)) = true.
Proof.
  intros Hq Hstep clock m.
  induction m as [|m IH]; intros n [a h] HQ Ha [k Hk]; [exact Ha|].
  cbn [fst snd] in *. cbn [run_from].
  rewrite (frame_one _ _ _ _ Hk).
  apply IH.
  - apply Hstep. exact HQ.
  - rewrite tick_continues by (apply Hq; exact HQ). exact Ha.
  - rewrite tick_continues by (apply Hq; exact HQ).
    cbn [snd pending app]. eauto.
Qed.

Lemma sub_nan_r (a : number) : sub a NaN = NaN.
Proof. destruct a as [s | s | | s m e]; reflexivity. Qed.

Lemma tick_keeps_target_and_config (t : number) (a : SpringAnimation) (h : Host) :
  targetValue (fst (tick t (a, h))) = targetValue a /\
  config (fst (tick t (a, h))) = config a.
Proof.
  destruct (settles a t) eqn:E.
  - rewrite tick_settles by exact E. split; reflexivity.
  - rewrite tick_continues by exact E. split; reflexivity.
Qed.

Lemma running_has_not_completed (initialValue : number) (cfg : SpringConfig)
    (now v : number) (clock : nat -> number) (n : nat) :
  isAnimating (fst (run clock n (launched initialValue cfg now v))) = true ->
  completions (calls (snd (run clock n (launched initialValue cfg now v))))
  = 0%nat.
Proof.
  intros Ha.
  destruct (run_on_course clock n v _
              (launched_on_course initialValue cfg now v)) as [_ H].
  rewrite Ha in H. tauto.
Qed.

(** X7.  A [NaN] never completes: after [setTarget(v)] on a new animation
    whose initial value is [NaN], or with [v] itself [NaN], the loop is
    still running after any number of frames, whatever the config and the
    frame times, and [onComplete] is never called. *)
Theorem nan_never_completes (initialValue : number) (cfg : SpringConfig)
    (now v : number) (clock : nat -> number) (n : nat) :
  is_nan initialValue || is_nan v = true ->
  let w := run clock n (launched initialValue cfg now v) in
  isAnimating (fst w) = true /\ completions (calls (snd w)) = 0%nat.
Proof.
  intros H. cbv zeta.
  assert (Ha : isAnimating
                 (fst (run clock n (launched initialValue cfg now v))) = true).
  { rewrite run_is_run_from.
    destruct (is_nan initialValue) eqn:Hi.
    - assert (Hd : diverged (launched initialValue cfg now v) = true).
      { unfold diverged, launched, setTarget, new, idle, start. cbn.
        now rewrite Hi. }
      pose proof (diverged_forever clock n 0 _ Hd) as Hf.
      unfold diverged in Hf. apply andb_prop in Hf. destruct Hf as [Hf _].
      apply andb_prop in Hf. tauto.
    - cbn [orb] in H. destruct v; try discriminate.
      apply (forever_running (fun a => targetValue a = NaN)).
      + intros a t Ht. unfold settles. rewrite Ht, sub_nan_r. reflexivity.
      + intros a t h Ht.
        now rewrite (proj1 (tick_keeps_target_and_config t a h)).
      + reflexivity.
      + reflexivity.
      + now exists 1%nat. }
  split; [exact Ha | now apply running_has_not_completed].
Qed.

Lemma nan_never_completes_witness :
  is_nan zero || is_nan NaN = true /\
  isAnimating (fst (run (every 16) 200 (launched zero gentle zero NaN))) = true.
Proof.
  split; [reflexivity|].
  exact (proj1 (nan_never_completes zero gentle zero NaN (every 16) 200 eq_refl)).
Defined.

Lemma abs_nonneg (a : number) : is_nan a = false -> leb zero (abs a) = true.
Proof. destruct a as [s | s | | s m e]; try reflexivity; discriminate. Qed.

(** No absolute value is below a number that is not above 0. *)
Lemma abs_not_below (a p : number) :
  ltb zero p = false -> ltb (abs a) p = false.
Proof.
  intros Hp. destruct (ltb (abs a) p) eqn:E; [|reflexivity].
  rewrite <- Hp. symmetry.
  apply (leb_ltb_trans zero (abs a) p); [|exact E].
  apply abs_nonneg. destruct a; try reflexivity. discriminate E.
Qed.

(** X8.  A precision that is not above 0 (0, a negative number or [NaN])
    never lets the loop complete: after [setTarget(v)] on a new animation
    with such a config the loop is still running after any number of
    frames, and [onComplete] is never called. *)
Theorem precision_not_positive_never_completes (initialValue : number)
    (cfg : SpringConfig) (now v : number) (clock : nat -> number) (n : nat) :
  ltb zero (precision cfg) = false ->
  let w := run clock n (launched initialValue cfg now v) in
  isAnimating (fst w) = true /\ completions (calls (snd w)) = 0%nat.
Proof.
  intros H. cbv zeta.
  assert (Ha : isAnimating
                 (fst (run clock n (launched initialValue cfg now v))) = true).
  { rewrite run_is_run_from.
    apply (forever_running (fun a => config a = cfg)).
    - intros a t Hc. unfold settles. rewrite Hc.
      now rewrite (abs_not_below _ _ H).
    - intros a t h Hc.
      now rewrite (proj2 (tick_keeps_target_and_config t a h)).
    - reflexivity.
    - reflexivity.
    - now exists 1%nat. }
  split; [exact Ha | now apply running_has_not_completed].
Qed.

Lemma precision_not_positive_never_completes_witness :
  ltb zero zero = false /\
  isAnimating
    (fst (run (every 16) 200
            (launched zero
               {| stiffness := of_Z 120; damping := of_Z 14; mass := of_Z 1;
                  precision := zero |}
               zero (of_Z 100)))) = true.
Proof.
  split; [reflexivity|].
  exact (proj1 (precision_not_positive_never_completes zero
                  {| stiffness := of_Z 120; damping := of_Z 14; mass := of_Z 1;
                     precision := zero |}
                  zero (of_Z 100) (every 16) 200 eq_refl)).
Defined.

Lemma run_reported (initialValue : number) (cfg : SpringConfig)
    (now v : number) (clock : nat -> number) (n : nat) :
  reported n (run clock n (launched initialValue cfg now v)).
Proof.
  induction n as [|n IH].
  - unfold reported. cbn. repeat split. lia.
  - pose proof (run_on_course clock n v _
                  (launched_on_course initialValue cfg now v)) as [_ Hc].
    cbn [run].
    destruct (run clock n (launched initialValue cfg now v)) as [a h].
    unfold reported in IH |- *. cbn [fst snd] in *.
    destruct (isAnimating a) eqn:Ha.
    + destruct Hc as [_ [k Hk]]. destruct IH as [Hlen [Hup _]].
      rewrite (frame_one _ _ _ _ Hk).
      destruct (settles a (clock (S n))) eqn:E.
      * rewrite tick_settles by exact E. unfold call.
        cbn [fst snd isAnimating calls].
        exists (calls h). repeat split; [exact Hup | lia].
      * rewrite tick_continues by exact E.
        cbn [fst snd isAnimating calls currentValue currentVelocity].
        rewrite Ha, length_app, forallb_app, Hup, last_last.
        cbn [List.length forallb is_update andb]. repeat split. lia.
    + destruct Hc as [_ [_ [_ Hp]]].
      rewrite frame_none by exact Hp. cbn [fst snd]. rewrite Ha.
      destruct IH as [us [H1 [H2 H3]]]. exists us. repeat split; auto.
Qed.

(** X9.  One handler call per frame: [n] frames after [setTarget(v)] on a
    new animation, a loop that is still running has made exactly [n]
    handler calls, all of them [onUpdate], the last one with the value and
    the velocity [getValue()] and [getVelocity()] now return; a loop that
    has stopped has called [onUpdate] at fewer than [n] frames and then
    [onComplete], which is its last call. *)
Theorem one_call_per_frame (initialValue : number) (cfg : SpringConfig)
    (now v : number) (clock : nat -> number) (n : nat) :
  let w := run clock n (launched initialValue cfg now v) in
  (isAnimating (fst w) = true ->
   List.length (calls (snd w)) = n /\
   forallb is_update (calls (snd w)) = true /\
   ((1 <= n)%nat ->
    last (calls (snd w)) OnComplete
    = OnUpdate (getValue (fst w)) (getVelocity (fst w)))) /\
  (isAnimating (fst w) = false ->
   exists updates,
     calls (snd w) = updates ++ [OnComplete] /\
     forallb is_update updates = true /\
     (List.length updates < n)%nat).
Proof.
  cbv zeta. pose proof (run_reported initialValue cfg now v clock n) as H.
  unfold reported in H. unfold getValue, getVelocity.
  split; intros Ha; rewrite Ha in H; exact H.
Qed.

Lemma one_call_per_frame_witness :
  isAnimating
    (fst (run (every 16) 3 (launched zero gentle zero (of_Z 100)))) = true /\
  List.length
    (calls (snd (run (every 16) 3 (launched zero gentle zero (of_Z 100)))))
  = 3%nat.
Proof.
  assert (H : isAnimating
                (fst (run (every 16) 3 (launched zero gentle zero (of_Z 100))))
              = true) by (vm_compute; reflexivity).
  split; [exact H|].
  exact (proj1 (proj1 (one_call_per_frame zero gentle zero (of_Z 100)
                         (every 16) 3) H)).
Defined.

Lemma compare_gt_of_ltb (a b : number) :
  ltb b a = true -> SFcompare a b = Some Gt.
Proof.
  unfold ltb, SFltb. rewrite !compare_key, (orb_comm (is_nan b)).
  destruct (is_nan a || is_nan b); [discriminate|].
  rewrite (key_compare_antisym (order_key a) (order_key b)).
  destruct (key_compare (order_key a) (order_key b)); simpl;
    congruence.
Qed.

(** X10.  The step of a tick is clamped above and only above: every frame
    that comes more than 64 ms after the previous tick is integrated as a
    step of exactly 0.064 s, so that all such frames give the same velocity
    and value, and every frame that comes less than 64 ms after it, a frame
    stamped before it included, is integrated over the difference of the
    two times as it is. *)
Theorem step_is_clamped_at_64ms (a : SpringAnimation) (t t' : number) :
  (ltb (of_Z 64) (sub t (lastTime a)) = true ->
   deltaTime a t = of_decimal false 64 (-3) /\
   (ltb (of_Z 64) (sub t' (lastTime a)) = true ->
    integratedVelocity a t = integratedVelocity a t' /\
    integratedValue a t = integratedValue a t')) /\
  (ltb (sub t (lastTime a)) (of_Z 64) = true ->
   deltaTime a t = div (sub t (lastTime a)) (of_Z 1000)).
Proof.
  assert (Hlate : forall u, ltb (of_Z 64) (sub u (lastTime a)) = true ->
                            deltaTime a u = of_decimal false 64 (-3)).
  { intros u H. unfold deltaTime, min.
    now rewrite (compare_gt_of_ltb _ _ H). }
  split.
  - intros H. split; [now apply Hlate|].
    intros H'. unfold integratedValue, integratedVelocity.
    now rewrite (Hlate t H), (Hlate t' H').
  - intros H. unfold deltaTime, min. unfold ltb, SFltb in H.
    destruct (SFcompare (sub t (lastTime a)) (of_Z 64)) as [[| |]|];
      try discriminate.
    reflexivity.
Qed.

Lemma step_is_clamped_at_64ms_witness :
  ltb (of_Z 64) (sub (of_Z 500) (lastTime (new zero gentle))) = true /\
  deltaTime (new zero gentle) (of_Z 500) = of_decimal false 64 (-3).
Proof.
  split; [reflexivity|].
  exact (proj1 (proj1 (step_is_clamped_at_64ms (new zero gentle)
                         (of_Z 500) (of_Z 500)) eq_refl)).
Defined.

(** A tick with stopping update handlers that does not settle. *)
Lemma tick_with_stopping (handlers : Handlers) (t : number)
    (a : SpringAnimation) (h : Host) :
  stops_on_update handlers -> settles a t = false -> pending h = [] ->
  tick_with handlers t (a, h) =
  ({| currentValue := integratedValue a t;
      currentVelocity := integratedVelocity a t;
      targetValue := targetValue a;
      config := config a;
      rafId := Some (nextHandle h);
      lastTime := t;
      isAnimating := false |},
   {| nextHandle := S (nextHandle h);
      pending := [nextHandle h];
      calls :=
        calls h ++ [OnUpdate (integratedValue a t) (integratedVelocity a t)] |}).
Proof.
  intros Hs Hn Hp. unfold tick_with. unfold settles in Hn. rewrite Hn.
  unfold handler_call. rewrite Hs. cbn [fold_left invoke fst snd].
  unfold stop. cbn [rafId].
  destruct (rafId a) as [k|];
    unfold cancelAnimationFrame, requestAnimationFrame, call;
    cbn; rewrite Hp; reflexivity.
Qed.

(** X21.  [stop()] called from [onUpdate] does not stop the loop.  When a
    running animation with one request in flight ticks without settling
    and its update handler calls [stop()], the tick still requests the next
    frame: after the frame the animation holds the integrated value and is
    marked stopped, yet one request is pending, so the next frame runs a
    tick again and integrates further; and since [setTarget] sees a stopped
    animation it starts a second loop beside the first, two requests in
    flight. *)
Theorem stop_inside_onUpdate_does_not_stop (handlers : Handlers)
    (w : World) (t t' now target : number) (velocity : option number) :
  stops_on_update handlers ->
  single_flight w -> isAnimating (fst w) = true ->
  settles (fst w) t = false ->
  let w1 := frame_with handlers t w in
  isAnimating (fst w1) = false /\
  getValue (fst w1) = integratedValue (fst w) t /\
  (exists k, pending (snd w1) = [k] /\ rafId (fst w1) = Some k) /\
  ~ single_flight w1 /\
  (settles (fst w1) t' = false ->
   getValue (fst (frame_with handlers t' w1)) = integratedValue (fst w1) t' /\
   exists k, pending (snd (frame_with handlers t' w1)) = [k]) /\
  (exists k k', k <> k' /\
     pending (snd (setTarget now target velocity w1)) = [k; k']).
Proof.
  intros Hs Hf Ha Hn. destruct w as [a h]. cbn [fst snd] in *.
  unfold single_flight in Hf. cbn [fst snd] in Hf. rewrite Ha in Hf.
  destruct Hf as [k [Hk _]].
  cbv zeta. rewrite (frame_with_one _ _ _ _ _ Hk).
  rewrite tick_with_stopping; [| exact Hs | exact Hn | reflexivity].
  cbn [fst snd isAnimating pending rafId nextHandle calls].
  unfold getValue. cbn [currentValue].
  split; [reflexivity|]. split; [reflexivity|].
  split; [eauto|].
  split; [unfold single_flight; cbn; discriminate|].
  split.
  - intros Hn'. erewrite frame_with_one by reflexivity.
    rewrite tick_with_stopping; [| exact Hs | exact Hn' | reflexivity].
    cbn. eauto.
  - unfold setTarget, start, requestAnimationFrame. cbn.
    exists (nextHandle h), (S (nextHandle h)). split; [lia | reflexivity].
Qed.

Lemma stopping_stops_on_update : stops_on_update stopping.
Proof. intros value velocity w. reflexivity. Qed.

Lemma stop_inside_onUpdate_does_not_stop_witness :
  let w := launched zero gentle zero (of_Z 100) in
  let w1 := frame_with stopping (of_Z 16) w in
  settles (fst w) (of_Z 16) = false /\
  isAnimating (fst w1) = false /\
  getValue (fst (frame_with stopping (of_Z 32) w1))
  = integratedValue (fst w1) (of_Z 32) /\
  List.length (pending (snd (setTarget (of_Z 40) (of_Z 50) None w1))) = 2%nat.
Proof.
  cbv zeta. split; [vm_compute; reflexivity|].
  destruct (stop_inside_onUpdate_does_not_stop stopping
              (launched zero gentle zero (of_Z 100))
              (of_Z 16) (of_Z 32) (of_Z 40) (of_Z 50) None
              stopping_stops_on_update)
    as (H1 & _ & _ & _ & H5 & k & k' & _ & H6).
  - vm_compute. eauto.
  - reflexivity.
  - vm_compute. reflexivity.
  - split; [exact H1|]. split.
    + apply H5. vm_compute. reflexivity.
    + rewrite H6. reflexivity.
Defined.

End SpringUseFacts.

(** ** SnapPointCalculator: how the accessors and the queries fit together *)

Module SnapUseFacts.
Import Num NumOrder Str Snap SnapUse IndexFacts NumIntegers ResolveFacts
  NearestFacts.

Lemma array_get_position {A : Type} (arr : list A) (k : nat) :
  Z.of_nat k < 2 ^ 53 -> array_get arr (of_nat k) = nth_error arr k.
Proof.
  intros H. apply array_get_integer, of_Z_represents. lia.
Qed.

(** X11.  The three accessors agree after [updateConfig]: the count is the
    number of descriptors given, [getAllSnapPoints()] has that many points,
    [getSnapPoint(i)] is the point at position [i] of it for every position
    [i] below the count, and [getSnapPoint(getSnapPointCount())] is
    [null]. *)
Theorem accessors_agree (w : Window) (config : SnapConfig)
    (c0 : SnapPointCalculator) (i : nat) :
  let c := updateConfig w config c0 in
  Z.of_nat (List.length (points config)) < 2 ^ 53 ->
  getSnapPointCount c = of_nat (List.length (points config)) /\
  List.length (getAllSnapPoints c) = List.length (points config) /\
  getSnapPoint c (getSnapPointCount c) = None /\
  ((i < List.length (points config))%nat ->
   getSnapPoint c (of_nat i) = nth_error (getAllSnapPoints c) i /\
   getSnapPoint c (of_nat i) <> None).
Proof.
  cbv zeta. intros Hn.
  assert (Hlen : List.length (resolvedPoints (updateConfig w config c0))
                 = List.length (points config)) by apply map_from_length.
  unfold getSnapPointCount, getAllSnapPoints, getSnapPoint.
  rewrite Hlen.
  split; [reflexivity|]. split; [reflexivity|]. split.
  - rewrite array_get_position by exact Hn.
    apply nth_error_None. lia.
  - intros Hi. split.
    + apply array_get_position. lia.
    + rewrite array_get_position by lia.
      apply nth_error_Some. lia.
Qed.

Lemma accessors_agree_witness :
  Z.of_nat (List.length (points Examples.ratios_config)) < 2 ^ 53 /\
  getSnapPoint (Examples.ratios Examples.window)
    (getSnapPointCount (Examples.ratios Examples.window)) = None.
Proof.
  assert (H : Z.of_nat (List.length (points Examples.ratios_config)) < 2 ^ 53)
    by (simpl; lia).
  split; [exact H|].
  exact (proj1 (proj2 (proj2
    (accessors_agree Examples.window Examples.ratios_config
       {| resolvedPoints := []; containerSize := zero |} 0 H)))).
Defined.

Lemma string_of_index_inj (a b : nat) :
  string_of_index a = string_of_index b -> a = b.
Proof.
  unfold string_of_index. intros H.
  apply DecimalNat.Unsigned.to_uint_inj.
  apply (f_equal NilEmpty.uint_of_string) in H.
  rewrite !NilEmpty.usu in H. congruence.
Qed.

Lemma bare_id (w : Window) (size : number) (point : SnapPoint) (index : nat) :
  is_bare point = true ->
  id (resolveSnapPoint w size point index)
  = String.append "snap-" (string_of_index index).
Proof.
  destruct point; [reflexivity | reflexivity | discriminate].
Qed.

(** X12.  The ids the calculator makes up never collide with one another:
    two descriptors that are not objects, at different positions of the
    list given to [updateConfig], resolve to points with different ids. *)
Theorem made_up_ids_differ (w : Window) (config : SnapConfig)
    (c0 : SnapPointCalculator) (i j : nat) (pi pj : SnapPoint)
    (ri rj : SnapPointResolved) :
  let c := updateConfig w config c0 in
  nth_error (points config) i = Some pi ->
  nth_error (points config) j = Some pj ->
  is_bare pi = true -> is_bare pj = true ->
  nth_error (resolvedPoints c) i = Some ri ->
  nth_error (resolvedPoints c) j = Some rj ->
  i <> j -> id ri <> id rj.
Proof.
  cbv zeta. unfold updateConfig, resolveSnapPoints. cbn [resolvedPoints].
  intros Hi Hj Bi Bj Ri Rj Hne.
  rewrite map_from_nth, Hi in Ri. rewrite map_from_nth, Hj in Rj.
  cbn [option_map Nat.add] in Ri, Rj.
  injection Ri as <-. injection Rj as <-.
  rewrite (bare_id _ _ _ _ Bi), (bare_id _ _ _ _ Bj).
  intros H. apply Hne. apply string_of_index_inj.
  cbn [String.append] in H. now injection H.
Qed.

Lemma made_up_ids_differ_witness :
  nth_error (points Examples.ratios_config) 0 = Some (PNumber (of_Z 0)) /\
  nth_error (points Examples.ratios_config) 2 = Some (PNumber (of_Z 1)) /\
  id {| id := "snap-0"; offset := of_Z 0; relative := true |}
  <> id {| id := "snap-2"; offset := of_Z 400; relative := true |}.
Proof.
  split; [reflexivity|]. split; [reflexivity|].
  apply (made_up_ids_differ Examples.window Examples.ratios_config
           {| resolvedPoints := []; containerSize := zero |} 0 2
           (PNumber (of_Z 0)) (PNumber (of_Z 1)));
    try reflexivity.
  discriminate.
Defined.

(** X13.  The index [findNearestSnapPoint] returns can be fed back to
    [getSnapPoint] when the list is not empty: the point found there has the
    offset and the id that were returned.  On the empty list it cannot: the
    fallback names the index 0, at which [getSnapPoint] finds nothing. *)
Theorem nearest_index_is_valid (c : SnapPointCalculator) (q : number) :
  let r := findNearestSnapPoint c q in
  (resolvedPoints c <> [] ->
   Z.of_nat (List.length (resolvedPoints c)) < 2 ^ 53 ->
   exists p,
     getSnapPoint c (q_index r) = Some p /\
     q_offset r = offset p /\ q_id r = id p) /\
  (resolvedPoints c = [] -> getSnapPoint c (q_index r) = None).
Proof.
  cbv zeta. split.
  - intros Hne Hn.
    pose proof (scanned_all q (resolvedPoints c)) as Hs.
    unfold findNearestSnapPoint, getSnapPoint.
    destruct (forEach_from (nearest_step q) 0%nat (resolvedPoints c)
                (POSITIVE_INFINITY, 0%nat)) as [m i].
    destruct (scanned_selects q _ _ Hne Hs) as [p [Hp _]].
    cbn [snd] in Hp. rewrite Hp. cbn [q_index q_offset q_id].
    exists p. split; [|split; reflexivity].
    assert (Hi : (i < List.length (resolvedPoints c))%nat)
      by (apply nth_error_Some; congruence).
    rewrite array_get_position by lia. exact Hp.
  - intros He. unfold findNearestSnapPoint, getSnapPoint. rewrite He.
    reflexivity.
Qed.

Lemma nearest_index_is_valid_witness :
  resolvedPoints (Examples.ratios Examples.window) <> [] /\
  Z.of_nat (List.length (resolvedPoints (Examples.ratios Examples.window)))
  < 2 ^ 53 /\
  exists p,
    getSnapPoint (Examples.ratios Examples.window)
      (q_index (findNearestSnapPoint (Examples.ratios Examples.window)
                  (of_Z 180))) = Some p /\
    id p = "snap-1"%string.
Proof.
  assert (H1 : resolvedPoints (Examples.ratios Examples.window) <> [])
    by (simpl; discriminate).
  assert (H2 : Z.of_nat (List.length
                           (resolvedPoints (Examples.ratios Examples.window)))
               < 2 ^ 53) by (simpl; lia).
  split; [exact H1|]. split; [exact H2|].
  destruct (proj1 (nearest_index_is_valid (Examples.ratios Examples.window)
                     (of_Z 180)) H1 H2) as [p [Hp [_ Hid]]].
  exists p. split; [exact Hp|]. symmetry. exact Hid.
Defined.

Lemma infinitely_far (o q : number) :
  is_finite q = false ->
  ltb (abs (sub o q)) POSITIVE_INFINITY = false.
Proof.
  destruct q as [sq | sq | | sq mq eq]; try discriminate; intros _;
    destruct o as [so | so | | so mo eo]; try reflexivity;
    destruct so, sq; reflexivity.
Qed.

Lemma scan_keeps_start (q : number) (pts : list SnapPointResolved) (k : nat) :
  (forall p, In p pts -> ltb (distance_to q p) POSITIVE_INFINITY = false) ->
  forEach_from (nearest_step q) k pts (POSITIVE_INFINITY, 0%nat)
  = (POSITIVE_INFINITY, 0%nat).
Proof.
  revert k. induction pts as [|p pts IH]; intros k H; [reflexivity|].
  cbn [forEach_from]. unfold nearest_step at 2. cbn [fst].
  fold (distance_to q p). rewrite (H p (or_introl eq_refl)).
  apply IH. intros p' Hp'. apply H. now right.
Qed.

(** X14.  A query that is [NaN] or infinite is nearest to nothing: every
    comparison of the scan fails, and [findNearestSnapPoint] returns the
    first point of the list, whatever the offsets are. *)
Theorem nearest_to_no_number (c : SnapPointCalculator) (q : number)
    (first : SnapPointResolved) (rest : list SnapPointResolved) :
  is_finite q = false ->
  resolvedPoints c = first :: rest ->
  findNearestSnapPoint c q =
    {| q_index := of_nat 0; q_offset := offset first; q_id := id first |}.
Proof.
  intros Hq Hc. unfold findNearestSnapPoint.
  rewrite scan_keeps_start.
  - rewrite Hc. reflexivity.
  - intros p _. now apply infinitely_far.
Qed.

Lemma nearest_to_no_number_witness :
  is_finite POSITIVE_INFINITY = false /\
  q_id (findNearestSnapPoint (Examples.ratios Examples.window)
          POSITIVE_INFINITY) = "snap-0"%string.
Proof.
  split; [reflexivity|].
  now rewrite (nearest_to_no_number (Examples.ratios Examples.window)
                 POSITIVE_INFINITY _ _ eq_refl eq_refl).
Defined.

(** Rounding a canonical mantissa that was shifted left gives it back. *)
Lemma round_aux_canonical (s : bool) (t : positive) (n : N) (e : Z) :
  bounded prec emax t (e + Z.of_N n) = true ->
  binary_round_aux prec emax s (Z.pos (Pos.shiftl t n)) e loc_Exact
  = S754_finite s t (e + Z.of_N n).
Proof.
  unfold bounded, canonical_mantissa. intros H.
  apply andb_prop in H. destruct H as [Hc Hb].
  apply Z.eqb_eq in Hc.
  unfold binary_round_aux, shr_fexp.
  cbn [Zdigits2 shr_record_of_loc].
  rewrite digits_shiftl.
  replace (Z.pos (digits2_pos t) + Z.of_N n + e)
    with (Z.pos (digits2_pos t) + (e + Z.of_N n)) by lia.
  rewrite Hc.
  replace (e + Z.of_N n - e) with (Z.of_N n) by lia.
  rewrite shr_shiftl.
  cbn [shr_m loc_of_shr_record round_nearest_even Zdigits2 shr_record_of_loc].
  rewrite Hc, Z.sub_diag. cbn [shr shr_m]. now rewrite Hb.
Qed.

(** Multiplying a number of the engine by 1 leaves it as it is. *)
Lemma mul_one_l (a : number) : is_double a = true -> mul (of_Z 1) a = a.
Proof.
  destruct a as [[|] | [|] | | s m e]; try reflexivity.
  unfold is_double, valid_binary. intros H.
  change (of_Z 1) with (S754_finite false 4503599627370496 (-52)).
  unfold mul, SFmul.
  replace (4503599627370496 * m)%positive with (Pos.shiftl m 52)
    by (apply Pos2Z.inj; rewrite shiftl_value, Pos2Z.inj_mul;
        change (2 ^ Z.of_N 52) with (Z.pos 4503599627370496); lia).
  rewrite round_aux_canonical.
  - destruct s; cbn [xorb]; f_equal; change (Z.of_N 52) with 52; lia.
  - replace (-52 + e + Z.of_N 52) with e
      by (change (Z.of_N 52) with 52; lia).
    exact H.
Qed.

Lemma hundredth_of_hundred : div (of_Z 100) (of_Z 100) = of_Z 1.
Proof. reflexivity. Qed.

(** X15.  The whole of a length is that length exactly.  When the container
    size and the window sizes are numbers of the engine, a descriptor whose
    value is the number [1] resolves to the container size itself; so does
    a string ending in [%] in which [parseFloat] reads 100, and such a
    string ending in [vh] or [vw] resolves to the height or the width of
    the window. *)
Theorem whole_resolves_to_size (w : Window) (config : SnapConfig)
    (c0 : SnapPointCalculator) (index : nat) (point : SnapPoint)
    (r : SnapPointResolved) :
  let size := config_containerSize config in
  is_double size = true ->
  is_double (innerHeight w) = true -> is_double (innerWidth w) = true ->
  nth_error (points config) index = Some point ->
  nth_error (resolvedPoints (updateConfig w config c0)) index = Some r ->
  (descriptor_value point = VNumber (of_Z 1) -> offset r = size) /\
  (forall s, descriptor_value point = VString s -> parseFloat s = of_Z 100 ->
     (endsWith s "%" = true -> offset r = size) /\
     (endsWith s "vh" = true -> offset r = innerHeight w) /\
     (endsWith s "vw" = true -> offset r = innerWidth w)).
Proof.
  cbv zeta. intros Hs Hh Hw Hp Hr.
  unfold updateConfig, resolveSnapPoints in Hr. cbn [resolvedPoints] in Hr.
  rewrite map_from_nth, Hp in Hr. cbn [option_map] in Hr.
  injection Hr as <-.
  assert (Ho : forall k,
             offset (resolveSnapPoint w (config_containerSize config) point k)
             = parseSnapValue w (config_containerSize config)
                 (descriptor_value point))
    by (intros k; destruct point; reflexivity).
  rewrite Ho. split.
  - intros ->. cbn [parseSnapValue]. now apply mul_one_l.
  - intros s -> Hs100.
    destruct (unit_suffixes_exclusive s) as [_ [Hpc [Hvh Hvw]]].
    unfold parseSnapValue. rewrite Hs100, hundredth_of_hundred.
    repeat split; intros H.
    + destruct (Hpc H) as [-> _]. rewrite H. now apply mul_one_l.
    + destruct (Hvh H) as [-> [-> _]]. rewrite H. now apply mul_one_l.
    + destruct (Hvw H) as [-> [-> ->]]. rewrite H. now apply mul_one_l.
Qed.

Lemma whole_resolves_to_size_witness :
  is_double (of_Z 400) = true /\
  is_double (innerHeight Examples.window) = true /\
  is_double (innerWidth Examples.window) = true /\
  parseFloat "100vh" = of_Z 100 /\
  offset {| id := "snap-0"; offset := of_Z 800; relative := false |}
  = innerHeight Examples.window.
Proof.
  split; [reflexivity|]. split; [reflexivity|]. split; [reflexivity|].
  split; [reflexivity|].
  destruct (whole_resolves_to_size Examples.window
              {| points := [PString "100vh"];
                 config_containerSize := of_Z 400;
                 direction := vertical |}
              {| resolvedPoints := []; containerSize := zero |}
              0 (PString "100vh")
              {| id := "snap-0"; offset := of_Z 800; relative := false |}
              eq_refl eq_refl eq_refl eq_refl eq_refl) as [_ H].
  exact (proj1 (proj2 (H "100vh"%string eq_refl eq_refl)) eq_refl).
Defined.

End SnapUseFacts.

(** ** DrawerContent: what the pointer handlers do to the spring *)

Module ContentFacts.
Import Num NumOrder SnapUse Content Sheets.

Lemma setTarget_fields (now target : number) (velocity : option number)
    (w : Spring.World) :
  let w' := Spring.setTarget now target velocity w in
  Spring.currentValue (fst w') = Spring.currentValue (fst w) /\
  Spring.currentVelocity (fst w') =
    match velocity with Some v => v | None => zero end /\
  Spring.targetValue (fst w') = target /\
  Spring.config (fst w') = Spring.config (fst w) /\
  Spring.isAnimating (fst w') = true /\
  Spring.calls (snd w') = Spring.calls (snd w).
Proof.
  destruct w as [a h]. unfold Spring.setTarget. cbn [negb Spring.isAnimating].
  destruct (Spring.isAnimating a) eqn:Ha; cbn; rewrite ?Ha; auto 10.
Qed.

Lemma handle_keeps_spring (props : Props) (i : Input) (d : Drawer) :
  Spring.currentValue (fst (springAnimation (handle props i d))) =
    Spring.currentValue (fst (springAnimation d)) /\
  Spring.calls (snd (springAnimation (handle props i d))) =
    Spring.calls (snd (springAnimation d)).
Proof.
  destruct i as [e | e | now e]; cbn [handle].
  - unfold handlePointerDown. destruct (negb (dismissible props)); cbn.
    + auto.
    + destruct (Pointer.start e (pointerTracker d)); cbn. auto.
  - unfold handlePointerMove.
    destruct (negb (Pointer.isDragging (Pointer.getState (pointerTracker d))));
      cbn.
    + auto.
    + destruct (Pointer.move e (pointerTracker d)); cbn. auto.
  - unfold handlePointerUp.
    destruct (Pointer.finish e (pointerTracker d)) as [t g].
    destruct (shouldClose props (contentRef d) g); cbn [springAnimation];
      split; apply setTarget_fields.
Qed.

Lemma finish_not_dragging (e : Pointer.PointerEvent) (t : Pointer.PointerTracker) :
  Pointer.isDragging (Pointer.state (fst (Pointer.finish e t))) = false /\
  Pointer.isDragging (snd (Pointer.finish e t)) = false.
Proof.
  unfold Pointer.finish. destruct (Pointer.move e t). cbn. auto.
Qed.

Lemma filter_shows_app (l1 l2 : list Effect) :
  filter shows_offset l2 = [] ->
  filter shows_offset (l1 ++ l2) = filter shows_offset l1.
Proof.
  intros H. rewrite filter_app, H. apply app_nil_r.
Qed.

Lemma handle_not_dismissible (props : Props) (i : Input) (d : Drawer) :
  dismissible props = false ->
  Pointer.isDragging (Pointer.getState (pointerTracker d)) = false ->
  Pointer.isDragging (Pointer.getState (pointerTracker (handle props i d)))
    = false /\
  onComplete (handle props i d) = onComplete d /\
  filter shows_offset (effects (handle props i d)) =
    filter shows_offset (effects d) /\
  (Spring.targetValue (fst (springAnimation (handle props i d))) =
     Spring.targetValue (fst (springAnimation d)) \/
   Spring.targetValue (fst (springAnimation (handle props i d))) = zero).
Proof.
  intros Hd Hs. destruct i as [e | e | now e]; cbn [handle].
  - unfold handlePointerDown. rewrite Hd. cbn.
    repeat split; auto. apply filter_shows_app. reflexivity.
  - unfold handlePointerMove. rewrite Hs. cbn.
    repeat split; auto. apply filter_shows_app. reflexivity.
  - unfold handlePointerUp.
    pose proof (finish_not_dragging e (pointerTracker d)) as [Hf _].
    destruct (Pointer.finish e (pointerTracker d)) as [t g].
    unfold shouldClose. rewrite Hd. cbn [andb].
    cbn [pointerTracker onComplete effects springAnimation].
    repeat split; auto.
    + apply filter_shows_app. reflexivity.
    + right. apply setTarget_fields.
Qed.

(** X16.  The pointer handlers never give the dragged offset to the spring:
    whatever sequence of pointer events the component handles, the value
    the spring holds is the one it held before, and no handler of the
    spring is called by a pointer event.  The animation a release starts
    therefore begins at the value the spring had, not at the offset the
    drag showed. *)
Theorem drag_never_reaches_spring (props : Props) (inputs : list Input)
    (d : Drawer) :
  Spring.getValue (fst (springAnimation (handle_all props inputs d))) =
    Spring.getValue (fst (springAnimation d)) /\
  Spring.calls (snd (springAnimation (handle_all props inputs d))) =
    Spring.calls (snd (springAnimation d)).
Proof.
  revert d. induction inputs as [| i rest IH]; intros d; cbn [handle_all].
  - auto.
  - destruct (IH (handle props i d)) as [Hv Hc].
    destruct (handle_keeps_spring props i d) as [Hv' Hc'].
    unfold Spring.getValue in *. split; congruence.
Qed.

(** X17.  A drawer that is not dismissible cannot be dragged: when no
    gesture is under way, no sequence of pointer events starts one, shows
    an offset or stores the close handler, and the only target a release
    gives the spring is 0. *)
Theorem not_dismissible_cannot_drag (props : Props) (inputs : list Input)
    (d : Drawer) :
  dismissible props = false ->
  Pointer.isDragging (Pointer.getState (pointerTracker d)) = false ->
  let d' := handle_all props inputs d in
  Pointer.isDragging (Pointer.getState (pointerTracker d')) = false /\
  onComplete d' = onComplete d /\
  filter shows_offset (effects d') = filter shows_offset (effects d) /\
  (Spring.targetValue (fst (springAnimation d')) =
     Spring.targetValue (fst (springAnimation d)) \/
   Spring.targetValue (fst (springAnimation d')) = zero).
Proof.
  intros Hd. revert d.
  induction inputs as [| i rest IH]; intros d Hs; cbn [handle_all].
  - auto.
  - destruct (handle_not_dismissible props i d Hd Hs) as (H1 & H2 & H3 & H4).
    destruct (IH (handle props i d) H1) as (I1 & I2 & I3 & I4).
    split; [exact I1 |]. split; [congruence |]. split; [congruence |].
    destruct I4 as [I4 | I4]; [| right; exact I4].
    destruct H4 as [H4 | H4]; [left | right]; congruence.
Qed.

Lemma not_dismissible_cannot_drag_witness :
  let inputs :=
    [PointerDown (Examples.pointer 100 200 1000);
     PointerMove (Examples.pointer 100 400 1100);
     PointerUp (of_Z 1116) (Examples.pointer 100 400 1116)] in
  let d := mount Spring.gentle (Some sheet) in
  let d' := handle_all (bottom_sheet false) inputs d in
  Pointer.isDragging (Pointer.getState (pointerTracker d')) = false /\
  onComplete d' = onComplete d /\
  filter shows_offset (effects d') = filter shows_offset (effects d) /\
  (Spring.targetValue (fst (springAnimation d')) =
     Spring.targetValue (fst (springAnimation d)) \/
   Spring.targetValue (fst (springAnimation d')) = zero).
Proof.
  exact (not_dismissible_cannot_drag (bottom_sheet false) _
           (mount Spring.gentle (Some sheet)) eq_refl eq_refl).
Defined.

Lemma handle_keeps_close (props : Props) (i : Input) (d : Drawer) :
  onComplete d = Some Close -> onComplete (handle props i d) = Some Close.
Proof.
  intros H. destruct i as [e | e | now e]; cbn [handle].
  - unfold handlePointerDown. destruct (negb (dismissible props)); cbn.
    + exact H.
    + destruct (Pointer.start e (pointerTracker d)); exact H.
  - unfold handlePointerMove.
    destruct (negb (Pointer.isDragging (Pointer.getState (pointerTracker d)))).
    + exact H.
    + destruct (Pointer.move e (pointerTracker d)); exact H.
  - unfold handlePointerUp.
    destruct (Pointer.finish e (pointerTracker d)) as [t g].
    destruct (shouldClose props (contentRef d) g); [reflexivity | exact H].
Qed.

Lemma handle_all_keeps_close (props : Props) (inputs : list Input) (d : Drawer) :
  onComplete d = Some Close ->
  onComplete (handle_all props inputs d) = Some Close.
Proof.
  revert d. induction inputs as [| i rest IH]; intros d H; cbn [handle_all].
  - exact H.
  - apply IH, handle_keeps_close, H.
Qed.

Lemma up_closing (props : Props) (now : number) (e : Pointer.PointerEvent)
    (d : Drawer) :
  shouldClose props (contentRef d) (snd (Pointer.finish e (pointerTracker d)))
    = true ->
  onComplete (handlePointerUp props now e d) = Some Close /\
  Spring.targetValue (fst (springAnimation (handlePointerUp props now e d))) =
    targetOffset (direction props) (contentRef d).
Proof.
  unfold handlePointerUp.
  destruct (Pointer.finish e (pointerTracker d)) as [t g]. cbn [snd].
  intros ->. cbn [onComplete springAnimation]. split; [reflexivity |].
  apply setTarget_fields.
Qed.

Lemma up_not_closing (props : Props) (now : number) (e : Pointer.PointerEvent)
    (d : Drawer) :
  shouldClose props (contentRef d) (snd (Pointer.finish e (pointerTracker d)))
    = false ->
  let d' := handlePointerUp props now e d in
  onComplete d' = onComplete d /\
  springAnimation d' =
    Spring.setTarget now zero
      (Some (axisVelocity (direction props)
               (snd (Pointer.finish e (pointerTracker d)))))
      (springAnimation d) /\
  filter shows_offset (effects d') = filter shows_offset (effects d).
Proof.
  unfold handlePointerUp.
  destruct (Pointer.finish e (pointerTracker d)) as [t g]. cbn [snd].
  intros ->. cbn [onComplete springAnimation effects].
  repeat split. apply filter_shows_app. reflexivity.
Qed.

(** X18.  [handlePointerUp] stores [close] as the completion handler of the
    spring when a release closes, and nothing ever clears it: after one
    closing release, whatever pointer events follow, a release that does
    not close starts the animation back to 0 with [close] still the
    handler its completion will call. *)
Theorem close_handler_is_never_cleared (props : Props) (now now' : number)
    (e e' : Pointer.PointerEvent) (inputs : list Input) (d : Drawer) :
  shouldClose props (contentRef d) (snd (Pointer.finish e (pointerTracker d)))
    = true ->
  let d1 := handle_all props inputs (handlePointerUp props now e d) in
  shouldClose props (contentRef d1)
    (snd (Pointer.finish e' (pointerTracker d1))) = false ->
  let d2 := handlePointerUp props now' e' d1 in
  onComplete d1 = Some Close /\
  onComplete d2 = Some Close /\
  Spring.targetValue (fst (springAnimation d2)) = zero /\
  Spring.isAnimating (fst (springAnimation d2)) = true.
Proof.
  intros Hc d1 Hn d2.
  assert (H1 : onComplete d1 = Some Close).
  { apply handle_all_keeps_close, up_closing, Hc. }
  destruct (up_not_closing props now' e' d1 Hn) as (Ho & Hs & _).
  fold d2 in Ho, Hs. split; [exact H1 |]. split; [congruence |].
  rewrite Hs. split; apply setTarget_fields.
Qed.

Lemma close_handler_is_never_cleared_witness :
  let props := bottom_sheet true in
  let d1 :=
    handle_all props [PointerDown (Examples.pointer 100 400 1200)]
      (handlePointerUp props (of_Z 1116) (Examples.pointer 100 400 1116)
         dragged_half) in
  let d2 :=
    handlePointerUp props (of_Z 1400) (Examples.pointer 100 410 1400) d1 in
  shouldClose props (contentRef d1)
    (snd (Pointer.finish (Examples.pointer 100 410 1400) (pointerTracker d1)))
    = false /\
  onComplete d1 = Some Close /\
  onComplete d2 = Some Close /\
  Spring.targetValue (fst (springAnimation d2)) = zero /\
  Spring.isAnimating (fst (springAnimation d2)) = true.
Proof.
  split; [vm_compute; reflexivity |].
  apply (close_handler_is_never_cleared (bottom_sheet true) (of_Z 1116)
           (of_Z 1400) (Examples.pointer 100 400 1116)
           (Examples.pointer 100 410 1400)
           [PointerDown (Examples.pointer 100 400 1200)] dragged_half);
    vm_compute; reflexivity.
Defined.

Lemma infinitely_dragged (a t : number) :
  is_finite a = true -> is_zero a = false -> is_finite t = true ->
  gtb (div (abs a) zero) t = true.
Proof.
  destruct a as [s | s | | s m x]; try discriminate.
  destruct t as [s' | s' | | s' m' x']; try discriminate; reflexivity.
Qed.

Lemma targetOffset_zero (side : Side) (content : option Element) :
  containerSize side content = zero ->
  is_zero (targetOffset side content) = true.
Proof.
  unfold targetOffset. intros ->. destruct side; reflexivity.
Qed.

(** X19.  The drag percentage divides by the size of the content, which is
    0 when the element is absent: then any release of a dismissible drawer
    whose pointer moved along the axis at all is a significant drag for
    every finite threshold.  It stores [close] and animates to a closed
    position that is 0 itself. *)
Theorem sizeless_content_closes_on_any_drag (props : Props) (now : number)
    (e : Pointer.PointerEvent) (d : Drawer) :
  dismissible props = true ->
  containerSize (direction props) (contentRef d) = zero ->
  is_finite (closeThresholdOf props) = true ->
  let gesture := snd (Pointer.finish e (pointerTracker d)) in
  is_finite (axisDelta (direction props) gesture) = true ->
  is_zero (axisDelta (direction props) gesture) = false ->
  let d' := handlePointerUp props now e d in
  containerSize (direction props) None = zero /\
  shouldClose props (contentRef d) gesture = true /\
  onComplete d' = Some Close /\
  is_zero (Spring.targetValue (fst (springAnimation d'))) = true.
Proof.
  intros Hd Hs Ht gesture Hf Hz d'.
  assert (Hc : shouldClose props (contentRef d) gesture = true).
  { unfold shouldClose. rewrite Hd, Hs. cbn [andb].
    rewrite (infinitely_dragged _ _ Hf Hz Ht). apply orb_true_r. }
  destruct (up_closing props now e d Hc) as [Ho Hv]. fold d' in Ho, Hv.
  split; [reflexivity |]. split; [exact Hc |]. split; [exact Ho |].
  rewrite Hv. apply targetOffset_zero, Hs.
Qed.

Lemma sizeless_content_closes_on_any_drag_witness :
  let props := bottom_sheet true in
  let e := Examples.pointer 100 201 1200 in
  let gesture := snd (Pointer.finish e (pointerTracker (pressed None))) in
  let d' := handlePointerUp props (of_Z 1200) e (pressed None) in
  Pointer.deltaY gesture = of_Z 1 /\
  containerSize (direction props) None = zero /\
  shouldClose props (contentRef (pressed None)) gesture = true /\
  onComplete d' = Some Close /\
  is_zero (Spring.targetValue (fst (springAnimation d'))) = true.
Proof.
  split; [vm_compute; reflexivity |].
  apply (sizeless_content_closes_on_any_drag (bottom_sheet true) (of_Z 1200)
           (Examples.pointer 100 201 1200) (pressed None));
    vm_compute; reflexivity.
Defined.

(** A spring at 0 with target 0 and no velocity is within every positive
    precision after one step of any finite length. *)
Lemma rest_settles (a : Spring.SpringAnimation) (t : number) :
  is_zero (Spring.currentValue a) = true ->
  Spring.targetValue a = zero ->
  is_zero (Spring.currentVelocity a) = true ->
  is_finite (Spring.stiffness (Spring.config a)) = true ->
  is_finite (Spring.damping (Spring.config a)) = true ->
  is_finite (Spring.mass (Spring.config a)) = true ->
  is_zero (Spring.mass (Spring.config a)) = false ->
  ltb zero (Spring.precision (Spring.config a)) = true ->
  is_finite (Spring.deltaTime a t) = true ->
  Spring.settles a t = true.
Proof.
  unfold Spring.settles, Spring.integratedValue, Spring.integratedVelocity,
    Spring.acceleration.
  generalize (Spring.deltaTime a t) as dt.
  destruct a as [x v tg [k c m p] r lt ia]. cbn.
  intros dt Hx -> Hv Hk Hc Hm Hm' Hp Hdt.
  destruct x as [sx | | |]; try discriminate.
  destruct v as [sv | | |]; try discriminate.
  destruct m as [| | | sm mm em]; try discriminate.
  unfold zero in Hp.
  destruct k as [sk | | | sk mk ek]; try discriminate;
    destruct c as [sc | | | sc mc ec]; try discriminate;
    destruct dt as [sd | | | sd md ed]; try discriminate;
    destruct sx, sv, sk, sc, sm, sd; cbn; rewrite ?Hp; reflexivity.
Qed.

(** X20.  A release that carries no velocity and does not close is not
    animated when the spring rests at 0, as it does from the mount on:
    the first frame after it finds the spring within its precision, calls
    the completion handler and stops the loop.  The update handler, the
    only thing that would move the content back, is never called, so the
    offset the drag showed stays. *)
Theorem still_release_is_not_animated (props : Props) (now t : number)
    (e : Pointer.PointerEvent) (d : Drawer) :
  let w := springAnimation d in
  is_zero (Spring.getValue (fst w)) = true ->
  Spring.isAnimating (fst w) = false ->
  Spring.pending (snd w) = [] ->
  is_finite (Spring.stiffness (Spring.config (fst w))) = true ->
  is_finite (Spring.damping (Spring.config (fst w))) = true ->
  is_finite (Spring.mass (Spring.config (fst w))) = true ->
  is_zero (Spring.mass (Spring.config (fst w))) = false ->
  ltb zero (Spring.precision (Spring.config (fst w))) = true ->
  let gesture := snd (Pointer.finish e (pointerTracker d)) in
  shouldClose props (contentRef d) gesture = false ->
  is_zero (axisVelocity (direction props) gesture) = true ->
  let d1 := handlePointerUp props now e d in
  is_finite (Spring.deltaTime (fst (springAnimation d1)) t) = true ->
  let d2 := frame t d1 in
  Spring.calls (snd (springAnimation d2)) =
    Spring.calls (snd w) ++ [Spring.OnComplete] /\
  Spring.isAnimating (fst (springAnimation d2)) = false /\
  Spring.pending (snd (springAnimation d2)) = [] /\
  Spring.getValue (fst (springAnimation d2)) = zero /\
  filter shows_offset (effects d2) = filter shows_offset (effects d).
Proof.
  intros w Hx Ha Hq Hk Hc Hm Hm' Hp gesture Hn Hv d1 Hdt d2.
  destruct (up_not_closing props now e d Hn) as (_ & Hs & He).
  fold d1 gesture in Hs, He. fold w in Hs.
  unfold d2, frame. cbn [springAnimation effects]. rewrite He.
  revert Hdt. rewrite Hs. clear Hs He d2 d1.
  unfold Spring.getValue in *.
  destruct w as [a h]. cbn [fst snd] in *.
  set (a2 :=
    {| Spring.currentValue := Spring.currentValue a;
       Spring.currentVelocity := axisVelocity (direction props) gesture;
       Spring.targetValue := zero;
       Spring.config := Spring.config a;
       Spring.rafId := Some (Spring.nextHandle h);
       Spring.lastTime := now;
       Spring.isAnimating := true |}).
  assert (Hs : Spring.setTarget now zero
                 (Some (axisVelocity (direction props) gesture)) (a, h) =
               (a2, snd (Spring.requestAnimationFrame h))).
  { unfold Spring.setTarget. cbn [Spring.isAnimating]. rewrite Ha.
    reflexivity. }
  rewrite Hs. cbn [fst snd]. intros Hdt.
  assert (Hst : Spring.settles a2 t = true).
  { apply rest_settles; try assumption; reflexivity. }
  unfold Spring.frame, Spring.requestAnimationFrame.
  cbn [snd Spring.pending Spring.nextHandle Spring.calls].
  rewrite Hq. cbn [app fold_left].
  unfold Spring.tick. unfold Spring.settles in Hst. rewrite Hst.
  cbn. auto.
Qed.

Lemma still_release_is_not_animated_witness :
  let props := bottom_sheet true in
  let e := Examples.pointer 100 250 1180 in
  let gesture := snd (Pointer.finish e (pointerTracker dragged_and_held)) in
  let d1 := handlePointerUp props (of_Z 1180) e dragged_and_held in
  let d2 := frame (of_Z 1196) d1 in
  (Pointer.deltaY gesture = of_Z 50 /\ Pointer.velocityY gesture = zero) /\
  Spring.calls (snd (springAnimation d2)) =
    Spring.calls (snd (springAnimation dragged_and_held))
      ++ [Spring.OnComplete] /\
  Spring.isAnimating (fst (springAnimation d2)) = false /\
  Spring.pending (snd (springAnimation d2)) = [] /\
  Spring.getValue (fst (springAnimation d2)) = zero /\
  filter shows_offset (effects d2) =
    filter shows_offset (effects dragged_and_held).
Proof.
  split; [split; vm_compute; reflexivity |].
  apply (still_release_is_not_animated (bottom_sheet true) (of_Z 1180)
           (of_Z 1196) (Examples.pointer 100 250 1180) dragged_and_held);
    vm_compute; reflexivity.
Defined.

End ContentFacts.
